(** * MOSN wasm runtime: plugin pool, plugin manager and proxy-wasm dispatcher

    A shallow embedding of
      - pkg/wasm/plugin.go   (wasmPluginImpl: the instance pool),
      - the plugin manager of package wasm (pluginWrapper, wasmMangerImpl),
      - the export dispatcher of package proxywasm (wasmContext),
    followed by the properties of the design document that are about them.

    Conventions.  Go's [int] is a 64-bit and [int32] a 32-bit two's
    complement integer; both are carried by [Z] and every arithmetic
    operation of the source is followed by its wrap-around.  Objects that the
    source shares through pointers (plugins) live in an explicit heap and are
    named by their address.  A run-time panic of Go is an explicit outcome. *)

From Stdlib Require Import ZArith String List Lia Permutation.
From stdpp Require Import base option list gmap strings.

Local Open Scope Z_scope.

(** ** Machine integers *)

Module GoInt.

Definition wrap (bits : Z) (z : Z) : Z :=
  (z + 2 ^ (bits - 1)) mod 2 ^ bits - 2 ^ (bits - 1).

Definition int32 (z : Z) : Z := wrap 32 z.
Definition int (z : Z) : Z := wrap 64 z.

Definition MaxInt32 : Z := 2147483647.
Definition MinInt32 : Z := -2147483648.
Definition MaxInt : Z := 9223372036854775807.
Definition MinInt : Z := -9223372036854775808.

Definition is_int32 (z : Z) : Prop := MinInt32 <= z <= MaxInt32.
Definition is_int (z : Z) : Prop := MinInt <= z <= MaxInt.

End GoInt.

(** ** Outcomes, errors *)

(** A Go call either returns or panics. *)
Inductive Outcome (A : Type) : Type :=
| Ret (a : A)
| Panic (msg : string).
Arguments Ret {A} a.
Arguments Panic {A} msg.

(** Values of Go's [error] interface met in these packages: the sentinel
    errors of package wasm, errors made on the spot by [errors.New], and
    errors handed over by the execution engine. *)
Inductive error : Type :=
| ErrEngineNotFound
| ErrWasmBytesLoad
| ErrInstanceCreate
| ErrModuleCreate
| ErrEmptyPluginName
| ErrUnexpectedType
| ErrPluginNotFound
| errors_New (msg : string)
| EngineError (code : nat).

#[global] Instance error_eq_dec : EqDecision error.
Proof. solve_decision. Defined.

(** ** Package v2: configuration *)

Module V2.

(** Modelled from the spec: the declaration of [v2.WasmVmConfig] is not
    part of the sources; its fields are those of the design document
    (Engine, Path, Url, Cpu, Mem) and the ones the code reads. *)
Record WasmVmConfig : Type := {
  Engine : string;
  Path : string;
  Url : string;
  Cpu : Z;
  Mem : Z
}.

(** Modelled from the spec: the declaration of [v2.WasmPluginConfig] is not
    part of the sources.  [VmConfig] is a pointer in the code (it is
    compared with nil and dereferenced), hence an option here. *)
Record WasmPluginConfig : Type := {
  PluginName : string;
  InstanceNum : Z;
  VmConfig : option WasmVmConfig
}.

#[global] Instance WasmVmConfig_eq_dec : EqDecision WasmVmConfig.
Proof. solve_decision. Defined.

#[global] Instance WasmPluginConfig_eq_dec : EqDecision WasmPluginConfig.
Proof. solve_decision. Defined.

Definition with_InstanceNum (c : WasmPluginConfig) (n : Z) : WasmPluginConfig :=
  {| PluginName := PluginName c; InstanceNum := n; VmConfig := VmConfig c |}.

End V2.

(** ** Package wasm: the instance pool (plugin.go) and the plugin manager *)

Module Wasm.
Import V2.

(** *** The execution engine, an external collaborator

    The engine is known to the package through a narrow interface only:
    [GetWasmEngine], the two byte loaders, [vm.NewModule] and
    [module.NewInstance].  None of them is part of the sources, so they are
    parameters.  Engines and modules are objects and are named by an
    identifier.  [module.NewInstance] may fail at any call ([nil]): the
    instantiation of the engine binding ([wasmer.NewInstance]) fails when
    the imports do not resolve, when the engine gives no instance, or when
    the start function traps.  Its outcome is a function of the module and
    of the number of instantiation attempts made so far in the process, and
    the instance made by attempt [k] is the object [k], so that two
    instances never coincide. *)

Definition WasmVM : Type := nat.
Definition WasmModule : Type := nat.
Definition WasmInstance : Type := nat.

Record Env : Type := {
  GetWasmEngine : string -> option WasmVM;
  loadWasmBytesFromPath : string -> list Byte.byte;
  loadWasmBytesFromUrl : string -> list Byte.byte;
  NewModule : WasmVM -> list Byte.byte -> option WasmModule;
  NewInstance_ok : WasmModule -> nat -> bool;
  NumCPU : Z
}.

(** [&wasmInstanceWrapperImpl{WasmInstance: instance}] *)
Record wasmInstanceWrapperImpl : Type := {
  WasmInstance_of : WasmInstance
}.

#[global] Instance wasmInstanceWrapperImpl_eq_dec : EqDecision wasmInstanceWrapperImpl.
Proof. solve_decision. Defined.

(** [type wasmPluginImpl struct]; the lock has no sequential content. *)
Record wasmPluginImpl : Type := {
  config : WasmPluginConfig;
  instanceNum : Z;
  instanceWrappers : list wasmInstanceWrapperImpl;
  instanceWrappersIdx : Z;
  occupy : Z;
  vm : WasmVM;
  wasmBytes : list Byte.byte;
  module : WasmModule
}.

Definition set_pool (w : wasmPluginImpl)
    (l : list wasmInstanceWrapperImpl) (n : Z) : wasmPluginImpl :=
  {| config := config w; instanceNum := n; instanceWrappers := l;
     instanceWrappersIdx := instanceWrappersIdx w; occupy := occupy w;
     vm := vm w; wasmBytes := wasmBytes w; module := module w |}.

Definition set_cursor (w : wasmPluginImpl) (idx occ : Z) : wasmPluginImpl :=
  {| config := config w; instanceNum := instanceNum w;
     instanceWrappers := instanceWrappers w;
     instanceWrappersIdx := idx; occupy := occ;
     vm := vm w; wasmBytes := wasmBytes w; module := module w |}.

Section Pool.
Context (env : Env).

(** The creation loop of [EnsureInstanceNum]:
    [for i := 0; i < numToCreate; i++], a failed creation is logged and
    skipped.  [k] counts the engine's instantiation attempts. *)
Fixpoint createInstances (m : WasmModule) (numToCreate : nat) (k : nat)
    (newInstance : list wasmInstanceWrapperImpl)
    : list wasmInstanceWrapperImpl * nat :=
  match numToCreate with
  | O => (newInstance, k)
  | S n =>
      if NewInstance_ok env m k
      then createInstances m n (S k)
             (newInstance ++ [{| WasmInstance_of := k |}])
      else createInstances m n (S k) newInstance
  end.

(** [func (w *wasmPluginImpl) EnsureInstanceNum(num int) int].
    The shrinking branch is entered with [num < w.instanceNum]; it clears
    the slots from [num] on and reslices to [w.instanceWrappers[:num]],
    which is the first [num] elements as long as [num] does not exceed the
    length, as the plugin invariant [pool_inv] below ensures. *)
Definition EnsureInstanceNum (w : wasmPluginImpl) (k : nat) (num : Z)
    : wasmPluginImpl * nat * Z :=
  if (num <=? 0) || (num =? instanceNum w) then (w, k, instanceNum w)
  else if num <? instanceNum w then
    let w' := set_pool w (take (Z.to_nat num) (instanceWrappers w)) num in
    (w', k, instanceNum w')
  else
    let numToCreate := GoInt.int (num - instanceNum w) in
    let '(newInstance, k') :=
      createInstances (module w) (Z.to_nat numToCreate) k [] in
    let w' := set_pool w (instanceWrappers w ++ newInstance)
                (GoInt.int (instanceNum w + Z.of_nat (length newInstance))) in
    (w', k', instanceNum w').

(** [func (w *wasmPluginImpl) InstanceNum() int] *)
Definition InstanceNum_of (w : wasmPluginImpl) : Z := instanceNum w.

(** [func (w *wasmPluginImpl) PluginName() string] *)
Definition PluginName_of (w : wasmPluginImpl) : string := PluginName (config w).

(** [func (w *wasmPluginImpl) GetPluginConfig() v2.WasmPluginConfig] *)
Definition GetPluginConfig (w : wasmPluginImpl) : WasmPluginConfig := config w.

(** [func (w *wasmPluginImpl) GetVmConfig() v2.WasmVmConfig]: it returns
    [*w.config.VmConfig], which panics on a nil pointer. *)
Definition GetVmConfig (w : wasmPluginImpl) : Outcome WasmVmConfig :=
  match VmConfig (config w) with
  | Some v => Ret v
  | None => Panic "nil pointer dereference"
  end.

(** [func (w *wasmPluginImpl) GetInstance() types.WasmInstanceWrapper].
    Go's [%] truncates towards zero ([Z.rem]) and panics on a zero
    divisor; indexing panics outside [0, len). *)
Definition GetInstance (w : wasmPluginImpl)
    : Outcome (wasmInstanceWrapperImpl * wasmPluginImpl) :=
  let len := Z.of_nat (length (instanceWrappers w)) in
  if len =? 0 then Panic "integer divide by zero"
  else
    let idx := Z.rem (instanceWrappersIdx w) len in
    if idx <? 0 then Panic "index out of range"
    else
      match instanceWrappers w !! Z.to_nat idx with
      | None => Panic "index out of range"
      | Some iw =>
          Ret (iw, set_cursor w (GoInt.int32 (instanceWrappersIdx w + 1))
                                (GoInt.int32 (occupy w + 1)))
      end.

(** [func (w *wasmPluginImpl) ReleaseInstance(instanceWrapper)] *)
Definition ReleaseInstance (w : wasmPluginImpl)
    (iw : wasmInstanceWrapperImpl) : wasmPluginImpl :=
  set_cursor w (instanceWrappersIdx w) (GoInt.int32 (occupy w - 1)).

(** [func (w *wasmPluginImpl) Exec(f func(types.WasmInstanceWrapper) bool)]:
    the instances the visitor is applied to, in order; it stops after the
    first one for which [f] answers false. *)
Fixpoint Exec_range (f : wasmInstanceWrapperImpl -> bool)
    (l : list wasmInstanceWrapperImpl) : list wasmInstanceWrapperImpl :=
  match l with
  | [] => []
  | iw :: r => iw :: (if f iw then Exec_range f r else [])
  end.

Definition Exec (w : wasmPluginImpl) (f : wasmInstanceWrapperImpl -> bool)
    : list wasmInstanceWrapperImpl :=
  Exec_range f (instanceWrappers w).

(** [n] consecutive calls of [GetInstance], collecting what they return. *)
Fixpoint GetInstances (n : nat) (w : wasmPluginImpl)
    : Outcome (list wasmInstanceWrapperImpl * wasmPluginImpl) :=
  match n with
  | O => Ret ([], w)
  | S n' =>
      match GetInstance w with
      | Panic msg => Panic msg
      | Ret (iw, w1) =>
          match GetInstances n' w1 with
          | Panic msg => Panic msg
          | Ret (l, w2) => Ret (iw :: l, w2)
          end
      end
  end.

End Pool.

(** *** Objects, observable events and the monad of the manager *)

(** A value of the interface [types.WasmPlugin]: nil, or the address of a
    [wasmPluginImpl]. *)
Definition PluginRef : Type := nat.
Definition WasmPlugin : Type := option PluginRef.

(** A registered [types.WasmPluginHandler]; observers are external
    objects, what they receive is recorded in the trace. *)
Definition WasmPluginHandler : Type := nat.

Inductive Event : Type :=
| Ev_OnConfigUpdate (h : WasmPluginHandler) (c : WasmPluginConfig)
| Ev_OnPluginStart (h : WasmPluginHandler) (p : WasmPlugin)
| Ev_OnPluginDestroy (h : WasmPluginHandler) (p : WasmPlugin)
| Ev_StoreConfig (c : WasmPluginConfig)     (* [w.config = config] *)
| Ev_StorePlugin (p : WasmPlugin)           (* [w.plugin = plugin] *)
| Ev_Clear (p : PluginRef)
| Ev_SetCpuLimit (p : PluginRef) (cpu : Z)
| Ev_SetMemLimit (p : PluginRef) (mem : Z)
| Ev_EnsureInstanceNum (p : PluginRef) (num : Z)
| Ev_NewWasmPlugin (c : WasmPluginConfig)
| Ev_NewModule (v : WasmVM).

#[global] Instance Event_eq_dec : EqDecision Event.
Proof. solve_decision. Defined.

(** A computation over a state [S] that returns or panics and records the
    events it causes, in order. *)
Definition M (S A : Type) : Type := S -> Outcome A * S * list Event.

Definition ret {S A} (a : A) : M S A := fun s => (Ret a, s, []).

Definition bind {S A B} (m : M S A) (f : A -> M S B) : M S B :=
  fun s =>
    match m s with
    | (Ret a, s1, t1) =>
        match f a s1 with (o, s2, t2) => (o, s2, t1 ++ t2) end
    | (Panic msg, s1, t1) => (Panic msg, s1, t1)
    end.

Definition panic {S A} (msg : string) : M S A := fun s => (Panic msg, s, []).
Definition emit {S} (e : Event) : M S unit := fun s => (Ret tt, s, [e]).
Definition get {S} : M S S := fun s => (Ret s, s, []).
Definition put {S} (s' : S) : M S unit := fun _ => (Ret tt, s', []).

Declare Scope go_scope.
Delimit Scope go_scope with go.
Notation "x ← y ; z" := (bind y (fun x => z))
  (at level 20, y at level 100, z at level 200, only parsing) : go_scope.
Notation "y ;; z" := (bind y (fun _ => z))
  (at level 100, z at level 200, only parsing, right associativity) : go_scope.
Local Open Scope go_scope.

(** [for _, x := range l { f(x) }] *)
Fixpoint for_range {S A} (l : list A) (f : A -> M S unit) : M S unit :=
  match l with
  | [] => ret tt
  | x :: r => f x ;; for_range r f
  end.

(** *** pluginWrapper *)

Record pluginWrapper : Type := {
  pw_plugin : WasmPlugin;
  pw_config : WasmPluginConfig;
  pluginHandlers : list WasmPluginHandler
}.

(** [func (w *pluginWrapper) GetPlugin() types.WasmPlugin] *)
Definition GetPlugin : M pluginWrapper WasmPlugin :=
  w ← get; ret (pw_plugin w).

(** [func (w *pluginWrapper) GetConfig() v2.WasmPluginConfig] *)
Definition GetConfig : M pluginWrapper WasmPluginConfig :=
  w ← get; ret (pw_config w).

Definition store_handlers (l : list WasmPluginHandler) : M pluginWrapper unit :=
  w ← get;
  put {| pw_plugin := pw_plugin w; pw_config := pw_config w; pluginHandlers := l |}.

Definition store_config (c : WasmPluginConfig) : M pluginWrapper unit :=
  w ← get;
  put {| pw_plugin := pw_plugin w; pw_config := c;
         pluginHandlers := pluginHandlers w |} ;;
  emit (Ev_StoreConfig c).

Definition store_plugin (p : WasmPlugin) : M pluginWrapper unit :=
  w ← get;
  put {| pw_plugin := p; pw_config := pw_config w;
         pluginHandlers := pluginHandlers w |} ;;
  emit (Ev_StorePlugin p).

(** A method called through a [types.WasmPlugin] value panics on nil. *)
Definition plugin_Clear {S} (p : WasmPlugin) : M S unit :=
  match p with
  | None => panic "nil pointer dereference"
  | Some r => emit (Ev_Clear r)
  end.

(** [func (w *pluginWrapper) RegisterPluginHandler(pluginHandler)] *)
Definition RegisterPluginHandler (pluginHandler : option WasmPluginHandler)
    : M pluginWrapper unit :=
  match pluginHandler with
  | None => ret tt
  | Some h =>
      w ← get;
      store_handlers (pluginHandlers w ++ [h]) ;;
      w ← get;
      emit (Ev_OnConfigUpdate h (pw_config w)) ;;
      emit (Ev_OnPluginStart h (pw_plugin w))
  end.

(** [func (w *pluginWrapper) Update(config, plugin)] *)
Definition Update (config : WasmPluginConfig) (plugin : WasmPlugin)
    : M pluginWrapper unit :=
  c ← GetConfig;
  if decide (PluginName config = "" \/ PluginName config <> PluginName c)
  then ret tt
  else
    (* update config *)
    w ← get;
    for_range (pluginHandlers w)
      (fun handler => emit (Ev_OnConfigUpdate handler config)) ;;
    store_config config ;;
    (* update plugin *)
    if decide (plugin = None) then ret tt
    else
      (* check same plugin *)
      oldPlugin ← GetPlugin;
      if decide (plugin = oldPlugin) then ret tt
      else
        (* do update plugin *)
        w ← get;
        for_range (pluginHandlers w)
          (fun handler => emit (Ev_OnPluginStart handler plugin)) ;;
        store_plugin plugin ;;
        w ← get;
        for_range (pluginHandlers w)
          (fun handler => emit (Ev_OnPluginDestroy handler oldPlugin)) ;;
        plugin_Clear oldPlugin.

(** *** The process state *)

(** What [sync.Map] holds under a name: a [*pluginWrapper], or a value of
    some other type (the case the type assertions guard against). *)
Inductive Entry : Type :=
| E_pluginWrapper (pw : pluginWrapper)
| E_other (tag : nat).

(** [heap]: the plugins allocated so far, by address; [attempts]: the
    number of [module.NewInstance] calls made so far; [pluginMap]: the
    field of [wasmMangerImpl]. *)
Record World : Type := {
  heap : gmap PluginRef wasmPluginImpl;
  next_ref : PluginRef;
  attempts : nat;
  pluginMap : gmap string Entry
}.

Definition set_pluginMap (s : World) (m : gmap string Entry) : World :=
  {| heap := heap s; next_ref := next_ref s; attempts := attempts s;
     pluginMap := m |}.

(** [&wasmPluginImpl{...}] *)
Definition alloc (impl : wasmPluginImpl) : M World PluginRef :=
  s ← get;
  put {| heap := <[next_ref s := impl]> (heap s);
         next_ref := S (next_ref s);
         attempts := attempts s; pluginMap := pluginMap s |} ;;
  ret (next_ref s).

(** A method of [*pluginWrapper] run on the wrapper registered under
    [key]; the wrapper object is updated in place. *)
Definition on_wrapper {A} (key : string) (m : M pluginWrapper A) : M World A :=
  fun s =>
    match pluginMap s !! key with
    | Some (E_pluginWrapper pw) =>
        match m pw with
        | (o, pw', t) =>
            (o, set_pluginMap s (<[key := E_pluginWrapper pw']> (pluginMap s)), t)
        end
    | _ => (Panic "invalid wrapper reference", s, [])
    end.

Section Manager.
Context (env : Env).

(** [plugin.EnsureInstanceNum(num)] through the interface value. *)
Definition plugin_EnsureInstanceNum (p : WasmPlugin) (num : Z) : M World Z :=
  match p with
  | None => panic "nil pointer dereference"
  | Some r =>
      emit (Ev_EnsureInstanceNum r num) ;;
      s ← get;
      match heap s !! r with
      | None => panic "invalid plugin reference"
      | Some impl =>
          match EnsureInstanceNum env impl (attempts s) num with
          | (impl', k', actual) =>
              put {| heap := <[r := impl']> (heap s);
                     next_ref := next_ref s;
                     attempts := k'; pluginMap := pluginMap s |} ;;
              ret actual
          end
      end
  end.

(** [plugin.GetInstance()] through the interface value. *)
Definition plugin_GetInstance (p : WasmPlugin) : M World wasmInstanceWrapperImpl :=
  match p with
  | None => panic "nil pointer dereference"
  | Some r =>
      s ← get;
      match heap s !! r with
      | None => panic "invalid plugin reference"
      | Some impl =>
          match GetInstance impl with
          | Panic msg => panic msg
          | Ret (x, impl') =>
              put {| heap := <[r := impl']> (heap s);
                     next_ref := next_ref s;
                     attempts := attempts s; pluginMap := pluginMap s |} ;;
              ret x
          end
      end
  end.

(** [plugin.ReleaseInstance(instanceWrapper)] through the interface value. *)
Definition plugin_ReleaseInstance (p : WasmPlugin) (x : wasmInstanceWrapperImpl)
    : M World unit :=
  match p with
  | None => panic "nil pointer dereference"
  | Some r =>
      s ← get;
      match heap s !! r with
      | None => panic "invalid plugin reference"
      | Some impl =>
          put {| heap := <[r := ReleaseInstance impl x]> (heap s);
                 next_ref := next_ref s;
                 attempts := attempts s; pluginMap := pluginMap s |}
      end
  end.

(** [SetCpuLimit] and [SetMemLimit] do nothing to the plugin. *)
Definition plugin_SetCpuLimit (p : WasmPlugin) (cpu : Z) : M World unit :=
  match p with
  | None => panic "nil pointer dereference"
  | Some r => emit (Ev_SetCpuLimit r cpu)
  end.

Definition plugin_SetMemLimit (p : WasmPlugin) (mem : Z) : M World unit :=
  match p with
  | None => panic "nil pointer dereference"
  | Some r => emit (Ev_SetMemLimit r mem)
  end.

(** [func NewWasmPlugin(wasmConfig v2.WasmPluginConfig) (types.WasmPlugin, error)] *)
Definition NewWasmPlugin (wasmConfig : WasmPluginConfig)
    : M World (WasmPlugin * option error) :=
  emit (Ev_NewWasmPlugin wasmConfig) ;;
  (* check instance num *)
  let instanceNum := InstanceNum wasmConfig in
  let instanceNum := if instanceNum <=? 0 then NumCPU env else instanceNum in
  let wasmConfig := with_InstanceNum wasmConfig instanceNum in
  match VmConfig wasmConfig with
  | None => panic "nil pointer dereference"
  | Some vmConfig =>
      (* get wasm engine *)
      match GetWasmEngine env (Engine vmConfig) with
      | None => ret (None, Some ErrEngineNotFound)
      | Some vm =>
          (* load wasm bytes *)
          let wasmBytes :=
            if decide (Path vmConfig <> "")
            then loadWasmBytesFromPath env (Path vmConfig)
            else loadWasmBytesFromUrl env (Url vmConfig) in
          if decide (wasmBytes = []) then ret (None, Some ErrWasmBytesLoad)
          else
            (* create wasm module *)
            emit (Ev_NewModule vm) ;;
            match NewModule env vm wasmBytes with
            | None => ret (None, Some ErrModuleCreate)
            | Some module =>
                r ← alloc {| config := wasmConfig; instanceNum := 0;
                             instanceWrappers := [];
                             instanceWrappersIdx := 0; occupy := 0;
                             vm := vm; wasmBytes := wasmBytes;
                             module := module |};
                let plugin := Some r in
                plugin_SetCpuLimit plugin (Cpu vmConfig) ;;
                plugin_SetMemLimit plugin (Mem vmConfig) ;;
                (* ensure instance num *)
                actual ← plugin_EnsureInstanceNum plugin (InstanceNum wasmConfig);
                if actual =? 0 then ret (None, Some ErrInstanceCreate)
                else ret (plugin, None)
            end
      end
  end.

(** [func (w *wasmMangerImpl) shouldCreateNewPlugin(newConfig, oldConfig) bool] *)
Definition shouldCreateNewPlugin (newConfig oldConfig : WasmPluginConfig) : bool :=
  match VmConfig newConfig, VmConfig oldConfig with
  | Some n, Some o =>
      if decide (Engine n <> Engine o \/ Path n <> Path o \/ Url n <> Url o)
      then true
      else false
  | _, _ => false
  end.

(** The tail of [updateWasm], common to both branches. *)
Definition publish (key : string) (newConfig : WasmPluginConfig)
    (plugin : WasmPlugin) : M World unit :=
  match VmConfig newConfig with
  | None => panic "nil pointer dereference"
  | Some vmConfig =>
      plugin_SetCpuLimit plugin (Cpu vmConfig) ;;
      plugin_SetMemLimit plugin (Mem vmConfig) ;;
      on_wrapper key (Update newConfig plugin)
  end.

(** [func (w *wasmMangerImpl) updateWasm(pluginWrapper, newConfig)];
    the wrapper is the one the registry holds under [key]. *)
Definition updateWasm (key : string) (newConfig : WasmPluginConfig)
    : M World unit :=
  oldConfig ← on_wrapper key GetConfig;
  if decide (newConfig = oldConfig) then ret tt
  else
    plugin ← on_wrapper key GetPlugin;
    oldConfig' ← on_wrapper key GetConfig;
    if shouldCreateNewPlugin newConfig oldConfig' then
      res ← NewWasmPlugin newConfig;
      match snd res with
      | Some err => ret tt
      | None => publish key newConfig (fst res)
      end
    else
      actualNum ← plugin_EnsureInstanceNum plugin (InstanceNum newConfig);
      if actualNum =? 0 then ret tt
      else publish key newConfig plugin.

(** [sync.Map.LoadOrStore] *)
Definition LoadOrStore (key : string) (v : Entry) : M World unit :=
  s ← get;
  match pluginMap s !! key with
  | Some _ => ret tt
  | None => put (set_pluginMap s (<[key := v]> (pluginMap s)))
  end.

(** [func (w *wasmMangerImpl) AddOrUpdateWasm(config) error] *)
Definition AddOrUpdateWasm (config : WasmPluginConfig) : M World (option error) :=
  if decide (PluginName config = "") then ret (Some ErrEmptyPluginName)
  else
    s ← get;
    match pluginMap s !! PluginName config with
    | Some v =>
        match v with
        | E_pluginWrapper _ =>
            updateWasm (PluginName config) config ;;
            ret None
        | E_other _ => ret (Some ErrUnexpectedType)
        end
    | None =>
        (* add new wasm plugin *)
        res ← NewWasmPlugin config;
        match snd res with
        | Some err => ret (Some err)
        | None =>
            let pw := {| pw_plugin := fst res; pw_config := config;
                         pluginHandlers := [] |} in
            LoadOrStore (PluginName config) (E_pluginWrapper pw) ;;
            ret None
        end
    end.

(** [func (w *wasmMangerImpl) GetWasmPluginWrapperByName(pluginName)] *)
Definition GetWasmPluginWrapperByName (pluginName : string)
    : M World (option pluginWrapper) :=
  if decide (pluginName = "") then ret None
  else
    s ← get;
    match pluginMap s !! pluginName with
    | Some (E_pluginWrapper pw) => ret (Some pw)
    | _ => ret None
    end.

(** [func (w *wasmMangerImpl) UninstallWasmPluginByName(pluginName) error] *)
Definition UninstallWasmPluginByName (pluginName : string)
    : M World (option error) :=
  s ← get;
  match pluginMap s !! pluginName with
  | None => ret (Some ErrPluginNotFound)
  | Some v =>
      put (set_pluginMap s (delete pluginName (pluginMap s))) ;;
      match v with
      | E_other _ => panic "interface conversion"
      | E_pluginWrapper pw =>
          plugin_Clear (pw_plugin pw) ;;
          ret None
      end
  end.

End Manager.

End Wasm.

(** ** Package proxywasm: the export dispatcher *)

Module Proxywasm.

Section Dispatcher.
(** The result type [wasm.Value] of an exported function and its reading
    as an [int32], [ToI32], belong to the engine binding and are not part
    of the sources: they are parameters. *)
Context {Value : Type} (ToI32 : Value -> Z).

(** An entry of [instance.Exports]: a Go function
    [func(...interface{}) (wasm.Value, error)].  The dispatcher passes
    [int32] arguments only. *)
Definition ExportFn : Type := list Z -> Value * option error.

Record Instance : Type := { Exports : gmap string ExportFn }.

(** [type wasmContext struct]; the filter plays no part in dispatch. *)
Record wasmContext : Type := {
  contextId : Z;
  instance : Instance
}.

(** One invocation of an exported function: its name and arguments. *)
Definition Invocation : Type := (string * list Z)%type.

(** The body shared by the methods that return [error] only:
    [ff := wasm.instance.Exports[name]; if ff == nil { return
    errors.New("func " + name + " not found") }; _, err := ff(args...);
    return err]. *)
Definition call_void (wasm : wasmContext) (name : string) (args : list Z)
    : option error * list Invocation :=
  match Exports (instance wasm) !! name with
  | None => (Some (errors_New ("func " ++ name ++ " not found")), [])
  | Some ff =>
      match ff args with
      | (_, err) => (err, [(name, args)])
      end
  end.

(** The body shared by the methods that return [(int32, error)]. *)
Definition call_i32 (wasm : wasmContext) (name : string) (args : list Z)
    : (Z * option error) * list Invocation :=
  match Exports (instance wasm) !! name with
  | None => ((0, Some (errors_New ("func " ++ name ++ " not found"))), [])
  | Some ff =>
      match ff args with
      | (res, Some err) => ((0, Some err), [(name, args)])
      | (res, None) => ((ToI32 res, None), [(name, args)])
      end
  end.

(** The methods of [wasmContext], one definition per method. *)

Definition _start (wasm : wasmContext)
    : option error * list Invocation :=
  call_void wasm "_start" [].

Definition proxy_on_context_create (wasm : wasmContext) (contextId parentContextId : Z)
    : option error * list Invocation :=
  call_void wasm "proxy_on_context_create" [contextId; parentContextId].

Definition proxy_on_vm_start (wasm : wasmContext) (rootContextId configurationSize : Z)
    : Z * option error * list Invocation :=
  call_i32 wasm "proxy_on_vm_start" [rootContextId; configurationSize].

Definition proxy_on_done (wasm : wasmContext) (contextId : Z)
    : Z * option error * list Invocation :=
  call_i32 wasm "proxy_on_done" [contextId].

Definition proxy_on_log (wasm : wasmContext) (contextId : Z)
    : option error * list Invocation :=
  call_void wasm "proxy_on_log" [contextId].

Definition proxy_on_delete (wasm : wasmContext) (contextId : Z)
    : option error * list Invocation :=
  call_void wasm "proxy_on_delete" [contextId].

Definition proxy_on_configure (wasm : wasmContext) (rootContextId configurationSize : Z)
    : Z * option error * list Invocation :=
  call_i32 wasm "proxy_on_configure" [rootContextId; configurationSize].

Definition proxy_on_tick (wasm : wasmContext) (rootContextId : Z)
    : option error * list Invocation :=
  call_void wasm "proxy_on_tick" [rootContextId].

Definition proxy_on_new_connection (wasm : wasmContext) (contextId : Z)
    : option error * list Invocation :=
  call_void wasm "proxy_on_new_connection" [contextId].

Definition proxy_on_downstream_data (wasm : wasmContext) (contextId dataLength endOfStream : Z)
    : Z * option error * list Invocation :=
  call_i32 wasm "proxy_on_downstream_data" [contextId; dataLength; endOfStream].

Definition proxy_on_downstream_connection_close (wasm : wasmContext) (contextId closeType : Z)
    : option error * list Invocation :=
  call_void wasm "proxy_on_downstream_connection_close" [contextId; closeType].

Definition proxy_on_upstream_data (wasm : wasmContext) (contextId dataLength endOfStream : Z)
    : Z * option error * list Invocation :=
  call_i32 wasm "proxy_on_upstream_data" [contextId; dataLength; endOfStream].

Definition proxy_on_upstream_connection_close (wasm : wasmContext) (contextId closeType : Z)
    : option error * list Invocation :=
  call_void wasm "proxy_on_upstream_connection_close" [contextId; closeType].

Definition proxy_on_request_headers (wasm : wasmContext) (contextId headers endOfStream : Z)
    : Z * option error * list Invocation :=
  call_i32 wasm "proxy_on_request_headers" [contextId; headers; endOfStream].

Definition proxy_on_request_body (wasm : wasmContext) (contextId bodyBufferLength endOfStream : Z)
    : Z * option error * list Invocation :=
  call_i32 wasm "proxy_on_request_body" [contextId; bodyBufferLength; endOfStream].

Definition proxy_on_request_trailers (wasm : wasmContext) (contextId trailers : Z)
    : Z * option error * list Invocation :=
  call_i32 wasm "proxy_on_request_trailers" [contextId; trailers].

Definition proxy_on_request_metadata (wasm : wasmContext) (contextId nElements : Z)
    : Z * option error * list Invocation :=
  call_i32 wasm "proxy_on_request_metadata" [contextId; nElements].

Definition proxy_on_response_headers (wasm : wasmContext) (contextId headers endOfStream : Z)
    : Z * option error * list Invocation :=
  call_i32 wasm "proxy_on_response_headers" [contextId; headers; endOfStream].

Definition proxy_on_response_body (wasm : wasmContext) (contextId bodyBufferLength endOfStream : Z)
    : Z * option error * list Invocation :=
  call_i32 wasm "proxy_on_response_body" [contextId; bodyBufferLength; endOfStream].

Definition proxy_on_response_trailers (wasm : wasmContext) (contextId trailers : Z)
    : Z * option error * list Invocation :=
  call_i32 wasm "proxy_on_response_trailers" [contextId; trailers].

Definition proxy_on_response_metadata (wasm : wasmContext) (contextId nElements : Z)
    : Z * option error * list Invocation :=
  call_i32 wasm "proxy_on_response_metadata" [contextId; nElements].

Definition proxy_on_http_call_response (wasm : wasmContext)
    (contextId token headers bodySize trailers : Z)
    : option error * list Invocation :=
  call_void wasm "proxy_on_http_call_response" [contextId; token; headers; bodySize; trailers].

Definition proxy_on_grpc_receive_initial_metadata (wasm : wasmContext) (contextId token headers : Z)
    : option error * list Invocation :=
  call_void wasm "proxy_on_grpc_receive_initial_metadata" [contextId; token; headers].

Definition proxy_on_grpc_trailing_metadata (wasm : wasmContext) (contextId token trailers : Z)
    : option error * list Invocation :=
  call_void wasm "proxy_on_grpc_trailing_metadata" [contextId; token; trailers].

Definition proxy_on_grpc_receive (wasm : wasmContext) (contextId token responseSize : Z)
    : option error * list Invocation :=
  call_void wasm "proxy_on_grpc_receive" [contextId; token; responseSize].

Definition proxy_on_grpc_close (wasm : wasmContext) (contextId token statusCode : Z)
    : option error * list Invocation :=
  call_void wasm "proxy_on_grpc_close" [contextId; token; statusCode].

Definition proxy_on_queue_ready (wasm : wasmContext) (rootContextId token : Z)
    : option error * list Invocation :=
  call_void wasm "proxy_on_queue_ready" [rootContextId; token].

Definition proxy_validate_configuration (wasm : wasmContext) (rootContextId configurationSize : Z)
    : Z * option error * list Invocation :=
  call_i32 wasm "proxy_validate_configuration" [rootContextId; configurationSize].

Definition proxy_on_foreign_function (wasm : wasmContext) (rootContextId functionId dataSize : Z)
    : option error * list Invocation :=
  call_void wasm "proxy_on_foreign_function" [rootContextId; functionId; dataSize].

(** The calls of [type ProxyWasmExports interface], with their
    arguments. *)
Inductive AbiCall : Type :=
| Call_start
| Call_proxy_on_context_create (contextId parentContextId : Z)
| Call_proxy_on_vm_start (rootContextId configurationSize : Z)
| Call_proxy_on_done (contextId : Z)
| Call_proxy_on_log (contextId : Z)
| Call_proxy_on_delete (contextId : Z)
| Call_proxy_on_configure (rootContextId configurationSize : Z)
| Call_proxy_on_tick (rootContextId : Z)
| Call_proxy_on_new_connection (contextId : Z)
| Call_proxy_on_downstream_data (contextId dataLength endOfStream : Z)
| Call_proxy_on_downstream_connection_close (contextId closeType : Z)
| Call_proxy_on_upstream_data (contextId dataLength endOfStream : Z)
| Call_proxy_on_upstream_connection_close (contextId closeType : Z)
| Call_proxy_on_request_headers (contextId headers endOfStream : Z)
| Call_proxy_on_request_body (contextId bodyBufferLength endOfStream : Z)
| Call_proxy_on_request_trailers (contextId trailers : Z)
| Call_proxy_on_request_metadata (contextId nElements : Z)
| Call_proxy_on_response_headers (contextId headers endOfStream : Z)
| Call_proxy_on_response_body (contextId bodyBufferLength endOfStream : Z)
| Call_proxy_on_response_trailers (contextId trailers : Z)
| Call_proxy_on_response_metadata (contextId nElements : Z)
| Call_proxy_on_http_call_response (contextId token headers bodySize trailers : Z)
| Call_proxy_on_grpc_receive_initial_metadata (contextId token headers : Z)
| Call_proxy_on_grpc_trailing_metadata (contextId token trailers : Z)
| Call_proxy_on_grpc_receive (contextId token responseSize : Z)
| Call_proxy_on_grpc_close (contextId token statusCode : Z)
| Call_proxy_on_queue_ready (rootContextId token : Z)
| Call_proxy_validate_configuration (rootContextId configurationSize : Z)
| Call_proxy_on_foreign_function (rootContextId functionId dataSize : Z).

(** What a call gives back: an error only, or an action code and an
    error, as the interface declares it. *)
Inductive AbiResult : Type :=
| R_error (err : option error)
| R_code (code : Z) (err : option error).

Definition with_error (r : option error * list Invocation)
    : AbiResult * list Invocation :=
  (R_error (fst r), snd r).

Definition with_code (r : Z * option error * list Invocation)
    : AbiResult * list Invocation :=
  (R_code (fst (fst r)) (snd (fst r)), snd r).

(** A call, run through the method of [wasmContext] that stands for it. *)
Definition run (wasm : wasmContext) (c : AbiCall)
    : AbiResult * list Invocation :=
  match c with
  | Call_start =>
      with_error (_start wasm)
  | Call_proxy_on_context_create contextId parentContextId =>
      with_error (proxy_on_context_create wasm contextId parentContextId)
  | Call_proxy_on_vm_start rootContextId configurationSize =>
      with_code (proxy_on_vm_start wasm rootContextId configurationSize)
  | Call_proxy_on_done contextId =>
      with_code (proxy_on_done wasm contextId)
  | Call_proxy_on_log contextId =>
      with_error (proxy_on_log wasm contextId)
  | Call_proxy_on_delete contextId =>
      with_error (proxy_on_delete wasm contextId)
  | Call_proxy_on_configure rootContextId configurationSize =>
      with_code (proxy_on_configure wasm rootContextId configurationSize)
  | Call_proxy_on_tick rootContextId =>
      with_error (proxy_on_tick wasm rootContextId)
  | Call_proxy_on_new_connection contextId =>
      with_error (proxy_on_new_connection wasm contextId)
  | Call_proxy_on_downstream_data contextId dataLength endOfStream =>
      with_code (proxy_on_downstream_data wasm contextId dataLength endOfStream)
  | Call_proxy_on_downstream_connection_close contextId closeType =>
      with_error (proxy_on_downstream_connection_close wasm contextId closeType)
  | Call_proxy_on_upstream_data contextId dataLength endOfStream =>
      with_code (proxy_on_upstream_data wasm contextId dataLength endOfStream)
  | Call_proxy_on_upstream_connection_close contextId closeType =>
      with_error (proxy_on_upstream_connection_close wasm contextId closeType)
  | Call_proxy_on_request_headers contextId headers endOfStream =>
      with_code (proxy_on_request_headers wasm contextId headers endOfStream)
  | Call_proxy_on_request_body contextId bodyBufferLength endOfStream =>
      with_code (proxy_on_request_body wasm contextId bodyBufferLength endOfStream)
  | Call_proxy_on_request_trailers contextId trailers =>
      with_code (proxy_on_request_trailers wasm contextId trailers)
  | Call_proxy_on_request_metadata contextId nElements =>
      with_code (proxy_on_request_metadata wasm contextId nElements)
  | Call_proxy_on_response_headers contextId headers endOfStream =>
      with_code (proxy_on_response_headers wasm contextId headers endOfStream)
  | Call_proxy_on_response_body contextId bodyBufferLength endOfStream =>
      with_code (proxy_on_response_body wasm contextId bodyBufferLength endOfStream)
  | Call_proxy_on_response_trailers contextId trailers =>
      with_code (proxy_on_response_trailers wasm contextId trailers)
  | Call_proxy_on_response_metadata contextId nElements =>
      with_code (proxy_on_response_metadata wasm contextId nElements)
  | Call_proxy_on_http_call_response contextId token headers bodySize trailers =>
      with_error (proxy_on_http_call_response wasm contextId token headers bodySize trailers)
  | Call_proxy_on_grpc_receive_initial_metadata contextId token headers =>
      with_error (proxy_on_grpc_receive_initial_metadata wasm contextId token headers)
  | Call_proxy_on_grpc_trailing_metadata contextId token trailers =>
      with_error (proxy_on_grpc_trailing_metadata wasm contextId token trailers)
  | Call_proxy_on_grpc_receive contextId token responseSize =>
      with_error (proxy_on_grpc_receive wasm contextId token responseSize)
  | Call_proxy_on_grpc_close contextId token statusCode =>
      with_error (proxy_on_grpc_close wasm contextId token statusCode)
  | Call_proxy_on_queue_ready rootContextId token =>
      with_error (proxy_on_queue_ready wasm rootContextId token)
  | Call_proxy_validate_configuration rootContextId configurationSize =>
      with_code (proxy_validate_configuration wasm rootContextId configurationSize)
  | Call_proxy_on_foreign_function rootContextId functionId dataSize =>
      with_error (proxy_on_foreign_function wasm rootContextId functionId dataSize)
  end.

(** The name of the export a call stands for. *)
Definition export_name (c : AbiCall) : string :=
  match c with
  | Call_start => "_start"
  | Call_proxy_on_context_create _ _ => "proxy_on_context_create"
  | Call_proxy_on_vm_start _ _ => "proxy_on_vm_start"
  | Call_proxy_on_done _ => "proxy_on_done"
  | Call_proxy_on_log _ => "proxy_on_log"
  | Call_proxy_on_delete _ => "proxy_on_delete"
  | Call_proxy_on_configure _ _ => "proxy_on_configure"
  | Call_proxy_on_tick _ => "proxy_on_tick"
  | Call_proxy_on_new_connection _ => "proxy_on_new_connection"
  | Call_proxy_on_downstream_data _ _ _ => "proxy_on_downstream_data"
  | Call_proxy_on_downstream_connection_close _ _ => "proxy_on_downstream_connection_close"
  | Call_proxy_on_upstream_data _ _ _ => "proxy_on_upstream_data"
  | Call_proxy_on_upstream_connection_close _ _ => "proxy_on_upstream_connection_close"
  | Call_proxy_on_request_headers _ _ _ => "proxy_on_request_headers"
  | Call_proxy_on_request_body _ _ _ => "proxy_on_request_body"
  | Call_proxy_on_request_trailers _ _ => "proxy_on_request_trailers"
  | Call_proxy_on_request_metadata _ _ => "proxy_on_request_metadata"
  | Call_proxy_on_response_headers _ _ _ => "proxy_on_response_headers"
  | Call_proxy_on_response_body _ _ _ => "proxy_on_response_body"
  | Call_proxy_on_response_trailers _ _ => "proxy_on_response_trailers"
  | Call_proxy_on_response_metadata _ _ => "proxy_on_response_metadata"
  | Call_proxy_on_http_call_response _ _ _ _ _ => "proxy_on_http_call_response"
  | Call_proxy_on_grpc_receive_initial_metadata _ _ _ => "proxy_on_grpc_receive_initial_metadata"
  | Call_proxy_on_grpc_trailing_metadata _ _ _ => "proxy_on_grpc_trailing_metadata"
  | Call_proxy_on_grpc_receive _ _ _ => "proxy_on_grpc_receive"
  | Call_proxy_on_grpc_close _ _ _ => "proxy_on_grpc_close"
  | Call_proxy_on_queue_ready _ _ => "proxy_on_queue_ready"
  | Call_proxy_validate_configuration _ _ => "proxy_validate_configuration"
  | Call_proxy_on_foreign_function _ _ _ => "proxy_on_foreign_function"
  end.

Definition call_args (c : AbiCall) : list Z :=
  match c with
  | Call_start => []
  | Call_proxy_on_context_create contextId parentContextId => [contextId; parentContextId]
  | Call_proxy_on_vm_start rootContextId configurationSize => [rootContextId; configurationSize]
  | Call_proxy_on_done contextId => [contextId]
  | Call_proxy_on_log contextId => [contextId]
  | Call_proxy_on_delete contextId => [contextId]
  | Call_proxy_on_configure rootContextId configurationSize => [rootContextId; configurationSize]
  | Call_proxy_on_tick rootContextId => [rootContextId]
  | Call_proxy_on_new_connection contextId => [contextId]
  | Call_proxy_on_downstream_data contextId dataLength endOfStream =>
      [contextId; dataLength; endOfStream]
  | Call_proxy_on_downstream_connection_close contextId closeType => [contextId; closeType]
  | Call_proxy_on_upstream_data contextId dataLength endOfStream =>
      [contextId; dataLength; endOfStream]
  | Call_proxy_on_upstream_connection_close contextId closeType => [contextId; closeType]
  | Call_proxy_on_request_headers contextId headers endOfStream => [contextId; headers; endOfStream]
  | Call_proxy_on_request_body contextId bodyBufferLength endOfStream =>
      [contextId; bodyBufferLength; endOfStream]
  | Call_proxy_on_request_trailers contextId trailers => [contextId; trailers]
  | Call_proxy_on_request_metadata contextId nElements => [contextId; nElements]
  | Call_proxy_on_response_headers contextId headers endOfStream =>
      [contextId; headers; endOfStream]
  | Call_proxy_on_response_body contextId bodyBufferLength endOfStream =>
      [contextId; bodyBufferLength; endOfStream]
  | Call_proxy_on_response_trailers contextId trailers => [contextId; trailers]
  | Call_proxy_on_response_metadata contextId nElements => [contextId; nElements]
  | Call_proxy_on_http_call_response contextId token headers bodySize trailers =>
      [contextId; token; headers; bodySize; trailers]
  | Call_proxy_on_grpc_receive_initial_metadata contextId token headers =>
      [contextId; token; headers]
  | Call_proxy_on_grpc_trailing_metadata contextId token trailers => [contextId; token; trailers]
  | Call_proxy_on_grpc_receive contextId token responseSize => [contextId; token; responseSize]
  | Call_proxy_on_grpc_close contextId token statusCode => [contextId; token; statusCode]
  | Call_proxy_on_queue_ready rootContextId token => [rootContextId; token]
  | Call_proxy_validate_configuration rootContextId configurationSize =>
      [rootContextId; configurationSize]
  | Call_proxy_on_foreign_function rootContextId functionId dataSize =>
      [rootContextId; functionId; dataSize]
  end.

(** Calls declared [(int32, error)] in the interface yield an action
    code; the others are for their effect only. *)
Definition yields_code (c : AbiCall) : bool :=
  match c with
  | Call_start => false
  | Call_proxy_on_context_create _ _ => false
  | Call_proxy_on_vm_start _ _ => true
  | Call_proxy_on_done _ => true
  | Call_proxy_on_log _ => false
  | Call_proxy_on_delete _ => false
  | Call_proxy_on_configure _ _ => true
  | Call_proxy_on_tick _ => false
  | Call_proxy_on_new_connection _ => false
  | Call_proxy_on_downstream_data _ _ _ => true
  | Call_proxy_on_downstream_connection_close _ _ => false
  | Call_proxy_on_upstream_data _ _ _ => true
  | Call_proxy_on_upstream_connection_close _ _ => false
  | Call_proxy_on_request_headers _ _ _ => true
  | Call_proxy_on_request_body _ _ _ => true
  | Call_proxy_on_request_trailers _ _ => true
  | Call_proxy_on_request_metadata _ _ => true
  | Call_proxy_on_response_headers _ _ _ => true
  | Call_proxy_on_response_body _ _ _ => true
  | Call_proxy_on_response_trailers _ _ => true
  | Call_proxy_on_response_metadata _ _ => true
  | Call_proxy_on_http_call_response _ _ _ _ _ => false
  | Call_proxy_on_grpc_receive_initial_metadata _ _ _ => false
  | Call_proxy_on_grpc_trailing_metadata _ _ _ => false
  | Call_proxy_on_grpc_receive _ _ _ => false
  | Call_proxy_on_grpc_close _ _ _ => false
  | Call_proxy_on_queue_ready _ _ => false
  | Call_proxy_validate_configuration _ _ => true
  | Call_proxy_on_foreign_function _ _ _ => false
  end.

(** The result a call of that kind returns for a code and an error. *)
Definition result_of (c : AbiCall) (code : Z) (err : option error) : AbiResult :=
  if yields_code c then R_code code err else R_error err.

End Dispatcher.

End Proxywasm.

(** * Specification *)

Import V2 Wasm.
Local Open Scope go_scope.

(** ** Predicates of the design document *)

(** The plugin invariant: the stored count is the length of the instance
    list (and, being the length of a Go slice, fits an [int]). *)
Definition pool_inv (w : wasmPluginImpl) : Prop :=
  instanceNum w = Z.of_nat (length (instanceWrappers w)) /\
  GoInt.is_int (instanceNum w).

(** The cursor can serve [n] more acquisitions without leaving the
    non-negative range of an [int32]. *)
Definition cursor_room (w : wasmPluginImpl) (n : nat) : Prop :=
  0 <= instanceWrappersIdx w /\
  instanceWrappersIdx w + Z.of_nat n - 1 <= GoInt.MaxInt32.

(** ** Sample data used by the examples *)

Definition iw (k : nat) : wasmInstanceWrapperImpl := {| WasmInstance_of := k |}.

Definition vm_cfg (engine path : string) : WasmVmConfig :=
  {| Engine := engine; Path := path; Url := ""; Cpu := 0; Mem := 0 |}.

Definition cfg (name : string) (n : Z) (v : option WasmVmConfig) : WasmPluginConfig :=
  {| PluginName := name; InstanceNum := n; VmConfig := v |}.

(** An engine that knows "wasmer", loads one byte from any non-empty
    location, compiles everything and never fails to instantiate. *)
Definition env_ok : Env :=
  {| GetWasmEngine := fun e => if decide (e = "wasmer") then Some 0%nat else None;
     loadWasmBytesFromPath := fun p => if decide (p = "") then [] else [Byte.x00];
     loadWasmBytesFromUrl := fun u => if decide (u = "") then [] else [Byte.x00];
     NewModule := fun _ _ => Some 7%nat;
     NewInstance_ok := fun _ _ => true;
     NumCPU := 4 |}.

(** The same engine, except that its very first instantiation fails. *)
Definition env_flaky : Env :=
  {| GetWasmEngine := GetWasmEngine env_ok;
     loadWasmBytesFromPath := loadWasmBytesFromPath env_ok;
     loadWasmBytesFromUrl := loadWasmBytesFromUrl env_ok;
     NewModule := NewModule env_ok;
     NewInstance_ok := fun _ k => negb (Nat.eqb k 0);
     NumCPU := 4 |}.

(** The same engine, except that no instantiation ever succeeds. *)
Definition env_barren : Env :=
  {| GetWasmEngine := GetWasmEngine env_ok;
     loadWasmBytesFromPath := loadWasmBytesFromPath env_ok;
     loadWasmBytesFromUrl := loadWasmBytesFromUrl env_ok;
     NewModule := NewModule env_ok;
     NewInstance_ok := fun _ _ => false;
     NumCPU := 4 |}.

(** The same engine, except that it compiles nothing. *)
Definition env_nomodule : Env :=
  {| GetWasmEngine := GetWasmEngine env_ok;
     loadWasmBytesFromPath := loadWasmBytesFromPath env_ok;
     loadWasmBytesFromUrl := loadWasmBytesFromUrl env_ok;
     NewModule := fun _ _ => None;
     NewInstance_ok := fun _ _ => true;
     NumCPU := 4 |}.

(** A pool over [l] with the cursor at [idx]. *)
Definition pool (l : list wasmInstanceWrapperImpl) (idx : Z) : wasmPluginImpl :=
  {| config := cfg "p" (Z.of_nat (length l)) (Some (vm_cfg "wasmer" "/a.wasm"));
     instanceNum := Z.of_nat (length l);
     instanceWrappers := l;
     instanceWrappersIdx := idx; occupy := 0;
     vm := 0%nat; wasmBytes := [Byte.x00]; module := 7%nat |}.

(** The calls a client can make on a plugin, and the plugin (with the
    engine's attempt counter) after a sequence of them; a call that panics
    leaves the plugin as it is. *)
Inductive PoolOp : Type :=
| PoolOp_EnsureInstanceNum (num : Z)
| PoolOp_GetInstance
| PoolOp_ReleaseInstance (iw : wasmInstanceWrapperImpl).

Definition run_pool_op (env : Env) (st : wasmPluginImpl * nat) (op : PoolOp)
    : wasmPluginImpl * nat :=
  match op with
  | PoolOp_EnsureInstanceNum num => (EnsureInstanceNum env st.1 st.2 num).1
  | PoolOp_GetInstance =>
      match GetInstance st.1 with
      | Ret (_, w') => (w', st.2)
      | Panic _ => st
      end
  | PoolOp_ReleaseInstance iw => (ReleaseInstance st.1 iw, st.2)
  end.

Definition run_pool_ops (env : Env) (ops : list PoolOp) (st : wasmPluginImpl * nat)
    : wasmPluginImpl * nat :=
  fold_left (run_pool_op env) ops st.

(** The arguments of the calls are Go [int]s. *)
Definition pool_op_typed (op : PoolOp) : Prop :=
  match op with
  | PoolOp_EnsureInstanceNum num => GoInt.is_int num
  | _ => True
  end.

(** Calling [EnsureInstanceNum] a second time with the same target leaves
    the plugin, the engine and the returned count as the first call left
    them. *)
Definition EnsureInstanceNum_twice_same (env : Env) (w : wasmPluginImpl)
    (k : nat) (num : Z) : Prop :=
  match EnsureInstanceNum env w k num with
  | (w1, k1, r1) => EnsureInstanceNum env w1 k1 num = (w1, k1, r1)
  end.

(** The errors of plugin construction: engine not found, bytes not loaded,
    module not created, no instance created. *)
Definition construction_errors : list error :=
  [ErrEngineNotFound; ErrWasmBytesLoad; ErrModuleCreate; ErrInstanceCreate].

(** The process before any plugin is registered. *)
Definition world0 : World :=
  {| heap := ∅; next_ref := 0%nat; attempts := 0%nat; pluginMap := ∅ |}.

(** A wrapper around plugin [p] under the name [name], with observers [hs]. *)
Definition wrapper (name : string) (p : WasmPlugin) (hs : list WasmPluginHandler)
    : pluginWrapper :=
  {| pw_plugin := p;
     pw_config := cfg name 2 (Some (vm_cfg "wasmer" "/a.wasm"));
     pluginHandlers := hs |}.

(** In the trace [t] every event that satisfies [P] comes strictly before
    every event that satisfies [Q]. *)
Definition precedes (P Q : Event -> Prop) (t : list Event) : Prop :=
  forall i j e1 e2,
    t !! i = Some e1 -> t !! j = Some e2 -> P e1 -> Q e2 -> (i < j)%nat.

(** The notifications of one swap. *)
Definition is_start (p : WasmPlugin) (e : Event) : Prop :=
  exists h, e = Ev_OnPluginStart h p.
Definition is_destroy (p : WasmPlugin) (e : Event) : Prop :=
  exists h, e = Ev_OnPluginDestroy h p.

(** The calls a client can make on a wrapper. *)
Inductive WrapperOp : Type :=
| Op_RegisterPluginHandler (h : option WasmPluginHandler)
| Op_GetPlugin
| Op_GetConfig
| Op_Update (c : WasmPluginConfig) (p : WasmPlugin).

Definition run_op (op : WrapperOp) (w : pluginWrapper) : pluginWrapper :=
  match op with
  | Op_RegisterPluginHandler h => (RegisterPluginHandler h w).1.2
  | Op_GetPlugin => (GetPlugin w).1.2
  | Op_GetConfig => (GetConfig w).1.2
  | Op_Update c p => (Update c p w).1.2
  end.

(** The wrapper after a sequence of calls. *)
Definition run_ops (ops : list WrapperOp) (w : pluginWrapper) : pluginWrapper :=
  fold_left (fun w op => run_op op w) ops w.

(** A wrapper with its configuration, or its plugin, replaced. *)
Definition with_config (w : pluginWrapper) (c : WasmPluginConfig) : pluginWrapper :=
  {| pw_plugin := pw_plugin w; pw_config := c; pluginHandlers := pluginHandlers w |}.

Definition with_plugin (w : pluginWrapper) (p : WasmPlugin) : pluginWrapper :=
  {| pw_plugin := p; pw_config := pw_config w; pluginHandlers := pluginHandlers w |}.

(** The source of the module changed between two configurations: both
    carry a [VmConfig] and they differ in engine, path or url. *)
Definition vm_source_changed (newConfig oldConfig : WasmPluginConfig) : Prop :=
  exists n o,
    VmConfig newConfig = Some n /\ VmConfig oldConfig = Some o /\
    (Engine n <> Engine o \/ Path n <> Path o \/ Url n <> Url o).

(** The events of a rebuild: a call of [NewWasmPlugin], the creation of a
    module. *)
Definition is_build (e : Event) : Prop :=
  (exists c, e = Ev_NewWasmPlugin c) \/ (exists v, e = Ev_NewModule v).

(** The configuration under which the examples register plugin "p", and
    the process once it is registered with an engine that never fails. *)
Definition cfg_p : WasmPluginConfig := cfg "p" 2 (Some (vm_cfg "wasmer" "/a.wasm")).

Definition world_p : World := (AddOrUpdateWasm env_ok cfg_p world0).1.2.

(** An update of "p" that only asks for three instances and carries no
    [VmConfig]. *)
Definition cfg_p_nil : WasmPluginConfig := cfg "p" 3 None.

(** An extension that exports [proxy_on_done], which answers 1, and
    [proxy_on_tick], which traps; results are raw bits read as [int32]. *)
Definition sample_exports : gmap string (@Proxywasm.ExportFn Z) :=
  <["proxy_on_done" := fun _ => (1, None)]>
    (<["proxy_on_tick" := fun _ => (0, Some (EngineError 13))]> ∅).

Definition sample_context : @Proxywasm.wasmContext Z :=
  {| Proxywasm.contextId := 1;
     Proxywasm.instance := {| Proxywasm.Exports := sample_exports |} |}.

(** ** Further notions, for the properties beyond the design document *)

(** The instances of [l] released one after the other. *)
Definition ReleaseInstances (l : list wasmInstanceWrapperImpl) (w : wasmPluginImpl)
    : wasmPluginImpl :=
  fold_left ReleaseInstance l w.

(** The instantiation attempts [k], ..., [k + n - 1] on module [m] that
    succeed, as the instances they make. *)
Definition created (env : Env) (m : WasmModule) (k n : nat)
    : list wasmInstanceWrapperImpl :=
  map iw (List.filter (NewInstance_ok env m) (seq k n)).

(** The instance count [NewWasmPlugin] aims at. *)
Definition wanted (env : Env) (c : WasmPluginConfig) : Z :=
  if InstanceNum c <=? 0 then NumCPU env else InstanceNum c.

(** The bytes [NewWasmPlugin] loads for a [VmConfig]. *)
Definition source_bytes (env : Env) (v : WasmVmConfig) : list Byte.byte :=
  if decide (Path v <> "")
  then loadWasmBytesFromPath env (Path v)
  else loadWasmBytesFromUrl env (Url v).

(** The plugin [NewWasmPlugin] allocates, before it has any instance. *)
Definition blank_plugin (env : Env) (c : WasmPluginConfig) (v : WasmVmConfig)
    (e : WasmVM) (m : WasmModule) : wasmPluginImpl :=
  {| config := with_InstanceNum c (wanted env c); instanceNum := 0;
     instanceWrappers := []; instanceWrappersIdx := 0; occupy := 0;
     vm := e; wasmBytes := source_bytes env v; module := m |}.

(** An environment with another loader for urls, or for paths. *)
Definition with_url_loader (env : Env) (f : string -> list Byte.byte) : Env :=
  {| GetWasmEngine := GetWasmEngine env;
     loadWasmBytesFromPath := loadWasmBytesFromPath env;
     loadWasmBytesFromUrl := f;
     NewModule := NewModule env;
     NewInstance_ok := NewInstance_ok env;
     NumCPU := NumCPU env |}.

Definition with_path_loader (env : Env) (f : string -> list Byte.byte) : Env :=
  {| GetWasmEngine := GetWasmEngine env;
     loadWasmBytesFromPath := f;
     loadWasmBytesFromUrl := loadWasmBytesFromUrl env;
     NewModule := NewModule env;
     NewInstance_ok := NewInstance_ok env;
     NumCPU := NumCPU env |}.

(** The observers of [hs] registered one after the other. *)
Definition RegisterAll (hs : list WasmPluginHandler) : M pluginWrapper unit :=
  for_range hs (fun h => RegisterPluginHandler (Some h)).

(** What a newly registered observer is told at once. *)
Definition greeting (w : pluginWrapper) (h : WasmPluginHandler) : list Event :=
  [Ev_OnConfigUpdate h (pw_config w); Ev_OnPluginStart h (pw_plugin w)].

(** A wrapper with more observers. *)
Definition with_handlers (w : pluginWrapper) (hs : list WasmPluginHandler)
    : pluginWrapper :=
  {| pw_plugin := pw_plugin w; pw_config := pw_config w; pluginHandlers := hs |}.

(** The events of a plugin swap. *)
Definition is_swap_event (e : Event) : Prop :=
  (exists h p, e = Ev_OnPluginStart h p) \/
  (exists h p, e = Ev_OnPluginDestroy h p) \/
  (exists p, e = Ev_StorePlugin p) \/
  (exists p, e = Ev_Clear p).

(** A well-formed process state.  Every registry entry is a wrapper; a
    wrapper is registered under the non-empty name of its configuration,
    its configuration carries a [VmConfig], and its plugin is an allocated
    plugin with an instance.  Every allocated plugin obeys the plugin
    invariant and its address has been handed out. *)
Definition wrapper_ok (s : World) (key : string) (pw : pluginWrapper) : Prop :=
  PluginName (pw_config pw) = key /\ key <> "" /\
  VmConfig (pw_config pw) <> None /\
  exists r impl,
    pw_plugin pw = Some r /\ heap s !! r = Some impl /\ 1 <= instanceNum impl.

Definition world_inv (s : World) : Prop :=
  (forall key e, pluginMap s !! key = Some e ->
     exists pw, e = E_pluginWrapper pw /\ wrapper_ok s key pw) /\
  (forall r impl, heap s !! r = Some impl ->
     pool_inv impl /\ (r < next_ref s)%nat).

(** The calls a client of the manager makes: the three operations of the
    manager, the registration of an observer on the wrapper found under a
    name, and the acquisition and release of an instance of the plugin of
    that wrapper. *)
Inductive ManagerOp : Type :=
| MOp_AddOrUpdateWasm (c : WasmPluginConfig)
| MOp_Uninstall (name : string)
| MOp_Lookup (name : string)
| MOp_Register (name : string) (h : option WasmPluginHandler)
| MOp_Acquire (name : string)
| MOp_Release (name : string) (x : wasmInstanceWrapperImpl).

Definition acquire (name : string) : M World (option wasmInstanceWrapperImpl) :=
  bind (GetWasmPluginWrapperByName name) (fun found =>
  match found with
  | None => ret None
  | Some pw => bind (plugin_GetInstance (pw_plugin pw)) (fun x => ret (Some x))
  end).

Definition release (name : string) (x : wasmInstanceWrapperImpl) : M World unit :=
  bind (GetWasmPluginWrapperByName name) (fun found =>
  match found with
  | None => ret tt
  | Some pw => plugin_ReleaseInstance (pw_plugin pw) x
  end).

(** The state a call leaves behind, also when it panics. *)
Definition run_manager_op (env : Env) (s : World) (op : ManagerOp) : World :=
  match op with
  | MOp_AddOrUpdateWasm c => (AddOrUpdateWasm env c s).1.2
  | MOp_Uninstall name => (UninstallWasmPluginByName name s).1.2
  | MOp_Lookup name => (GetWasmPluginWrapperByName name s).1.2
  | MOp_Register name h => (on_wrapper name (RegisterPluginHandler h) s).1.2
  | MOp_Acquire name => (acquire name s).1.2
  | MOp_Release name x => (release name x s).1.2
  end.

Definition run_manager_ops (env : Env) (ops : list ManagerOp) (s : World) : World :=
  fold_left (run_manager_op env) ops s.

(** The configurations handed to the manager carry Go [int]s. *)
Definition manager_op_typed (op : ManagerOp) : Prop :=
  match op with
  | MOp_AddOrUpdateWasm c => GoInt.is_int (InstanceNum c)
  | _ => True
  end.

(** * Proofs *)

(** ** Machine integers *)

Lemma int32_id z : GoInt.is_int32 z -> GoInt.int32 z = z.
Proof.
  unfold GoInt.is_int32, GoInt.MinInt32, GoInt.MaxInt32, GoInt.int32, GoInt.wrap.
  intros H.
  change (2 ^ (32 - 1)) with 2147483648. change (2 ^ 32) with 4294967296.
  rewrite Z.mod_small by lia. lia.
Qed.

Lemma int_id z : GoInt.is_int z -> GoInt.int z = z.
Proof.
  unfold GoInt.is_int, GoInt.MinInt, GoInt.MaxInt, GoInt.int, GoInt.wrap.
  intros H.
  change (2 ^ (64 - 1)) with 9223372036854775808.
  change (2 ^ 64) with 18446744073709551616.
  rewrite Z.mod_small by lia. lia.
Qed.

Lemma int32_overflow : GoInt.int32 (GoInt.MaxInt32 + 1) = GoInt.MinInt32.
Proof. reflexivity. Qed.

(** ** The instance pool *)

(** An acquisition moves the cursor and the occupancy only. *)
Lemma GetInstance_keeps_pool w :
  match GetInstance w with
  | Ret (_, w') =>
      instanceNum w' = instanceNum w /\ instanceWrappers w' = instanceWrappers w
  | Panic _ => True
  end.
Proof.
  unfold GetInstance.
  destruct (_ =? 0); [done |]. destruct (_ <? 0); [done |].
  by destruct (_ !! _).
Qed.

Section PoolFacts.
Context (env : Env).

Lemma createInstances_acc m n : forall k acc,
  exists new, createInstances env m n k acc = (acc ++ new, (k + n)%nat) /\
              (length new <= n)%nat.
Proof.
  induction n as [|n IH]; intros k acc; simpl.
  - exists []. rewrite app_nil_r, Nat.add_0_r. split; [done | simpl; lia].
  - destruct (NewInstance_ok env m k).
    + destruct (IH (S k) (acc ++ [{| WasmInstance_of := k |}])) as (new & -> & Hl).
      exists ({| WasmInstance_of := k |} :: new).
      rewrite <- app_assoc. simpl. split; [f_equal; lia | lia].
    + destruct (IH (S k) acc) as (new & -> & Hl).
      exists new. split; [f_equal; lia | lia].
Qed.

(** What [EnsureInstanceNum] returns is the stored count. *)
Lemma EnsureInstanceNum_returns w k num :
  (EnsureInstanceNum env w k num).2 = instanceNum (EnsureInstanceNum env w k num).1.1.
Proof.
  unfold EnsureInstanceNum.
  destruct ((num <=? 0) || (num =? instanceNum w)); [done |].
  destruct (num <? instanceNum w); [done |].
  destruct (createInstances _ _ _ _ _); done.
Qed.

Lemma EnsureInstanceNum_noop w k num :
  num <= 0 \/ num = instanceNum w ->
  EnsureInstanceNum env w k num = (w, k, instanceNum w).
Proof.
  intros H. unfold EnsureInstanceNum.
  assert ((num <=? 0) || (num =? instanceNum w) = true) as ->; [| done].
  apply orb_true_iff. destruct H; [left; lia | right; lia].
Qed.

Lemma EnsureInstanceNum_inv w k num :
  pool_inv w -> GoInt.is_int num ->
  pool_inv (EnsureInstanceNum env w k num).1.1.
Proof.
  intros [Hlen Hint] Hnum. unfold EnsureInstanceNum.
  destruct ((num <=? 0) || (num =? instanceNum w)) eqn:E1; [done |].
  apply orb_false_iff in E1 as [E1 E2].
  destruct (num <? instanceNum w) eqn:E3; simpl.
  - split; [| done]. simpl. rewrite length_take. lia.
  - rewrite int_id by (unfold GoInt.is_int, GoInt.MinInt, GoInt.MaxInt in *; lia).
    destruct (createInstances_acc (module w) (Z.to_nat (num - instanceNum w)) k [])
      as (new & -> & Hl).
    simpl. unfold pool_inv; simpl.
    rewrite int_id by (unfold GoInt.is_int, GoInt.MinInt, GoInt.MaxInt in *; lia).
    rewrite length_app. split; [lia |].
    unfold GoInt.is_int, GoInt.MinInt, GoInt.MaxInt in *; lia.
Qed.

(** One acquisition with a non-negative cursor on a non-empty pool. *)
Lemma GetInstance_ok w :
  instanceWrappers w <> [] ->
  0 <= instanceWrappersIdx w ->
  exists x,
    instanceWrappers w
      !! Z.to_nat (instanceWrappersIdx w `mod` Z.of_nat (length (instanceWrappers w)))
      = Some x /\
    GetInstance w =
      Ret (x, set_cursor w (GoInt.int32 (instanceWrappersIdx w + 1))
                           (GoInt.int32 (occupy w + 1))).
Proof.
  intros Hne Hidx. unfold GetInstance.
  assert (0 < Z.of_nat (length (instanceWrappers w))) as Hlen.
  { destruct (instanceWrappers w); [done | simpl; lia]. }
  destruct (Z.eqb_spec (Z.of_nat (length (instanceWrappers w))) 0) as [E|_]; [lia |].
  rewrite Z.rem_mod_nonneg by lia.
  pose proof (Z.mod_pos_bound (instanceWrappersIdx w) _ Hlen) as Hb.
  destruct (Z.ltb_spec (instanceWrappersIdx w `mod` Z.of_nat (length (instanceWrappers w))) 0)
    as [E|_]; [lia |].
  destruct (lookup_lt_is_Some_2 (instanceWrappers w)
              (Z.to_nat (instanceWrappersIdx w `mod` Z.of_nat (length (instanceWrappers w)))))
    as [x Hx]; [lia |].
  exists x. by rewrite Hx.
Qed.

(** [n] acquisitions in a row, while the cursor has room: the [i]-th one
    returns the instance at position [(cursor + i) mod len]; the pool
    itself is not touched. *)
Lemma GetInstances_lookup n : forall w,
  instanceWrappers w <> [] ->
  cursor_room w n ->
  exists res w',
    GetInstances n w = Ret (res, w') /\
    instanceWrappers w' = instanceWrappers w /\
    instanceNum w' = instanceNum w /\
    length res = n /\
    forall i, (i < n)%nat ->
      res !! i =
      instanceWrappers w
        !! Z.to_nat ((instanceWrappersIdx w + Z.of_nat i)
                       `mod` Z.of_nat (length (instanceWrappers w))).
Proof.
  induction n as [|n IH]; intros w Hne [H0 Hmax]; simpl.
  - exists [], w. repeat split; try done. intros i Hi; lia.
  - destruct (GetInstance_ok w Hne H0) as (x & Hx & ->).
    set (w1 := set_cursor w _ _).
    destruct n as [|n].
    + simpl. exists [x], w1. repeat split; try done.
      intros [|i] Hi; [| lia]. simpl. by rewrite Z.add_0_r.
    + assert (instanceWrappersIdx w1 = instanceWrappersIdx w + 1) as Hc.
      { subst w1; simpl. apply int32_id.
        unfold GoInt.is_int32, GoInt.MinInt32, GoInt.MaxInt32 in *. lia. }
      destruct (IH w1) as (res & w' & -> & Hl & Hn & Hlen & Hres).
      { done. }
      { split; [lia |]. rewrite Hc. lia. }
      exists (x :: res), w'. repeat split; try done.
      * simpl. by rewrite Hlen.
      * intros [|i] Hi; simpl.
        -- by rewrite Z.add_0_r.
        -- rewrite Hres by lia. rewrite Hc. simpl instanceWrappers.
           do 3 f_equal. lia.
Qed.

(** The round-robin law: as many acquisitions as there are instances
    return the pool rotated by the cursor, hence every instance once. *)
Lemma round_robin w :
  instanceWrappers w <> [] ->
  cursor_room w (length (instanceWrappers w)) ->
  exists w',
    GetInstances (length (instanceWrappers w)) w =
      Ret (rotate (Z.to_nat (instanceWrappersIdx w)) (instanceWrappers w), w') /\
    instanceWrappers w' = instanceWrappers w.
Proof.
  intros Hne Hroom.
  destruct (GetInstances_lookup _ w Hne Hroom) as (res & w' & -> & Hl & _ & Hlen & Hres).
  exists w'. split; [| done]. do 2 f_equal.
  apply list_eq. intros i.
  destruct (decide (i < length (instanceWrappers w))%nat) as [Hi|Hi].
  - rewrite Hres, lookup_rotate_r by done. unfold rotate_nat_add.
    destruct Hroom as [H0 _]. by rewrite Z2Nat.id.
  - rewrite !lookup_ge_None_2; [done | rewrite length_rotate; lia | lia].
Qed.

Lemma rotate_Permutation {A} n (l : list A) : Permutation (rotate n l) l.
Proof.
  unfold rotate. rewrite Permutation_app_comm. by rewrite take_drop.
Qed.

(** While the cursor stays below [MaxInt32] it counts the acquisitions. *)
Lemma GetInstances_cursor n : forall w,
  instanceWrappers w <> [] ->
  0 <= instanceWrappersIdx w ->
  instanceWrappersIdx w + Z.of_nat n <= GoInt.MaxInt32 ->
  exists res w',
    GetInstances n w = Ret (res, w') /\
    instanceWrappers w' = instanceWrappers w /\
    instanceWrappersIdx w' = instanceWrappersIdx w + Z.of_nat n.
Proof.
  induction n as [|n IH]; intros w Hne H0 Hmax; simpl.
  - exists [], w. repeat split; try done. lia.
  - destruct (GetInstance_ok w Hne H0) as (x & Hx & ->).
    set (w1 := set_cursor w _ _).
    assert (instanceWrappersIdx w1 = instanceWrappersIdx w + 1) as Hc.
    { subst w1; simpl. apply int32_id.
      unfold GoInt.is_int32, GoInt.MinInt32, GoInt.MaxInt32 in *. lia. }
    destruct (IH w1) as (res & w' & -> & Hl & Hi); [done | lia | lia |].
    exists (x :: res), w'. repeat split; try done. lia.
Qed.

End PoolFacts.

(** A pool whose cursor has room obeys the round-robin law after a resize
    that reached its target: the pool has [num] instances and [num]
    acquisitions return each of them once. *)
Lemma round_robin_after_EnsureInstanceNum env w k num w' k' :
  pool_inv w -> GoInt.is_int num -> 1 <= num ->
  EnsureInstanceNum env w k num = (w', k', num) ->
  cursor_room w' (Z.to_nat num) ->
  length (instanceWrappers w') = Z.to_nat num /\
  exists res w'',
    GetInstances (Z.to_nat num) w' = Ret (res, w'') /\
    Permutation res (instanceWrappers w') /\
    instanceWrappers w'' = instanceWrappers w'.
Proof.
  intros Hinv Hnum H1 HE Hroom.
  pose proof (EnsureInstanceNum_inv env w k num Hinv Hnum) as [Hlen _].
  pose proof (EnsureInstanceNum_returns env w k num) as Hret.
  rewrite HE in Hlen, Hret. simpl in Hlen, Hret.
  assert (length (instanceWrappers w') = Z.to_nat num) as Hl by lia.
  split; [done |].
  rewrite <- Hl in *.
  destruct (round_robin w') as (w'' & -> & Hsame); [| done |].
  { destruct (instanceWrappers w'); [simpl in *; lia | done]. }
  eexists _, w''. split; [done |]. split; [apply rotate_Permutation | done].
Qed.

(** The state in which the law breaks is reached by use alone: after
    [MaxInt32] acquisitions on a fresh pool the cursor is [MaxInt32]. *)
Lemma cursor_reaches_MaxInt32 l :
  l <> [] ->
  exists res w',
    GetInstances (Z.to_nat GoInt.MaxInt32) (pool l 0) = Ret (res, w') /\
    instanceWrappers w' = l /\
    instanceWrappersIdx w' = GoInt.MaxInt32.
Proof.
  intros Hne.
  destruct (GetInstances_cursor (Z.to_nat GoInt.MaxInt32) (pool l 0))
    as (res & w' & H & Hl & Hc); [done | simpl; lia | simpl |].
  { rewrite Z2Nat.id by (unfold GoInt.MaxInt32; lia). lia. }
  exists res, w'. split; [done |]. split; [done |].
  rewrite Hc. simpl. rewrite Z2Nat.id by (unfold GoInt.MaxInt32; lia). lia.
Qed.

(** C1 (the code departs from the stated property).  Round-robin law: after
    [EnsureInstanceNum(N)] returned [N], [N] acquisitions visit every
    instance once.  The cursor is an [int32] that is incremented without
    bound check: on a pool of three instances whose cursor is [MaxInt32],
    [EnsureInstanceNum(3)] returns 3, the first acquisition returns the
    instance at position 1 and wraps the cursor to [MinInt32], and the second
    one indexes the slice at -2 and panics. *)
Theorem C1_cursor_overflow :
  let w := pool [iw 0; iw 1; iw 2] GoInt.MaxInt32 in
  pool_inv w /\
  EnsureInstanceNum env_ok w 0 3 = (w, 0%nat, 3) /\
  (exists w1,
     GetInstance w = Ret (iw 1, w1) /\
     instanceWrappersIdx w1 = GoInt.MinInt32 /\
     Z.rem (instanceWrappersIdx w1) 3 = -2 /\
     GetInstance w1 = Panic "index out of range") /\
  GetInstances 3 w = Panic "index out of range".
Proof.
  cbv zeta. split.
  { split; [reflexivity |]. unfold GoInt.is_int, GoInt.MinInt, GoInt.MaxInt. simpl. lia. }
  split; [reflexivity |].
  split; [| vm_compute; reflexivity].
  eexists. split; [vm_compute; reflexivity |].
  repeat split; vm_compute; reflexivity.
Qed.

(** C2, counterexample to the property as it is stated.
    Idempotence fails when a best-effort growth fell short:
    the engine refuses the first instantiation only; the first
    [EnsureInstanceNum(2)] on a pool of one returns 1, the second one
    creates the missing instance and returns 2. *)
Lemma C2_counterexample :
  pool_inv (pool [iw 5] 0) /\
  EnsureInstanceNum env_flaky (pool [iw 5] 0) 0 2 = (pool [iw 5] 0, 1%nat, 1) /\
  (EnsureInstanceNum env_flaky (pool [iw 5] 0) 1 2).2 = 2 /\
  ~ EnsureInstanceNum_twice_same env_flaky (pool [iw 5] 0) 0 2.
Proof.
  split.
  { split; [reflexivity |]. unfold GoInt.is_int, GoInt.MinInt, GoInt.MaxInt. simpl. lia. }
  split; [vm_compute; reflexivity |].
  split; [vm_compute; reflexivity |].
  unfold EnsureInstanceNum_twice_same.
  replace (EnsureInstanceNum env_flaky (pool [iw 5] 0) 0 2)
    with (pool [iw 5] 0, 1%nat, 1) by (vm_compute; reflexivity).
  intros H. apply (f_equal snd) in H. vm_compute in H. discriminate H.
Qed.

(** C2 (amended).  [EnsureInstanceNum(n)] with [n <= 0] or [n] equal to the
    current count changes nothing and returns the current count; and a
    second call with the same target changes nothing (neither the plugin nor
    the engine) whenever the first call returned the target or the target is
    not positive. *)
Theorem C2_noop_and_idempotence env w k num :
  (num <= 0 \/ num = instanceNum w ->
   EnsureInstanceNum env w k num = (w, k, instanceNum w)) /\
  (num <= 0 \/ (EnsureInstanceNum env w k num).2 = num ->
   EnsureInstanceNum_twice_same env w k num).
Proof.
  split; [apply EnsureInstanceNum_noop |].
  intros H. unfold EnsureInstanceNum_twice_same.
  pose proof (EnsureInstanceNum_returns env w k num) as Hret.
  destruct (EnsureInstanceNum env w k num) as [[w1 k1] r1] eqn:E.
  simpl in *. subst r1.
  apply EnsureInstanceNum_noop. destruct H as [H|H]; [by left | right; lia].
Qed.

(** C2 (amended), an instance: a target that is met. *)
Lemma C2_witness :
  EnsureInstanceNum env_ok (pool [iw 0; iw 1] 0) 0 2 = (pool [iw 0; iw 1] 0, 0%nat, 2) /\
  EnsureInstanceNum_twice_same env_ok (pool [iw 0] 0) 0 2.
Proof.
  split.
  - apply (proj1 (C2_noop_and_idempotence env_ok (pool [iw 0; iw 1] 0) 0 2)).
    right. reflexivity.
  - apply (proj2 (C2_noop_and_idempotence env_ok (pool [iw 0] 0) 0 2)).
    right. reflexivity.
Defined.

(** ** Running the computations of the manager *)

(** The operations of the monad unfold as soon as they are run on a state. *)
Arguments bind {S A B} m f s /.
Arguments ret {S A} a s /.
Arguments panic {S A} msg s /.
Arguments emit {S} e s /.
Arguments get {S} s /.
Arguments put {S} s' _ /.
Arguments alloc impl s /.
Arguments LoadOrStore key v s /.
Arguments GetPlugin s /.
Arguments GetConfig s /.
Arguments store_config c s /.
Arguments store_plugin p s /.
Arguments store_handlers l s /.
Arguments plugin_Clear {S} p s /.
Arguments plugin_SetCpuLimit p cpu s /.
Arguments plugin_SetMemLimit p mem s /.
Arguments plugin_EnsureInstanceNum env p num s /.

(** [run_m] runs the operations of the monad only, [run_go] also the methods
    built from them. *)
Ltac run_m := cbn [bind ret panic emit get put fst snd app].

Ltac run_go := cbn [bind ret panic emit get put alloc LoadOrStore
  GetPlugin GetConfig store_config store_plugin store_handlers plugin_Clear
  plugin_SetCpuLimit plugin_SetMemLimit plugin_EnsureInstanceNum
  heap next_ref attempts pluginMap set_pluginMap fst snd app
  PluginName InstanceNum VmConfig with_InstanceNum
  pw_plugin pw_config pluginHandlers].

Ltac in_list :=
  repeat first [apply list_elem_of_here | apply list_elem_of_further].

Section NewPluginFacts.
Context (env : Env).

Lemma NewWasmPlugin_cases c s :
  exists o s' t,
    NewWasmPlugin env c s = (o, s', Ev_NewWasmPlugin c :: t) /\
    pluginMap s' = pluginMap s.
Proof.
  unfold NewWasmPlugin. run_go.
  destruct (VmConfig c) as [v|]; run_go; [| eauto].
  destruct (GetWasmEngine env (Engine v)) as [e|]; run_go; [| eauto].
  case_decide; run_go; [eauto |].
  destruct (NewModule env e _) as [m|]; run_go; [| eauto].
  destruct s as [h nr k pm]; run_go.
  rewrite lookup_insert_eq.
  destruct (EnsureInstanceNum _ _ _ _) as [[w' k'] a] eqn:E. run_go.
  destruct (a =? 0); run_go; eauto.
Qed.

(** Every way [NewWasmPlugin] can end.  It never touches the registry nor
    a plugin that exists already; it panics on a nil [VmConfig] only; an
    error comes with a nil plugin; on success the plugin is a new object
    whose pool obeys the invariant and holds at least one instance. *)
Lemma NewWasmPlugin_inv c s o s' t :
  NewWasmPlugin env c s = (o, s', t) ->
  pluginMap s' = pluginMap s /\
  (forall r, r <> next_ref s -> heap s' !! r = heap s !! r) /\
  (next_ref s <= next_ref s')%nat /\
  match o with
  | Panic _ => VmConfig c = None
  | Ret (p, Some e) => p = None /\ e ∈ construction_errors
  | Ret (p, None) =>
      p = Some (next_ref s) /\
      (GoInt.is_int (InstanceNum c) -> GoInt.is_int (NumCPU env) ->
       exists impl,
         heap s' !! next_ref s = Some impl /\ pool_inv impl /\
         1 <= instanceNum impl)
  end.
Proof.
  unfold NewWasmPlugin, construction_errors. run_go.
  destruct (VmConfig c) as [v|]; run_go;
    [| intros [= <- <- <-]; repeat split; auto].
  destruct (GetWasmEngine env (Engine v)) as [e|]; run_go;
    [| intros [= <- <- <-]; repeat split; auto; in_list].
  case_decide; run_go; [intros [= <- <- <-]; repeat split; auto; in_list |].
  destruct (NewModule env e _) as [m|]; run_go;
    [| intros [= <- <- <-]; repeat split; auto; in_list].
  destruct s as [h nr k pm]; run_go.
  rewrite lookup_insert_eq.
  match goal with
  | |- context [EnsureInstanceNum env ?w0 k ?n] =>
      pose proof (EnsureInstanceNum_inv env w0 k n) as Hinv;
      pose proof (EnsureInstanceNum_returns env w0 k n) as Hret;
      destruct (EnsureInstanceNum env w0 k n) as [[w' k'] a]
  end.
  run_go. simpl in Hinv, Hret.
  assert (forall r, r <> nr ->
            <[nr:=w']> (<[nr:={| config := with_InstanceNum c
                                   (if InstanceNum c <=? 0 then NumCPU env
                                    else InstanceNum c);
                                 instanceNum := 0; instanceWrappers := [];
                                 instanceWrappersIdx := 0; occupy := 0;
                                 vm := e;
                                 wasmBytes :=
                                   if decide (Path v <> "")
                                   then loadWasmBytesFromPath env (Path v)
                                   else loadWasmBytesFromUrl env (Url v);
                                 module := m |}]> h) !! r = h !! r) as Hother.
  { intros r Hr. by rewrite !lookup_insert_ne. }
  destruct (Z.eqb_spec a 0) as [Ha|Ha]; run_go; intros [= <- <- <-].
  - repeat split; auto; try (simpl; lia). in_list.
  - repeat split; auto; try (simpl; lia). intros Hc Hn.
    exists w'. simpl. rewrite lookup_insert_eq. split; [done |].
    destruct Hinv as [Hlen Hint].
    + split; [reflexivity |].
      unfold GoInt.is_int, GoInt.MinInt, GoInt.MaxInt. simpl. lia.
    + by destruct (InstanceNum c <=? 0).
    + split; [done |]. lia.
Qed.

End NewPluginFacts.

(** C3.  The plugin invariant: whatever [EnsureInstanceNum] does (nothing,
    shrink, or best-effort growth with failed creations) the length of the
    instance list equals the stored count afterwards, which is also the
    returned value; and a plugin that [NewWasmPlugin] returned with a nil
    error obeys the invariant and has at least one instance.  The
    invariant then holds after any sequence of calls on the plugin. *)
Theorem C3_plugin_invariant env :
  (forall w k num,
     pool_inv w -> GoInt.is_int num ->
     pool_inv (EnsureInstanceNum env w k num).1.1 /\
     (EnsureInstanceNum env w k num).2 =
       Z.of_nat (length (instanceWrappers (EnsureInstanceNum env w k num).1.1))) /\
  (forall c s p s' t,
     GoInt.is_int (InstanceNum c) -> GoInt.is_int (NumCPU env) ->
     NewWasmPlugin env c s = (Ret (p, None), s', t) ->
     exists r impl,
       p = Some r /\ heap s' !! r = Some impl /\ pool_inv impl /\
       1 <= instanceNum impl) /\
  (forall ops w k,
     pool_inv w -> Forall pool_op_typed ops ->
     pool_inv (run_pool_ops env ops (w, k)).1).
Proof.
  split; [| split].
  - intros w k num Hinv Hnum.
    pose proof (EnsureInstanceNum_inv env w k num Hinv Hnum) as Hinv'.
    split; [done |]. rewrite EnsureInstanceNum_returns. apply Hinv'.
  - intros c s p s' t Hc Hn H.
    apply NewWasmPlugin_inv in H as (_ & _ & _ & -> & H).
    destruct (H Hc Hn) as (impl & ? & ? & ?). eauto 10.
  - intros ops. unfold run_pool_ops.
    induction ops as [|op ops IH]; intros w k Hinv Hops; simpl; [done |].
    apply Forall_cons in Hops as [Hop Hops].
    destruct (run_pool_op env (w, k) op) as [w1 k1] eqn:E.
    apply IH; [| done].
    destruct op as [num| |x]; simpl in E.
    + pose proof (EnsureInstanceNum_inv env w k num Hinv Hop) as Hinv'.
      by rewrite E in Hinv'.
    + pose proof (GetInstance_keeps_pool w) as Hg.
      destruct (GetInstance w) as [[y w']|msg]; injection E as <- <-; [| done].
      destruct Hinv as [Hl Hi]. destruct Hg as [Hg1 Hg2].
      split; [by rewrite Hg1, Hg2 | by rewrite Hg1].
    + by injection E as <- <-.
Qed.

(** C3, an instance: a growth that falls short, a construction, and a
    sequence of calls. *)
Lemma C3_witness :
  pool_inv (EnsureInstanceNum env_flaky (pool [iw 5] 0) 0 3).1.1 /\
  (exists r impl,
     (NewWasmPlugin env_ok cfg_p world0).1.1 = Ret (Some r, None) /\
     pool_inv impl /\ 1 <= instanceNum impl) /\
  pool_inv (run_pool_ops env_flaky
              [PoolOp_EnsureInstanceNum 4; PoolOp_GetInstance;
               PoolOp_EnsureInstanceNum 2; PoolOp_ReleaseInstance (iw 5)]
              (pool [iw 5] 0, 0%nat)).1.
Proof.
  assert (GoInt.is_int 2) as H2
    by (unfold GoInt.is_int, GoInt.MinInt, GoInt.MaxInt; lia).
  assert (GoInt.is_int 3) as H3
    by (unfold GoInt.is_int, GoInt.MinInt, GoInt.MaxInt; lia).
  assert (GoInt.is_int 4) as H4
    by (unfold GoInt.is_int, GoInt.MinInt, GoInt.MaxInt; lia).
  assert (pool_inv (pool [iw 5] 0)) as Hp.
  { split; [reflexivity |].
    unfold GoInt.is_int, GoInt.MinInt, GoInt.MaxInt. simpl. lia. }
  split; [| split].
  - apply (proj1 (C3_plugin_invariant env_flaky) (pool [iw 5] 0) 0%nat 3 Hp H3).
  - destruct (NewWasmPlugin env_ok cfg_p world0) as [[o s'] t] eqn:E.
    assert (o = Ret (Some 0%nat, None)) as ->.
    { apply (f_equal (fun x => x.1.1)) in E. simpl in E. rewrite <- E.
      vm_compute. reflexivity. }
    destruct (proj1 (proj2 (C3_plugin_invariant env_ok)) cfg_p world0
                _ _ _ H2 H4 E) as (r & impl & [= <-] & _ & Hinv & Hn).
    exists 0%nat, impl. done.
  - apply (proj2 (proj2 (C3_plugin_invariant env_flaky))); [exact Hp |].
    apply Forall_cons_2; [exact H4 |]. apply Forall_cons_2; [exact I |].
    apply Forall_cons_2; [exact H2 |]. apply Forall_cons_2; [exact I |].
    apply Forall_nil_2.
Defined.

(** ** The plugin wrapper *)

Lemma for_range_emit {S A} (f : A -> Event) (l : list A) (s : S) :
  for_range l (fun x => emit (f x)) s = (Ret tt, s, map f l).
Proof.
  induction l as [|x l IH]; simpl; [done |]. by rewrite IH.
Qed.

(** The three ways [Update] runs. *)
Lemma Update_rejected w config plugin :
  PluginName config = "" \/ PluginName config <> PluginName (pw_config w) ->
  Update config plugin w = (Ret tt, w, []).
Proof.
  intros H. unfold Update. run_go. by rewrite decide_True.
Qed.

Lemma Update_config_only w config plugin :
  PluginName config <> "" -> PluginName config = PluginName (pw_config w) ->
  plugin = None \/ plugin = pw_plugin w ->
  Update config plugin w =
    (Ret tt, with_config w config,
     map (fun h => Ev_OnConfigUpdate h config) (pluginHandlers w)
       ++ [Ev_StoreConfig config]).
Proof.
  intros Hne Heq Hp. unfold Update. run_go.
  rewrite decide_False by tauto. run_go.
  rewrite for_range_emit. run_go.
  case_decide; run_go.
  - done.
  - destruct Hp as [Hp|Hp]; [done |].
    rewrite decide_True by done. run_go. done.
Qed.

Lemma Update_swap w config plugin :
  PluginName config <> "" -> PluginName config = PluginName (pw_config w) ->
  plugin <> None -> plugin <> pw_plugin w ->
  Update config plugin w =
    (match pw_plugin w with Some _ => Ret tt | None => Panic "nil pointer dereference" end,
     with_plugin (with_config w config) plugin,
     (map (fun h => Ev_OnConfigUpdate h config) (pluginHandlers w)
        ++ [Ev_StoreConfig config])
     ++ map (fun h => Ev_OnPluginStart h plugin) (pluginHandlers w)
     ++ [Ev_StorePlugin plugin]
     ++ map (fun h => Ev_OnPluginDestroy h (pw_plugin w)) (pluginHandlers w)
     ++ match pw_plugin w with Some old => [Ev_Clear old] | None => [] end).
Proof.
  intros Hne Heq Hn Hp. unfold Update. run_go.
  rewrite decide_False by tauto. run_go.
  rewrite for_range_emit. run_go.
  rewrite decide_False by done. run_go.
  rewrite decide_False by done. run_go.
  rewrite !for_range_emit. run_go.
  unfold with_plugin, with_config.
  destruct (pw_plugin w); run_go; simpl;
    rewrite <- ?app_assoc; simpl; by rewrite ?app_nil_r.
Qed.

(** Ordering in a trace cut in two. *)
Lemma precedes_app (P Q : Event -> Prop) (l1 l2 : list Event) :
  Forall (fun e => ~ Q e) l1 -> Forall (fun e => ~ P e) l2 ->
  precedes P Q (l1 ++ l2).
Proof.
  intros H1 H2 i j e1 e2 Hi Hj HP HQ.
  rewrite Forall_lookup in H1. rewrite Forall_lookup in H2.
  destruct (decide (i < length l1)%nat) as [Hil|Hil].
  - destruct (decide (j < length l1)%nat) as [Hjl|Hjl]; [| lia].
    rewrite lookup_app_l in Hj by done. destruct (H1 _ _ Hj HQ).
  - rewrite lookup_app_r in Hi by lia. destruct (H2 _ _ Hi HP).
Qed.

Lemma Forall_map_intro {A} (P : Event -> Prop) (f : A -> Event) (l : list A) :
  (forall x, P (f x)) -> Forall P (map f l).
Proof. intros H. induction l; simpl; constructor; auto. Qed.

Ltac other_event :=
  unfold is_start, is_destroy;
  first [ intros [? ?]; discriminate | intros ?; discriminate ].

Ltac all_other :=
  repeat first
    [ apply Forall_nil_2
    | apply Forall_cons_2; [other_event |]
    | apply Forall_app_2
    | apply Forall_map_intro; intros ?; other_event ].

(** C4.  On a plugin swap (the new plugin is not nil and is not the current
    one) [Update] returns, the new plugin is current, every registered
    observer is told [OnPluginStart(new)] and [OnPluginDestroy(old)], every
    start notification comes before the new plugin is stored, the store
    comes before every destroy notification, hence start before destroy, and
    [old.Clear()] comes after all destroy notifications. *)
Theorem C4_swap_ordering w config new old :
  PluginName config <> "" ->
  PluginName config = PluginName (pw_config w) ->
  pw_plugin w = Some old ->
  new <> old ->
  let r := Update config (Some new) w in
  r.1.1 = Ret tt /\
  pw_plugin r.1.2 = Some new /\
  (forall h, h ∈ pluginHandlers w ->
     Ev_OnPluginStart h (Some new) ∈ r.2 /\
     Ev_OnPluginDestroy h (Some old) ∈ r.2) /\
  Ev_StorePlugin (Some new) ∈ r.2 /\
  Ev_Clear old ∈ r.2 /\
  precedes (is_start (Some new)) (eq (Ev_StorePlugin (Some new))) r.2 /\
  precedes (eq (Ev_StorePlugin (Some new))) (is_destroy (Some old)) r.2 /\
  precedes (is_start (Some new)) (is_destroy (Some old)) r.2 /\
  precedes (is_destroy (Some old)) (eq (Ev_Clear old)) r.2.
Proof.
  intros Hne Heq Hold Hdiff. cbv zeta.
  rewrite Update_swap; [| done | done | done | rewrite Hold; congruence].
  rewrite Hold. cbn [fst snd].
  set (A := map (fun h => Ev_OnConfigUpdate h config) (pluginHandlers w)
              ++ [Ev_StoreConfig config]).
  set (B := map (fun h => Ev_OnPluginStart h (Some new)) (pluginHandlers w)).
  set (D := map (fun h => Ev_OnPluginDestroy h (Some old)) (pluginHandlers w)).
  split; [done |]. split; [done |].
  split.
  { intros h Hh. apply list_elem_of_In in Hh.
    split; apply list_elem_of_In; rewrite !in_app_iff.
    - right. left. apply in_map_iff. eauto.
    - right. right. right. left. apply in_map_iff. eauto. }
  split.
  { apply list_elem_of_In. rewrite !in_app_iff. simpl. tauto. }
  split.
  { apply list_elem_of_In. rewrite !in_app_iff. simpl. tauto. }
  split.
  { rewrite (app_assoc A B). apply precedes_app; subst A B D; all_other. }
  split.
  { rewrite (app_assoc A B), (app_assoc (A ++ B) [_]).
    apply precedes_app; subst A B D; all_other. }
  split.
  { rewrite (app_assoc A B). apply precedes_app; subst A B D; all_other. }
  rewrite (app_assoc A B), (app_assoc (A ++ B) [_]), (app_assoc ((A ++ B) ++ [_]) D).
  apply precedes_app; subst A B D; all_other.
Qed.

(** C4, an instance: two observers, plugin 0 replaced by plugin 1. *)
Lemma C4_witness :
  let r := Update (cfg "p" 3 (Some (vm_cfg "wasmer" "/a.wasm"))) (Some 1%nat)
             (wrapper "p" (Some 0%nat) [10%nat; 11%nat]) in
  r.1.1 = Ret tt /\
  precedes (is_start (Some 1%nat)) (is_destroy (Some 0%nat)) r.2 /\
  precedes (is_destroy (Some 0%nat)) (eq (Ev_Clear 0%nat)) r.2.
Proof.
  pose proof (C4_swap_ordering (wrapper "p" (Some 0%nat) [10%nat; 11%nat])
                (cfg "p" 3 (Some (vm_cfg "wasmer" "/a.wasm"))) 1%nat 0%nat
                ltac:(discriminate) ltac:(reflexivity) ltac:(reflexivity)
                ltac:(discriminate)) as H.
  cbv zeta in *. tauto.
Defined.

Lemma Update_keeps_name w config plugin :
  PluginName (pw_config (Update config plugin w).1.2) = PluginName (pw_config w).
Proof.
  destruct (decide (PluginName config = "" \/
                    PluginName config <> PluginName (pw_config w))) as [Hr|Hr].
  - by rewrite Update_rejected.
  - assert (PluginName config <> "") as Hne by tauto.
    assert (PluginName config = PluginName (pw_config w)) as Heq.
    { destruct (decide (PluginName config = PluginName (pw_config w))); tauto. }
    destruct (decide (plugin = None \/ plugin = pw_plugin w)) as [Hp|Hp].
    + by rewrite Update_config_only.
    + rewrite Update_swap by tauto. done.
Qed.

Lemma run_op_keeps_name op w :
  PluginName (pw_config (run_op op w)) = PluginName (pw_config w).
Proof.
  destruct op as [[h|]| | |c p]; try done.
  apply Update_keeps_name.
Qed.

(** C5.  An [Update] whose configuration has an empty name, or a name other
    than the wrapper's, does nothing at all: no notification, same
    configuration, same plugin.  Hence no [Update], and no sequence of calls
    on the wrapper, ever changes the name in the wrapper's configuration. *)
Theorem C5_name_immutable w config plugin :
  (PluginName config = "" \/ PluginName config <> PluginName (pw_config w) ->
   Update config plugin w = (Ret tt, w, [])) /\
  PluginName (pw_config (Update config plugin w).1.2) = PluginName (pw_config w) /\
  (forall ops, PluginName (pw_config (run_ops ops w)) = PluginName (pw_config w)).
Proof.
  split; [apply Update_rejected |].
  split; [apply Update_keeps_name |].
  intros ops. unfold run_ops. revert w.
  induction ops as [|op ops IH]; intros w; simpl; [done |].
  rewrite IH. apply run_op_keeps_name.
Qed.

(** C5, an instance: an update under another name. *)
Lemma C5_witness :
  Update (cfg "q" 3 (Some (vm_cfg "wasmer" "/b.wasm"))) (Some 1%nat)
    (wrapper "p" (Some 0%nat) [10%nat])
  = (Ret tt, wrapper "p" (Some 0%nat) [10%nat], []).
Proof.
  apply (proj1 (C5_name_immutable (wrapper "p" (Some 0%nat) [10%nat])
                  (cfg "q" 3 (Some (vm_cfg "wasmer" "/b.wasm"))) (Some 1%nat))).
  right. discriminate.
Defined.

(** ** The plugin manager *)

Section ManagerFacts.
Context (env : Env).

Lemma set_pluginMap_id s key pw :
  pluginMap s !! key = Some (E_pluginWrapper pw) ->
  set_pluginMap s (<[key := E_pluginWrapper pw]> (pluginMap s)) = s.
Proof.
  intros H. destruct s as [h nr k pm]. unfold set_pluginMap. simpl in *.
  by rewrite insert_id.
Qed.

Lemma on_wrapper_run {A} key (m : M pluginWrapper A) s pw :
  pluginMap s !! key = Some (E_pluginWrapper pw) ->
  on_wrapper key m s =
    ((m pw).1.1,
     set_pluginMap s (<[key := E_pluginWrapper (m pw).1.2]> (pluginMap s)),
    (m pw).2).
Proof.
  intros H. unfold on_wrapper. rewrite H. by destruct (m pw) as [[o pw'] t].
Qed.

Lemma on_wrapper_GetConfig key s pw :
  pluginMap s !! key = Some (E_pluginWrapper pw) ->
  on_wrapper key GetConfig s = (Ret (pw_config pw), s, []).
Proof.
  intros H. rewrite (on_wrapper_run _ _ _ _ H). simpl.
  by rewrite set_pluginMap_id.
Qed.

Lemma on_wrapper_GetPlugin key s pw :
  pluginMap s !! key = Some (E_pluginWrapper pw) ->
  on_wrapper key GetPlugin s = (Ret (pw_plugin pw), s, []).
Proof.
  intros H. rewrite (on_wrapper_run _ _ _ _ H). simpl.
  by rewrite set_pluginMap_id.
Qed.

Lemma shouldCreateNewPlugin_spec newConfig oldConfig :
  shouldCreateNewPlugin newConfig oldConfig = true <->
  vm_source_changed newConfig oldConfig.
Proof.
  unfold shouldCreateNewPlugin, vm_source_changed.
  destruct (VmConfig newConfig) as [n|], (VmConfig oldConfig) as [o|].
  - case_decide; split.
    + intros _. eauto 10.
    + done.
    + done.
    + intros (n' & o' & [= <-] & [= <-] & H'). done.
  - split; [done | intros (? & ? & _ & ? & _); done].
  - split; [done | intros (? & ? & ? & _); done].
  - split; [done | intros (? & ? & ? & _); done].
Qed.

(** [updateWasm] with the configuration the wrapper holds already. *)
Lemma updateWasm_same key newConfig s pw :
  pluginMap s !! key = Some (E_pluginWrapper pw) ->
  pw_config pw = newConfig ->
  updateWasm env key newConfig s = (Ret tt, s, []).
Proof.
  intros H Hc. unfold updateWasm. run_m.
  rewrite (on_wrapper_GetConfig _ _ _ H). run_m.
  by rewrite decide_True.
Qed.

(** [updateWasm] on the rebuild path. *)
Lemma updateWasm_rebuild key newConfig s pw :
  pluginMap s !! key = Some (E_pluginWrapper pw) ->
  newConfig <> pw_config pw ->
  shouldCreateNewPlugin newConfig (pw_config pw) = true ->
  updateWasm env key newConfig s =
    match NewWasmPlugin env newConfig s with
    | (Ret (p, Some _), s1, t1) => (Ret tt, s1, t1 ++ [])
    | (Ret (p, None), s1, t1) =>
        match publish key newConfig p s1 with
        | (o, s2, t2) => (o, s2, t1 ++ t2)
        end
    | (Panic msg, s1, t1) => (Panic msg, s1, t1)
    end.
Proof.
  intros H Hd Hs. unfold updateWasm. run_m.
  rewrite (on_wrapper_GetConfig _ _ _ H). run_m.
  rewrite decide_False by done. run_m.
  rewrite (on_wrapper_GetPlugin _ _ _ H). run_m.
  rewrite (on_wrapper_GetConfig _ _ _ H). run_m.
  rewrite Hs. run_m.
  destruct (NewWasmPlugin env newConfig s) as [[[[p [e|]]|msg] s1] t1]; run_m; try done.
  by destruct (publish key newConfig p s1) as [[o s2] t2].
Qed.

(** [updateWasm] on the reuse path. *)
Lemma updateWasm_reuse key newConfig s pw :
  pluginMap s !! key = Some (E_pluginWrapper pw) ->
  newConfig <> pw_config pw ->
  shouldCreateNewPlugin newConfig (pw_config pw) = false ->
  updateWasm env key newConfig s =
    match plugin_EnsureInstanceNum env (pw_plugin pw) (InstanceNum newConfig) s with
    | (Ret actualNum, s1, t1) =>
        if actualNum =? 0 then (Ret tt, s1, t1 ++ [])
        else
          match publish key newConfig (pw_plugin pw) s1 with
          | (o, s2, t2) => (o, s2, t1 ++ t2)
          end
    | (Panic msg, s1, t1) => (Panic msg, s1, t1)
    end.
Proof.
  intros H Hd Hs. unfold updateWasm. run_m.
  rewrite (on_wrapper_GetConfig _ _ _ H). run_m.
  rewrite decide_False by done. run_m.
  rewrite (on_wrapper_GetPlugin _ _ _ H). run_m.
  rewrite (on_wrapper_GetConfig _ _ _ H). run_m.
  rewrite Hs. run_m.
  destruct (plugin_EnsureInstanceNum env (pw_plugin pw) (InstanceNum newConfig) s)
    as [[[a|msg] s1] t1]; run_m; try done.
  destruct (a =? 0); run_m; [done |].
  by destruct (publish key newConfig (pw_plugin pw) s1) as [[o s2] t2].
Qed.

End ManagerFacts.

Section AddOrUpdateFacts.
Context (env : Env).

(** How [AddOrUpdateWasm] can end, by the state of the registry. *)
Lemma AddOrUpdateWasm_outcome c s :
  match (AddOrUpdateWasm env c s).1.1 with
  | Ret (Some e) =>
      (e = ErrEmptyPluginName /\ PluginName c = "") \/
      (PluginName c <> "" /\
       ((e = ErrUnexpectedType /\
         exists tag, pluginMap s !! PluginName c = Some (E_other tag)) \/
        (e ∈ construction_errors /\ pluginMap s !! PluginName c = None)))
  | Ret None => PluginName c <> ""
  | Panic _ => PluginName c <> ""
  end.
Proof.
  unfold AddOrUpdateWasm. case_decide; run_m; [by left |].
  destruct (pluginMap s !! PluginName c) as [[pw|tag]|] eqn:E; run_m.
  - destruct (updateWasm env (PluginName c) c s) as [[[[]|msg] s1] t1]; run_m; done.
  - right. split; [done |]. left. eauto.
  - destruct (NewWasmPlugin env c s) as [[o s1] t1] eqn:EN.
    pose proof (NewWasmPlugin_inv env _ _ _ _ _ EN) as (_ & _ & _ & Ho).
    destruct o as [[p [e|]]|msg]; run_m; [| | done].
    + right. split; [done |]. right. split; [apply Ho | done].
    + run_go. destruct (pluginMap s1 !! PluginName c); run_m; done.
Qed.

(** A failed construction for a new name: the error is handed back and
    the registry is as it was. *)
Lemma AddOrUpdateWasm_construction_fails c s p e s1 t1 :
  PluginName c <> "" ->
  pluginMap s !! PluginName c = None ->
  NewWasmPlugin env c s = (Ret (p, Some e), s1, t1) ->
  AddOrUpdateWasm env c s = (Ret (Some e), s1, t1 ++ []) /\
  pluginMap s1 = pluginMap s.
Proof.
  intros Hne Hnone HN. unfold AddOrUpdateWasm.
  rewrite decide_False by done. run_m. rewrite Hnone. run_m. rewrite HN. run_m.
  split; [done |]. by apply NewWasmPlugin_inv in HN as (? & _).
Qed.

End AddOrUpdateFacts.

(** C6.  [AddOrUpdateWasm] returns the empty-plugin-name error exactly when
    the name of the configuration is empty; and for a name without registry
    entry, when the construction of the plugin fails, the error returned is
    the error of the construction (engine not found, bytes not loaded,
    module not created, no instance created) and the registry is as it
    was. *)
Theorem C6_add_errors env c s :
  ((AddOrUpdateWasm env c s).1.1 = Ret (Some ErrEmptyPluginName) <->
   PluginName c = "") /\
  (forall p e s1 t1,
     PluginName c <> "" ->
     pluginMap s !! PluginName c = None ->
     NewWasmPlugin env c s = (Ret (p, Some e), s1, t1) ->
     (AddOrUpdateWasm env c s).1.1 = Ret (Some e) /\
     e ∈ construction_errors /\
     pluginMap (AddOrUpdateWasm env c s).1.2 = pluginMap s).
Proof.
  split.
  - split.
    + intros H. pose proof (AddOrUpdateWasm_outcome env c s) as Ho.
      rewrite H in Ho. destruct Ho as [[_ ?]|[_ [[? _]|[Hin _]]]]; [done | done |].
      unfold construction_errors in Hin.
      rewrite !elem_of_cons in Hin. rewrite elem_of_nil in Hin.
      destruct Hin as [?|[?|[?|[?|[]]]]]; discriminate.
    + intros H. unfold AddOrUpdateWasm. by rewrite decide_True.
  - intros p e s1 t1 Hne Hnone HN.
    destruct (AddOrUpdateWasm_construction_fails env c s p e s1 t1 Hne Hnone HN)
      as [-> Hmap].
    split; [done |]. split; [| done].
    by apply NewWasmPlugin_inv in HN as (_ & _ & _ & _ & ?).
Qed.

(** C6, an instance: an unknown engine, and an empty name. *)
Lemma C6_witness :
  (AddOrUpdateWasm env_ok (cfg "q" 2 (Some (vm_cfg "v8" "/a.wasm"))) world_p).1.1
    = Ret (Some ErrEngineNotFound) /\
  pluginMap (AddOrUpdateWasm env_ok (cfg "q" 2 (Some (vm_cfg "v8" "/a.wasm"))) world_p).1.2
    = pluginMap world_p /\
  (AddOrUpdateWasm env_ok (cfg "" 2 (Some (vm_cfg "wasmer" "/a.wasm"))) world_p).1.1
    = Ret (Some ErrEmptyPluginName).
Proof.
  destruct (proj2 (C6_add_errors env_ok (cfg "q" 2 (Some (vm_cfg "v8" "/a.wasm"))) world_p)
              None ErrEngineNotFound world_p
              [Ev_NewWasmPlugin (cfg "q" 2 (Some (vm_cfg "v8" "/a.wasm")))])
    as (H1 & _ & H2).
  - discriminate.
  - vm_compute. reflexivity.
  - vm_compute. reflexivity.
  - split; [exact H1 |]. split; [exact H2 |].
    apply (proj1 (C6_add_errors env_ok (cfg "" 2 (Some (vm_cfg "wasmer" "/a.wasm"))) world_p)).
    reflexivity.
Defined.

(** C8.  [AddOrUpdateWasm] with a configuration equal to the one the
    wrapper registered under that name holds changes nothing: the whole
    process state (registry, wrapper, plugin, instances, cursor, occupancy,
    engine) is the same and the trace is empty, so that no plugin is built,
    no [EnsureInstanceNum] is called and no observer is told anything. *)
Theorem C8_same_config_noop env c s pw :
  pluginMap s !! PluginName c = Some (E_pluginWrapper pw) ->
  pw_config pw = c ->
  AddOrUpdateWasm env c s =
    (Ret (if decide (PluginName c = "") then Some ErrEmptyPluginName else None),
     s, []).
Proof.
  intros H Hc. unfold AddOrUpdateWasm. case_decide; run_m; [done |].
  rewrite H. run_m. by rewrite (updateWasm_same env _ _ _ _ H Hc).
Qed.

(** C8, an instance: "p" registered again with its own configuration. *)
Lemma C8_witness :
  AddOrUpdateWasm env_ok cfg_p world_p = (Ret None, world_p, []).
Proof.
  apply (C8_same_config_noop env_ok cfg_p world_p
           {| pw_plugin := Some 0%nat; pw_config := cfg_p; pluginHandlers := [] |}).
  - vm_compute. reflexivity.
  - reflexivity.
Defined.

Section UpdateFacts.
Context (env : Env).

Ltac no_build :=
  repeat first
    [ apply Forall_nil_2
    | apply Forall_cons_2; [intros [[? ?]|[? ?]]; discriminate |]
    | apply Forall_app_2
    | apply Forall_map_intro; intros ? [[? ?]|[? ?]]; discriminate ].

(** [Update] builds nothing. *)
Lemma Update_no_build w config plugin :
  Forall (fun e => ~ is_build e) (Update config plugin w).2.
Proof.
  destruct (decide (PluginName config = "" \/
                    PluginName config <> PluginName (pw_config w))) as [Hr|Hr].
  - rewrite Update_rejected by done. constructor.
  - assert (PluginName config <> "") as Hne by tauto.
    assert (PluginName config = PluginName (pw_config w)) as Heq.
    { destruct (decide (PluginName config = PluginName (pw_config w))); tauto. }
    destruct (decide (plugin = None \/ plugin = pw_plugin w)) as [Hp|Hp].
    + rewrite Update_config_only by done. cbn [snd]. no_build.
    + rewrite Update_swap by tauto. cbn [snd].
      destruct (pw_plugin w); no_build.
Qed.

(** [Update] with the plugin the wrapper holds keeps that plugin. *)
Lemma Update_same_plugin w config :
  pw_plugin (Update config (pw_plugin w) w).1.2 = pw_plugin w.
Proof.
  destruct (decide (PluginName config = "" \/
                    PluginName config <> PluginName (pw_config w))) as [Hr|Hr].
  - by rewrite Update_rejected.
  - assert (PluginName config <> "") as Hne by tauto.
    assert (PluginName config = PluginName (pw_config w)) as Heq.
    { destruct (decide (PluginName config = PluginName (pw_config w))); tauto. }
    rewrite Update_config_only; auto.
Qed.

(** The tail of [updateWasm] builds nothing, leaves a wrapper under the
    key, and keeps its plugin when it is given that very plugin. *)
Lemma publish_facts key newConfig p s pw :
  pluginMap s !! key = Some (E_pluginWrapper pw) ->
  Forall (fun e => ~ is_build e) (publish key newConfig p s).2 /\
  exists pw',
    pluginMap (publish key newConfig p s).1.2 !! key = Some (E_pluginWrapper pw') /\
    (p = pw_plugin pw -> pw_plugin pw' = pw_plugin pw).
Proof.
  intros H. unfold publish.
  destruct (VmConfig newConfig) as [v|]; run_m;
    [| split; [constructor | eauto]].
  destruct p as [r|]; run_go; [| split; [constructor | eauto]].
  rewrite (on_wrapper_run _ _ _ _ H). cbn [fst snd].
  split.
  - change (?a :: ?b :: ?t) with ([a; b] ++ t). apply Forall_app_2.
    + no_build.
    + apply Update_no_build.
  - eexists. unfold set_pluginMap. cbn [pluginMap]. rewrite lookup_insert_eq.
    split; [done |]. intros ->. apply Update_same_plugin.
Qed.

(** [plugin.EnsureInstanceNum] leaves the registry alone and records the
    call. *)
Lemma plugin_EnsureInstanceNum_run r num s :
  (plugin_EnsureInstanceNum env (Some r) num s).2 = [Ev_EnsureInstanceNum r num] /\
  pluginMap (plugin_EnsureInstanceNum env (Some r) num s).1.2 = pluginMap s.
Proof.
  run_go. destruct (heap s !! r) as [impl|]; run_go; [| done].
  destruct (EnsureInstanceNum env impl (attempts s) num) as [[impl' k'] a].
  run_go. done.
Qed.

(** [AddOrUpdateWasm] for a name whose entry is a wrapper. *)
Lemma AddOrUpdateWasm_registered c s pw :
  PluginName c <> "" ->
  pluginMap s !! PluginName c = Some (E_pluginWrapper pw) ->
  AddOrUpdateWasm env c s =
    match updateWasm env (PluginName c) c s with
    | (Ret _, s1, t1) => (Ret None, s1, t1 ++ [])
    | (Panic msg, s1, t1) => (Panic msg, s1, t1)
    end.
Proof.
  intros Hne H. unfold AddOrUpdateWasm. rewrite decide_False by done.
  run_m. rewrite H. run_m.
  by destruct (updateWasm env (PluginName c) c s) as [[[[]|msg] s1] t1].
Qed.

(** For a registered name no error ever comes back: the call returns nil
    or panics. *)
Lemma AddOrUpdateWasm_registered_outcome c s pw :
  PluginName c <> "" ->
  pluginMap s !! PluginName c = Some (E_pluginWrapper pw) ->
  (AddOrUpdateWasm env c s).1.1 = Ret None \/
  exists msg, (AddOrUpdateWasm env c s).1.1 = Panic msg.
Proof.
  intros Hne H. rewrite (AddOrUpdateWasm_registered _ _ _ Hne H).
  destruct (updateWasm env (PluginName c) c s) as [[[[]|msg] s1] t1]; eauto.
Qed.

End UpdateFacts.

Section ReuseOrRebuild.
Context (env : Env).

Lemma AddOrUpdateWasm_registered_run c s pw :
  PluginName c <> "" ->
  pluginMap s !! PluginName c = Some (E_pluginWrapper pw) ->
  (AddOrUpdateWasm env c s).2 = (updateWasm env (PluginName c) c s).2 /\
  (AddOrUpdateWasm env c s).1.2 = (updateWasm env (PluginName c) c s).1.2.
Proof.
  intros Hne H. rewrite (AddOrUpdateWasm_registered env _ _ _ Hne H).
  destruct (updateWasm env (PluginName c) c s) as [[[[]|msg] s1] t1];
    cbn [fst snd]; by rewrite ?app_nil_r.
Qed.

(** On the rebuild path the call of [NewWasmPlugin] comes first. *)
Lemma updateWasm_rebuild_trace key newConfig s pw :
  pluginMap s !! key = Some (E_pluginWrapper pw) ->
  newConfig <> pw_config pw ->
  vm_source_changed newConfig (pw_config pw) ->
  exists t, (updateWasm env key newConfig s).2 = Ev_NewWasmPlugin newConfig :: t.
Proof.
  intros H Hd Hc. apply shouldCreateNewPlugin_spec in Hc.
  rewrite (updateWasm_rebuild env _ _ _ _ H Hd Hc).
  destruct (NewWasmPlugin_cases env newConfig s) as (o & s1 & t1 & -> & _).
  destruct o as [[p [e|]]|msg]; cbn [snd]; [eauto | | eauto].
  destruct (publish _ _ _ _) as [[[[]|msg] s2] t2]; cbn [snd]; eauto.
Qed.

(** On the reuse path nothing is built, [EnsureInstanceNum] on the plugin
    of the wrapper comes first and the wrapper keeps its plugin. *)
Lemma updateWasm_reuse_facts key newConfig s pw :
  pluginMap s !! key = Some (E_pluginWrapper pw) ->
  newConfig <> pw_config pw ->
  ~ vm_source_changed newConfig (pw_config pw) ->
  Forall (fun e => ~ is_build e) (updateWasm env key newConfig s).2 /\
  forall p, pw_plugin pw = Some p ->
    (exists t, (updateWasm env key newConfig s).2 =
                 Ev_EnsureInstanceNum p (InstanceNum newConfig) :: t) /\
    exists pw',
      pluginMap (updateWasm env key newConfig s).1.2 !! key
        = Some (E_pluginWrapper pw') /\
      pw_plugin pw' = Some p.
Proof.
  intros H Hd Hc.
  assert (shouldCreateNewPlugin newConfig (pw_config pw) = false) as Hs.
  { destruct (shouldCreateNewPlugin newConfig (pw_config pw)) eqn:E; [| done].
    by apply shouldCreateNewPlugin_spec in E. }
  rewrite (updateWasm_reuse env _ _ _ _ H Hd Hs).
  destruct (pw_plugin pw) as [r|] eqn:Hp.
  2:{ cbn. split; [constructor | done]. }
  pose proof (plugin_EnsureInstanceNum_run env r (InstanceNum newConfig) s) as [Ht Hm].
  destruct (plugin_EnsureInstanceNum env (Some r) (InstanceNum newConfig) s)
    as [[[a|msg] s1] t1]; cbn [fst snd] in Ht, Hm; subst t1.
  2:{ cbn [fst snd]. split.
      - constructor; [intros [[? ?]|[? ?]]; discriminate | constructor].
      - intros p [= <-]. split; [eauto |]. rewrite Hm. exists pw. by rewrite Hp. }
  assert (pluginMap s1 !! key = Some (E_pluginWrapper pw)) as H1
    by (by rewrite Hm).
  destruct (a =? 0).
  { cbn [fst snd app]. split.
    - constructor; [intros [[? ?]|[? ?]]; discriminate | constructor].
    - intros p [= <-]. split; [eauto |]. exists pw. by rewrite Hp. }
  pose proof (publish_facts key newConfig (Some r) s1 pw H1)
    as (Hnb & pw' & Hl & Hsame).
  destruct (publish key newConfig (Some r) s1)
    as [[o s2] t2]; cbn [fst snd app] in *.
  split.
  - constructor; [intros [[? ?]|[? ?]]; discriminate | exact Hnb].
  - intros p [= <-]. split; [eauto |]. exists pw'. split; [done |].
    rewrite Hsame by done. done.
Qed.

End ReuseOrRebuild.

(** C7.  For a registered name whose wrapper holds a different
    configuration, [AddOrUpdateWasm] calls [NewWasmPlugin] if and only if
    both configurations carry a [VmConfig] and engine, path or url differ,
    and then it is the first thing it does; otherwise (also when a
    [VmConfig] is nil) nothing is built, the first thing it does is
    [EnsureInstanceNum] on the plugin of the wrapper, and the wrapper still
    holds that plugin afterwards. *)
Theorem C7_reuse_or_rebuild env newConfig s pw :
  PluginName newConfig <> "" ->
  pluginMap s !! PluginName newConfig = Some (E_pluginWrapper pw) ->
  newConfig <> pw_config pw ->
  let r := AddOrUpdateWasm env newConfig s in
  (vm_source_changed newConfig (pw_config pw) <-> Ev_NewWasmPlugin newConfig ∈ r.2) /\
  (vm_source_changed newConfig (pw_config pw) ->
   exists t, r.2 = Ev_NewWasmPlugin newConfig :: t) /\
  (~ vm_source_changed newConfig (pw_config pw) ->
   Forall (fun e => ~ is_build e) r.2 /\
   forall p, pw_plugin pw = Some p ->
     (exists t, r.2 = Ev_EnsureInstanceNum p (InstanceNum newConfig) :: t) /\
     exists pw',
       pluginMap r.1.2 !! PluginName newConfig = Some (E_pluginWrapper pw') /\
       pw_plugin pw' = Some p).
Proof.
  intros Hne H Hd. cbv zeta.
  destruct (AddOrUpdateWasm_registered_run env _ _ _ Hne H) as [-> ->].
  pose proof (updateWasm_rebuild_trace env _ _ _ _ H Hd) as Hbuild.
  pose proof (updateWasm_reuse_facts env _ _ _ _ H Hd) as Hreuse.
  split; [| split; [exact Hbuild | exact Hreuse]].
  split.
  - intros Hc. destruct (Hbuild Hc) as [t ->]. apply list_elem_of_here.
  - intros Hin.
    destruct (decide (shouldCreateNewPlugin newConfig (pw_config pw) = true)) as [E|E].
    + by apply shouldCreateNewPlugin_spec.
    + assert (~ vm_source_changed newConfig (pw_config pw)) as Hc
        by (by rewrite <- shouldCreateNewPlugin_spec).
      destruct (Hreuse Hc) as [Hnb _].
      rewrite Forall_forall in Hnb. destruct (Hnb _ Hin). left. eauto.
Qed.

(** C7, an instance: a new path rebuilds, a new instance count does not. *)
Lemma C7_witness :
  Ev_NewWasmPlugin (cfg "p" 2 (Some (vm_cfg "wasmer" "/b.wasm")))
    ∈ (AddOrUpdateWasm env_ok (cfg "p" 2 (Some (vm_cfg "wasmer" "/b.wasm"))) world_p).2 /\
  Forall (fun e => ~ is_build e)
    (AddOrUpdateWasm env_ok (cfg "p" 5 (Some (vm_cfg "wasmer" "/a.wasm"))) world_p).2.
Proof.
  split.
  - apply (proj1 (C7_reuse_or_rebuild env_ok
                    (cfg "p" 2 (Some (vm_cfg "wasmer" "/b.wasm"))) world_p
                    {| pw_plugin := Some 0%nat; pw_config := cfg_p; pluginHandlers := [] |}
                    ltac:(discriminate) ltac:(vm_compute; reflexivity)
                    ltac:(discriminate))).
    eexists _, _. split; [reflexivity |]. split; [reflexivity |].
    right. left. discriminate.
  - apply (proj2 (proj2 (C7_reuse_or_rebuild env_ok
                    (cfg "p" 5 (Some (vm_cfg "wasmer" "/a.wasm"))) world_p
                    {| pw_plugin := Some 0%nat; pw_config := cfg_p; pluginHandlers := [] |}
                    ltac:(discriminate) ltac:(vm_compute; reflexivity)
                    ltac:(discriminate)))).
    intros (n & o & [= <-] & [= <-] & [Hx|[Hx|Hx]]); by apply Hx.
Defined.

Section AbandonedUpdate.
Context (env : Env).

(** A rebuild whose construction fails is given up: the caller gets nil,
    the registry is as it was, and the trace is that of the construction. *)
Lemma AddOrUpdateWasm_rebuild_abandoned c s pw p e s1 t1 :
  PluginName c <> "" ->
  pluginMap s !! PluginName c = Some (E_pluginWrapper pw) ->
  c <> pw_config pw ->
  vm_source_changed c (pw_config pw) ->
  NewWasmPlugin env c s = (Ret (p, Some e), s1, t1) ->
  (AddOrUpdateWasm env c s).1.1 = Ret None /\
  (AddOrUpdateWasm env c s).2 = t1 /\
  pluginMap (AddOrUpdateWasm env c s).1.2 = pluginMap s /\
  (forall r, r <> next_ref s ->
     heap (AddOrUpdateWasm env c s).1.2 !! r = heap s !! r).
Proof.
  intros Hne H Hd Hc HN. apply shouldCreateNewPlugin_spec in Hc.
  rewrite (AddOrUpdateWasm_registered env _ _ _ Hne H).
  rewrite (updateWasm_rebuild env _ _ _ _ H Hd Hc), HN. cbn [fst snd].
  rewrite !app_nil_r.
  apply NewWasmPlugin_inv in HN as (Hm & Hh & _). done.
Qed.

(** A resize on the reuse path that ends with no instance is given up in
    the same way, before any limit is set or observer told. *)
Lemma AddOrUpdateWasm_resize_abandoned c s pw r impl :
  PluginName c <> "" ->
  pluginMap s !! PluginName c = Some (E_pluginWrapper pw) ->
  c <> pw_config pw ->
  ~ vm_source_changed c (pw_config pw) ->
  pw_plugin pw = Some r ->
  heap s !! r = Some impl ->
  (EnsureInstanceNum env impl (attempts s) (InstanceNum c)).2 = 0 ->
  (AddOrUpdateWasm env c s).1.1 = Ret None /\
  (AddOrUpdateWasm env c s).2 = [Ev_EnsureInstanceNum r (InstanceNum c)] /\
  pluginMap (AddOrUpdateWasm env c s).1.2 = pluginMap s.
Proof.
  intros Hne H Hd Hc Hp Hr H0.
  assert (shouldCreateNewPlugin c (pw_config pw) = false) as Hs.
  { destruct (shouldCreateNewPlugin c (pw_config pw)) eqn:E; [| done].
    by apply shouldCreateNewPlugin_spec in E. }
  rewrite (AddOrUpdateWasm_registered env _ _ _ Hne H).
  rewrite (updateWasm_reuse env _ _ _ _ H Hd Hs), Hp.
  run_go. rewrite Hr.
  destruct (EnsureInstanceNum env impl (attempts s) (InstanceNum c))
    as [[impl' k'] a]. simpl in H0. subst a. run_go. done.
Qed.

End AbandonedUpdate.

(** The four ways a construction fails, each with its error, for a name
    that is not registered; the registry is as it was. *)
Example construction_failures :
  (AddOrUpdateWasm env_ok (cfg "q" 2 (Some (vm_cfg "v8" "/a.wasm"))) world_p).1.1
    = Ret (Some ErrEngineNotFound) /\
  (AddOrUpdateWasm env_ok (cfg "q" 2 (Some (vm_cfg "wasmer" ""))) world_p).1.1
    = Ret (Some ErrWasmBytesLoad) /\
  (AddOrUpdateWasm env_nomodule (cfg "q" 2 (Some (vm_cfg "wasmer" "/a.wasm"))) world_p).1.1
    = Ret (Some ErrModuleCreate) /\
  (AddOrUpdateWasm env_barren (cfg "q" 2 (Some (vm_cfg "wasmer" "/a.wasm"))) world_p).1.1
    = Ret (Some ErrInstanceCreate) /\
  pluginMap (AddOrUpdateWasm env_barren (cfg "q" 2 (Some (vm_cfg "wasmer" "/a.wasm"))) world_p).1.2
    = pluginMap world_p.
Proof. repeat split; vm_compute; reflexivity. Qed.

(** C10 (the code departs from the stated property).  For a registered name
    [AddOrUpdateWasm] is to return nil whatever happens to the update.  With
    "p" registered with two instances, an update that asks for three and
    carries no [VmConfig] takes the reuse path ([shouldCreateNewPlugin]
    answers false on a nil [VmConfig]), grows the plugin to three instances
    and then dereferences the nil [VmConfig] for the cpu limit: the call
    panics, the plugin is resized, the wrapper still holds the old
    configuration and no observer is told. *)
Theorem C10_nil_VmConfig_panics :
  pluginMap world_p !! "p" =
    Some (E_pluginWrapper {| pw_plugin := Some 0%nat; pw_config := cfg_p;
                             pluginHandlers := [] |}) /\
  instanceNum <$> (heap world_p !! 0%nat) = Some 2 /\
  shouldCreateNewPlugin cfg_p_nil cfg_p = false /\
  (AddOrUpdateWasm env_ok cfg_p_nil world_p).1.1 = Panic "nil pointer dereference" /\
  (AddOrUpdateWasm env_ok cfg_p_nil world_p).2 = [Ev_EnsureInstanceNum 0%nat 3] /\
  instanceNum <$> (heap (AddOrUpdateWasm env_ok cfg_p_nil world_p).1.2 !! 0%nat) = Some 3 /\
  pluginMap (AddOrUpdateWasm env_ok cfg_p_nil world_p).1.2 = pluginMap world_p.
Proof.
  repeat split; vm_compute; reflexivity.
Qed.

(** ** The export dispatcher *)

Section DispatcherFacts.
Import Proxywasm.
Context {Value : Type} (ToI32 : Value -> Z).

Lemma call_void_absent (wasm : @wasmContext Value) name args :
  Exports (instance wasm) !! name = None ->
  call_void wasm name args =
    (Some (errors_New ("func " ++ name ++ " not found")), []).
Proof. intros H. unfold call_void, ExportFn in *. by rewrite H. Qed.

Lemma call_void_present (wasm : @wasmContext Value) name args ff res err :
  Exports (instance wasm) !! name = Some ff ->
  ff args = (res, err) ->
  call_void wasm name args = (err, [(name, args)]).
Proof. intros H Hf. unfold call_void, ExportFn in *. by rewrite H, Hf. Qed.

Lemma call_i32_absent (wasm : @wasmContext Value) name args :
  Exports (instance wasm) !! name = None ->
  call_i32 ToI32 wasm name args =
    ((0, Some (errors_New ("func " ++ name ++ " not found"))), []).
Proof. intros H. unfold call_i32, ExportFn in *. by rewrite H. Qed.

Lemma call_i32_fails (wasm : @wasmContext Value) name args ff res e :
  Exports (instance wasm) !! name = Some ff ->
  ff args = (res, Some e) ->
  call_i32 ToI32 wasm name args = ((0, Some e), [(name, args)]).
Proof. intros H Hf. unfold call_i32, ExportFn in *. by rewrite H, Hf. Qed.

Lemma call_i32_returns (wasm : @wasmContext Value) name args ff res :
  Exports (instance wasm) !! name = Some ff ->
  ff args = (res, None) ->
  call_i32 ToI32 wasm name args = ((ToI32 res, None), [(name, args)]).
Proof. intros H Hf. unfold call_i32, ExportFn in *. by rewrite H, Hf. Qed.

End DispatcherFacts.

(** Reduce a call of [run] to the shared body of its method. *)
Ltac run_call :=
  cbn [Proxywasm.run Proxywasm.result_of Proxywasm.yields_code
       Proxywasm.export_name Proxywasm.call_args];
  unfold Proxywasm.with_error, Proxywasm.with_code;
  cbv delta [Proxywasm._start Proxywasm.proxy_on_context_create
    Proxywasm.proxy_on_vm_start Proxywasm.proxy_on_done Proxywasm.proxy_on_log
    Proxywasm.proxy_on_delete Proxywasm.proxy_on_configure Proxywasm.proxy_on_tick
    Proxywasm.proxy_on_new_connection Proxywasm.proxy_on_downstream_data
    Proxywasm.proxy_on_downstream_connection_close Proxywasm.proxy_on_upstream_data
    Proxywasm.proxy_on_upstream_connection_close Proxywasm.proxy_on_request_headers
    Proxywasm.proxy_on_request_body Proxywasm.proxy_on_request_trailers
    Proxywasm.proxy_on_request_metadata Proxywasm.proxy_on_response_headers
    Proxywasm.proxy_on_response_body Proxywasm.proxy_on_response_trailers
    Proxywasm.proxy_on_response_metadata Proxywasm.proxy_on_http_call_response
    Proxywasm.proxy_on_grpc_receive_initial_metadata
    Proxywasm.proxy_on_grpc_trailing_metadata Proxywasm.proxy_on_grpc_receive
    Proxywasm.proxy_on_grpc_close Proxywasm.proxy_on_queue_ready
    Proxywasm.proxy_validate_configuration Proxywasm.proxy_on_foreign_function];
  cbv beta.

(** The message of a missing export is the one the source spells out. *)
Example missing_export_message :
  Proxywasm.run GoInt.int32 sample_context (Proxywasm.Call_proxy_on_vm_start 1 0)
  = (Proxywasm.R_code 0 (Some (errors_New "func proxy_on_vm_start not found")), []).
Proof. vm_compute. reflexivity. Qed.

(** C9.  Every call of the dispatcher: when the export table of the
    instance has no entry under the name of the call, the call returns the
    error that names the missing function (with code 0 when it yields a
    code) and invokes nothing; when the export is there and the engine
    fails, the call returns that very error (with code 0); otherwise a call
    made for its effect returns no error, and a call that yields a code
    returns the 32-bit reading of the result and no error.  In the last two
    cases the export is invoked once, with the arguments of the call. *)
Theorem C9_dispatch {Value : Type} (ToI32 : Value -> Z)
    (wasm : @Proxywasm.wasmContext Value) (c : Proxywasm.AbiCall) :
  (Proxywasm.Exports (Proxywasm.instance wasm) !! Proxywasm.export_name c = None ->
   Proxywasm.run ToI32 wasm c =
     (Proxywasm.result_of c 0
        (Some (errors_New ("func " ++ Proxywasm.export_name c ++ " not found"))),
      [])) /\
  (forall ff res e,
     Proxywasm.Exports (Proxywasm.instance wasm) !! Proxywasm.export_name c = Some ff ->
     ff (Proxywasm.call_args c) = (res, Some e) ->
     Proxywasm.run ToI32 wasm c =
       (Proxywasm.result_of c 0 (Some e),
        [(Proxywasm.export_name c, Proxywasm.call_args c)])) /\
  (forall ff res,
     Proxywasm.Exports (Proxywasm.instance wasm) !! Proxywasm.export_name c = Some ff ->
     ff (Proxywasm.call_args c) = (res, None) ->
     Proxywasm.run ToI32 wasm c =
       (Proxywasm.result_of c (ToI32 res) None,
        [(Proxywasm.export_name c, Proxywasm.call_args c)])).
Proof.
  split; [| split].
  - intros H. destruct c; cbn [Proxywasm.export_name] in H; run_call;
      first [ rewrite (call_void_absent _ _ _ H)
            | rewrite (call_i32_absent ToI32 _ _ _ H) ];
      reflexivity.
  - intros ff res e H Hf.
    destruct c; cbn [Proxywasm.export_name Proxywasm.call_args] in H, Hf; run_call;
      first [ rewrite (call_void_present _ _ _ _ _ _ H Hf)
            | rewrite (call_i32_fails ToI32 _ _ _ _ _ _ H Hf) ];
      reflexivity.
  - intros ff res H Hf.
    destruct c; cbn [Proxywasm.export_name Proxywasm.call_args] in H, Hf; run_call;
      first [ rewrite (call_void_present _ _ _ _ _ _ H Hf)
            | rewrite (call_i32_returns ToI32 _ _ _ _ _ H Hf) ];
      reflexivity.
Qed.

(** C9, an instance: a missing export, a trap, a returned code. *)
Lemma C9_witness :
  Proxywasm.run GoInt.int32 sample_context (Proxywasm.Call_proxy_on_log 1)
    = (Proxywasm.R_error (Some (errors_New "func proxy_on_log not found")), []) /\
  Proxywasm.run GoInt.int32 sample_context (Proxywasm.Call_proxy_on_tick 1)
    = (Proxywasm.R_error (Some (EngineError 13)), [("proxy_on_tick", [1])]) /\
  Proxywasm.run GoInt.int32 sample_context (Proxywasm.Call_proxy_on_done 1)
    = (Proxywasm.R_code 1 None, [("proxy_on_done", [1])]).
Proof.
  split; [| split].
  - apply (proj1 (C9_dispatch GoInt.int32 sample_context (Proxywasm.Call_proxy_on_log 1))).
    vm_compute. reflexivity.
  - apply (proj1 (proj2 (C9_dispatch GoInt.int32 sample_context
                           (Proxywasm.Call_proxy_on_tick 1)))
             (fun _ => (0, Some (EngineError 13))) 0 (EngineError 13)).
    + vm_compute. reflexivity.
    + reflexivity.
  - apply (proj2 (proj2 (C9_dispatch GoInt.int32 sample_context
                           (Proxywasm.Call_proxy_on_done 1)))
             (fun _ => (1, None)) 1).
    + vm_compute. reflexivity.
    + reflexivity.
Defined.

(** * Further properties of the code *)

(** ** Machine integers, continued *)

Lemma int32_add_l a b : GoInt.int32 (GoInt.int32 a + b) = GoInt.int32 (a + b).
Proof.
  unfold GoInt.int32, GoInt.wrap.
  change (2 ^ (32 - 1)) with 2147483648. change (2 ^ 32) with 4294967296.
  f_equal.
  replace ((a + 2147483648) `mod` 4294967296 - 2147483648 + b + 2147483648)
    with ((a + 2147483648) `mod` 4294967296 + b) by lia.
  rewrite Zplus_mod_idemp_l. f_equal. lia.
Qed.

(** ** The instance pool, continued *)

Lemma rem_nonneg_iff a b :
  0 < b -> (0 <= Z.rem a b <-> 0 <= a \/ (b | a)).
Proof.
  intros Hb. destruct (Z.le_gt_cases 0 a) as [Ha|Ha].
  - split; [by left |]. intros _. rewrite Z.rem_mod_nonneg by lia.
    apply Z.mod_pos_bound. lia.
  - assert (Z.rem a b = - ((- a) `mod` b)) as ->.
    { rewrite <- (Z.opp_involutive a) at 1. rewrite Z.rem_opp_l by lia.
      rewrite Z.rem_mod_nonneg by lia. done. }
    pose proof (Z.mod_pos_bound (- a) b Hb) as Hm.
    split.
    + intros H. right. apply Z.divide_opp_r. apply Z.mod_divide; lia.
    + intros [H|H]; [lia |]. apply Z.divide_opp_r in H.
      apply Z.mod_divide in H; lia.
Qed.

(** What an acquisition that returns has done. *)
Lemma GetInstance_effect w x w' :
  GetInstance w = Ret (x, w') ->
  x ∈ instanceWrappers w /\
  instanceWrappers w' = instanceWrappers w /\
  instanceNum w' = instanceNum w /\
  instanceWrappersIdx w' = GoInt.int32 (instanceWrappersIdx w + 1) /\
  occupy w' = GoInt.int32 (occupy w + 1).
Proof.
  unfold GetInstance.
  destruct (_ =? 0); [done |]. destruct (_ <? 0); [done |].
  destruct (instanceWrappers w !! _) as [y|] eqn:E; [| done].
  intros [= <- <-]. split; [| done].
  by eapply list_elem_of_lookup_2.
Qed.

(** X1.  [GetInstance] returns exactly when the pool is not empty and the
    cursor is non-negative or a multiple of the pool size; otherwise it
    panics.  What it returns is an instance of the pool; the pool and the
    count are as before, cursor and occupancy are incremented as
    [int32]. *)
Theorem X1_GetInstance_returns_iff w :
  ((exists x w', GetInstance w = Ret (x, w')) <->
   instanceWrappers w <> [] /\
   (0 <= instanceWrappersIdx w \/
    (Z.of_nat (length (instanceWrappers w)) | instanceWrappersIdx w))) /\
  (forall x w',
     GetInstance w = Ret (x, w') ->
     x ∈ instanceWrappers w /\
     instanceWrappers w' = instanceWrappers w /\
     instanceNum w' = instanceNum w /\
     instanceWrappersIdx w' = GoInt.int32 (instanceWrappersIdx w + 1) /\
     occupy w' = GoInt.int32 (occupy w + 1)).
Proof.
  unfold GetInstance. split.
  - destruct (instanceWrappers w) as [|y l] eqn:El.
    { simpl. split; [intros (? & ? & ?); done | intros [? _]; done]. }
    assert (0 < Z.of_nat (length (y :: l))) as Hlen by (simpl; lia).
    destruct (Z.eqb_spec (Z.of_nat (length (y :: l))) 0) as [E|_]; [lia |].
    pose proof (rem_nonneg_iff (instanceWrappersIdx w) _ Hlen) as Hrem.
    destruct (Z.ltb_spec (Z.rem (instanceWrappersIdx w) (Z.of_nat (length (y :: l)))) 0)
      as [Hneg|Hpos].
    + split; [intros (? & ? & ?); done |]. intros [_ H]. apply Hrem in H. lia.
    + assert (Z.rem (instanceWrappersIdx w) (Z.of_nat (length (y :: l)))
              < Z.of_nat (length (y :: l))) as Hlt.
      { pose proof (Z.rem_bound_abs (instanceWrappersIdx w)
                      (Z.of_nat (length (y :: l)))). lia. }
      destruct (lookup_lt_is_Some_2 (y :: l)
                  (Z.to_nat (Z.rem (instanceWrappersIdx w)
                               (Z.of_nat (length (y :: l))))))
        as [x Hx]; [lia |].
      rewrite Hx. split; [| eauto]. intros _. split; [done | by apply Hrem].
  - intros x w'. fold (GetInstance w). apply GetInstance_effect.
Qed.

Lemma int32_range z : GoInt.is_int32 (GoInt.int32 z).
Proof.
  unfold GoInt.is_int32, GoInt.MinInt32, GoInt.MaxInt32, GoInt.int32, GoInt.wrap.
  change (2 ^ (32 - 1)) with 2147483648. change (2 ^ 32) with 4294967296.
  pose proof (Z.mod_pos_bound (z + 2147483648) 4294967296). lia.
Qed.

Lemma GetInstances_occupy n : forall w res w',
  GetInstances n w = Ret (res, w') ->
  length res = n /\
  instanceWrappers w' = instanceWrappers w /\
  instanceNum w' = instanceNum w /\
  GoInt.int32 (occupy w') = GoInt.int32 (occupy w + Z.of_nat n) /\
  (GoInt.is_int32 (occupy w) -> GoInt.is_int32 (occupy w')).
Proof.
  induction n as [|n IH]; intros w res w'; simpl.
  - intros [= <- <-]. rewrite Z.add_0_r. by repeat (split; [done |]).
  - destruct (GetInstance w) as [[x w1]|msg] eqn:E1; [| done].
    destruct (GetInstances n w1) as [[l w2]|msg] eqn:E2; [| done].
    intros [= <- <-].
    destruct (GetInstance_effect _ _ _ E1) as (_ & Hl & Hn & _ & Ho).
    destruct (IH _ _ _ E2) as (Hlen & Hl2 & Hn2 & Ho2 & Hr2).
    split; [simpl; by rewrite Hlen |]. split; [congruence |].
    split; [congruence |]. split.
    + rewrite Ho2, Ho, int32_add_l. f_equal. lia.
    + intros _. apply Hr2. rewrite Ho. apply int32_range.
Qed.

Lemma ReleaseInstances_occupy l : forall w,
  instanceWrappers (ReleaseInstances l w) = instanceWrappers w /\
  instanceNum (ReleaseInstances l w) = instanceNum w /\
  instanceWrappersIdx (ReleaseInstances l w) = instanceWrappersIdx w /\
  GoInt.int32 (occupy (ReleaseInstances l w))
    = GoInt.int32 (occupy w - Z.of_nat (length l)) /\
  (GoInt.is_int32 (occupy w) -> GoInt.is_int32 (occupy (ReleaseInstances l w))).
Proof.
  unfold ReleaseInstances.
  induction l as [|x l IH]; intros w; simpl.
  - rewrite Z.sub_0_r. by repeat (split; [done |]).
  - destruct (IH (ReleaseInstance w x)) as (Hl & Hn & Hi & Ho & Hr).
    split; [done |]. split; [done |]. split; [done |]. split.
    + rewrite Ho. cbn [ReleaseInstance set_cursor occupy].
      replace (GoInt.int32 (occupy w - 1) - Z.of_nat (length l))
        with (GoInt.int32 (occupy w - 1) + - Z.of_nat (length l)) by lia.
      rewrite int32_add_l. f_equal. lia.
    + intros _. apply Hr. simpl. apply int32_range.
Qed.

(** X2.  Acquisitions and releases balance: after [n] acquisitions that
    all return, releasing what they returned puts the occupancy counter
    back where it was (also across the wrap-around of the [int32]), and the
    pool is as before.  The instances handed to [ReleaseInstance] play no
    part: any [n] releases do. *)
Theorem X2_acquire_release_balance n w res w' (others : list wasmInstanceWrapperImpl) :
  GoInt.is_int32 (occupy w) ->
  GetInstances n w = Ret (res, w') ->
  length others = n ->
  occupy (ReleaseInstances res w') = occupy w /\
  occupy (ReleaseInstances others w') = occupy w /\
  instanceWrappers (ReleaseInstances res w') = instanceWrappers w /\
  instanceNum (ReleaseInstances res w') = instanceNum w.
Proof.
  intros Hr HG Hlen.
  destruct (GetInstances_occupy _ _ _ _ HG) as (Hl & Hw & Hn & Ho & Hr').
  assert (forall l, length l = n -> occupy (ReleaseInstances l w') = occupy w) as Hbal.
  { intros l Hll.
    destruct (ReleaseInstances_occupy l w') as (_ & _ & _ & Ho2 & Hr2).
    rewrite <- (int32_id (occupy (ReleaseInstances l w'))) by auto.
    rewrite Ho2, Hll.
    replace (occupy w' - Z.of_nat n) with (occupy w' + - Z.of_nat n) by lia.
    rewrite <- int32_add_l, Ho, int32_add_l.
    replace (occupy w + Z.of_nat n + - Z.of_nat n) with (occupy w) by lia.
    by apply int32_id. }
  split; [by apply Hbal |]. split; [by apply Hbal |].
  destruct (ReleaseInstances_occupy res w') as (Hl2 & Hn2 & _).
  split; congruence.
Qed.

(** X2, an instance: two acquisitions at the top of the [int32] range. *)
Lemma X2_witness :
  occupy (ReleaseInstances [iw 1; iw 0]
            {| config := cfg_p; instanceNum := 2; instanceWrappers := [iw 0; iw 1];
               instanceWrappersIdx := 3; occupy := -2147483647;
               vm := 0%nat; wasmBytes := []; module := 7%nat |})
  = GoInt.MaxInt32.
Proof.
  apply (proj1 (X2_acquire_release_balance 2
           {| config := cfg_p; instanceNum := 2; instanceWrappers := [iw 0; iw 1];
              instanceWrappersIdx := 1; occupy := GoInt.MaxInt32;
              vm := 0%nat; wasmBytes := []; module := 7%nat |}
           [iw 1; iw 0] _ [iw 0; iw 0]
           ltac:(unfold GoInt.is_int32, GoInt.MinInt32, GoInt.MaxInt32; simpl; lia)
           ltac:(vm_compute; reflexivity) ltac:(reflexivity))).
Defined.

Lemma Exec_range_all f l :
  Forall (fun x => f x = true) l -> Exec_range f l = l.
Proof.
  induction 1 as [|x l Hx _ IH]; simpl; [done |]. by rewrite Hx, IH.
Qed.

(** X3.  [Exec] applies the visitor to a prefix of the instances, in pool
    order: to all of them when the visitor never answers false, and
    otherwise up to and including the first instance for which it does,
    and to none after it. *)
Theorem X3_Exec_visits_prefix w f :
  Exec w f `prefix_of` instanceWrappers w /\
  (Forall (fun x => f x = true) (instanceWrappers w) ->
   Exec w f = instanceWrappers w) /\
  (forall i x,
     instanceWrappers w !! i = Some x -> f x = false ->
     Forall (fun y => f y = true) (take i (instanceWrappers w)) ->
     Exec w f = take (S i) (instanceWrappers w)).
Proof.
  unfold Exec. generalize (instanceWrappers w) as l. intros l.
  split; [| split].
  - induction l as [|x l IH]; simpl; [done |].
    destruct (f x).
    + by apply prefix_cons.
    + apply prefix_cons. apply prefix_nil.
  - apply Exec_range_all.
  - induction l as [|y l IH]; intros i x Hi Hx Hall; [done |].
    destruct i as [|i]; simpl in *.
    + injection Hi as ->. by rewrite Hx, take_0.
    + apply Forall_cons in Hall as [Hy Hall]. rewrite Hy. f_equal. eauto.
Qed.

(** X3, an instance: the visitor stops at the second of three. *)
Lemma X3_witness :
  Exec (pool [iw 0; iw 1; iw 2] 0)
       (fun x => negb (Nat.eqb (WasmInstance_of x) 1))
  = [iw 0; iw 1].
Proof.
  apply (proj2 (proj2 (X3_Exec_visits_prefix (pool [iw 0; iw 1; iw 2] 0)
                         (fun x => negb (Nat.eqb (WasmInstance_of x) 1))))
           1%nat (iw 1)).
  - reflexivity.
  - reflexivity.
  - apply Forall_cons_2; [reflexivity | apply Forall_nil_2].
Defined.

(** The creation loop makes the instances of the attempts that succeed. *)
Lemma createInstances_created env m n : forall k acc,
  createInstances env m n k acc = (acc ++ created env m k n, (k + n)%nat).
Proof.
  unfold created.
  induction n as [|n IH]; intros k acc; simpl.
  - by rewrite app_nil_r, Nat.add_0_r.
  - destruct (NewInstance_ok env m k); rewrite IH; simpl.
    + rewrite <- app_assoc. simpl. f_equal. lia.
    + f_equal. lia.
Qed.

Lemma filter_all_length {A} (f : A -> bool) (l : list A) :
  length (List.filter f l) = length l <-> Forall (fun x => f x = true) l.
Proof.
  induction l as [|x l IH]; simpl.
  - split; [constructor | done].
  - pose proof (List.filter_length_le f l) as Hle.
    destruct (f x) eqn:E; simpl.
    + split.
      * intros H. constructor; [done |]. apply IH. lia.
      * intros H. apply Forall_cons in H as [_ H]. apply IH in H. lia.
    + split; [lia |]. intros H. apply Forall_cons in H as [H _]. congruence.
Qed.

(** X4.  Growth is best effort: for a target above the current count,
    [EnsureInstanceNum] makes exactly [num - count] instantiation attempts,
    appends the instances of the attempts that succeed, in order, behind
    the instances it had, and returns the new count, which lies between the
    old count and the target and reaches the target exactly when every
    attempt succeeds.  Cursor and occupancy are not touched. *)
Theorem X4_growth_best_effort env w k num :
  pool_inv w -> GoInt.is_int num -> instanceNum w < num ->
  let r := EnsureInstanceNum env w k num in
  let n := Z.to_nat (num - instanceNum w) in
  instanceWrappers r.1.1 = instanceWrappers w ++ created env (module w) k n /\
  r.1.2 = (k + n)%nat /\
  r.2 = instanceNum w + Z.of_nat (length (created env (module w) k n)) /\
  instanceNum w <= r.2 <= num /\
  (r.2 = num <-> Forall (fun j => NewInstance_ok env (module w) j = true) (seq k n)) /\
  instanceWrappersIdx r.1.1 = instanceWrappersIdx w /\
  occupy r.1.1 = occupy w.
Proof.
  intros [Hlen Hint] Hnum Hlt. cbv zeta. unfold EnsureInstanceNum.
  assert (0 <= instanceNum w) as H0 by lia.
  destruct (Z.leb_spec num 0) as [?|_]; [lia |].
  destruct (Z.eqb_spec num (instanceNum w)) as [?|_]; [lia |].
  destruct (Z.ltb_spec num (instanceNum w)) as [?|_]; [lia |].
  cbn [orb].
  rewrite int_id by (unfold GoInt.is_int, GoInt.MinInt, GoInt.MaxInt in *; lia).
  rewrite createInstances_created. cbn [app fst snd set_pool instanceWrappers
    instanceNum instanceWrappersIdx occupy].
  assert (length (created env (module w) k (Z.to_nat (num - instanceNum w)))
          <= Z.to_nat (num - instanceNum w))%nat as Hle.
  { unfold created. rewrite length_map.
    etransitivity; [apply List.filter_length_le |]. by rewrite length_seq. }
  rewrite int_id by (unfold GoInt.is_int, GoInt.MinInt, GoInt.MaxInt in *; lia).
  split; [done |]. split; [done |]. split; [done |]. split; [lia |].
  split; [| done].
  rewrite <- filter_all_length. unfold created in *.
  rewrite length_map in *. rewrite length_seq. lia.
Qed.

(** X4, an instance: the first of three attempts fails. *)
Lemma X4_witness :
  instanceWrappers (EnsureInstanceNum env_flaky (pool [iw 9] 0) 0 4).1.1
    = [iw 9; iw 1; iw 2].
Proof.
  rewrite (proj1 (X4_growth_best_effort env_flaky (pool [iw 9] 0) 0 4
             ltac:(split; [reflexivity |];
                   unfold GoInt.is_int, GoInt.MinInt, GoInt.MaxInt; simpl; lia)
             ltac:(unfold GoInt.is_int, GoInt.MinInt, GoInt.MaxInt; lia)
             ltac:(simpl; lia))).
  reflexivity.
Defined.

(** The shape of every resize. *)
Lemma EnsureInstanceNum_resize env w k num :
  pool_inv w -> GoInt.is_int num ->
  let r := EnsureInstanceNum env w k num in
  (forall i,
     (i < length (instanceWrappers r.1.1))%nat ->
     (i < length (instanceWrappers w))%nat ->
     instanceWrappers r.1.1 !! i = instanceWrappers w !! i) /\
  (0 < num <= instanceNum w ->
   r.2 = num /\ r.1.2 = k /\
   instanceWrappers r.1.1 = take (Z.to_nat num) (instanceWrappers w)) /\
  (1 <= instanceNum w -> 1 <= r.2) /\
  r.2 <= Z.max (instanceNum w) num.
Proof.
  intros Hinv Hnum. cbv zeta.
  pose proof Hinv as [Hlen Hint].
  destruct (Z.le_gt_cases num 0) as [Hle|Hpos].
  { rewrite EnsureInstanceNum_noop by (by left). cbn [fst snd].
    split; [done |]. split; [lia |]. split; [done | lia]. }
  destruct (Z.lt_trichotomy num (instanceNum w)) as [Hlt|[Heq|Hgt]].
  - unfold EnsureInstanceNum.
    destruct (Z.leb_spec num 0) as [?|_]; [lia |].
    destruct (Z.eqb_spec num (instanceNum w)) as [?|_]; [lia |].
    destruct (Z.ltb_spec num (instanceNum w)) as [_|?]; [| lia].
    cbn [orb fst snd set_pool instanceWrappers instanceNum].
    split.
    { intros i Hi _. rewrite length_take in Hi. apply lookup_take_lt. lia. }
    split; [done |]. split; lia.
  - rewrite EnsureInstanceNum_noop by (by right). cbn [fst snd].
    split; [done |]. split.
    { intros _. split; [done |]. split; [done |].
      rewrite take_ge; [done | lia]. }
    split; [done | lia].
  - assert (instanceNum w < num) as Hgt' by lia.
    pose proof (createInstances_created env (module w)
                  (Z.to_nat (num - instanceNum w)) k []) as Hc.
    pose proof (EnsureInstanceNum_inv env w k num Hinv Hnum) as [Hlen' _].
    pose proof (EnsureInstanceNum_returns env w k num) as Hret.
    revert Hlen' Hret. unfold EnsureInstanceNum.
    destruct (Z.leb_spec num 0) as [?|_]; [lia |].
    destruct (Z.eqb_spec num (instanceNum w)) as [?|_]; [lia |].
    destruct (Z.ltb_spec num (instanceNum w)) as [?|_]; [lia |].
    cbn [orb].
    rewrite int_id by (unfold GoInt.is_int, GoInt.MinInt, GoInt.MaxInt in *; lia).
    rewrite Hc. cbn [app fst snd set_pool instanceWrappers instanceNum].
    intros Hlen' Hret.
    assert (length (created env (module w) k (Z.to_nat (num - instanceNum w)))
            <= Z.to_nat (num - instanceNum w))%nat as Hle.
    { unfold created. rewrite length_map.
      etransitivity; [apply List.filter_length_le |]. by rewrite length_seq. }
    rewrite length_app in Hlen'.
    split.
    { intros i _ Hi. by apply lookup_app_l. }
    split; [lia |]. split; lia.
Qed.

(** X5.  A resize never reorders or replaces the instances that survive
    it: at every position that exists before and after, the instance is the
    same.  A target between 1 and the current count is always met, by
    keeping the first [num] instances and without any call of the engine.
    A plugin that has an instance never ends with none, and the count never
    exceeds the larger of the old count and the target. *)
Theorem X5_resize_keeps_survivors env w k num :
  pool_inv w -> GoInt.is_int num ->
  let r := EnsureInstanceNum env w k num in
  (forall i,
     (i < length (instanceWrappers r.1.1))%nat ->
     (i < length (instanceWrappers w))%nat ->
     instanceWrappers r.1.1 !! i = instanceWrappers w !! i) /\
  (0 < num <= instanceNum w ->
   r.2 = num /\ r.1.2 = k /\
   instanceWrappers r.1.1 = take (Z.to_nat num) (instanceWrappers w)) /\
  (1 <= instanceNum w -> 1 <= r.2) /\
  r.2 <= Z.max (instanceNum w) num.
Proof. exact (EnsureInstanceNum_resize env w k num). Qed.

(** X5, an instance: four instances cut down to two. *)
Lemma X5_witness :
  (EnsureInstanceNum env_barren (pool [iw 0; iw 1; iw 2; iw 3] 5) 7 2).2 = 2 /\
  (EnsureInstanceNum env_barren (pool [iw 0; iw 1; iw 2; iw 3] 5) 7 2).1.2 = 7%nat /\
  instanceWrappers (EnsureInstanceNum env_barren (pool [iw 0; iw 1; iw 2; iw 3] 5) 7 2).1.1
    = [iw 0; iw 1].
Proof.
  apply (proj1 (proj2 (X5_resize_keeps_survivors env_barren
                         (pool [iw 0; iw 1; iw 2; iw 3] 5) 7 2
           ltac:(split; [reflexivity |];
                 unfold GoInt.is_int, GoInt.MinInt, GoInt.MaxInt; simpl; lia)
           ltac:(unfold GoInt.is_int, GoInt.MinInt, GoInt.MaxInt; lia)))).
  simpl. lia.
Defined.

(** ** Plugin construction, continued *)

(** A resize touches the pool only. *)
Lemma EnsureInstanceNum_frame env w k num :
  config (EnsureInstanceNum env w k num).1.1 = config w /\
  instanceWrappersIdx (EnsureInstanceNum env w k num).1.1 = instanceWrappersIdx w /\
  occupy (EnsureInstanceNum env w k num).1.1 = occupy w /\
  vm (EnsureInstanceNum env w k num).1.1 = vm w /\
  module (EnsureInstanceNum env w k num).1.1 = module w.
Proof.
  unfold EnsureInstanceNum.
  destruct ((num <=? 0) || (num =? instanceNum w)); [done |].
  destruct (num <? instanceNum w); [done |].
  by destruct (createInstances _ _ _ _ _).
Qed.

(** [NewWasmPlugin], step by step. *)
Lemma NewWasmPlugin_run env c s :
  NewWasmPlugin env c s =
    match VmConfig c with
    | None => (Panic "nil pointer dereference", s, [Ev_NewWasmPlugin c])
    | Some v =>
        match GetWasmEngine env (Engine v) with
        | None => (Ret (None, Some ErrEngineNotFound), s, [Ev_NewWasmPlugin c])
        | Some e =>
            if decide (source_bytes env v = [])
            then (Ret (None, Some ErrWasmBytesLoad), s, [Ev_NewWasmPlugin c])
            else
              match NewModule env e (source_bytes env v) with
              | None =>
                  (Ret (None, Some ErrModuleCreate), s,
                   [Ev_NewWasmPlugin c; Ev_NewModule e])
              | Some m =>
                  let r := EnsureInstanceNum env (blank_plugin env c v e m)
                             (attempts s) (wanted env c) in
                  (Ret (if r.2 =? 0 then (None, Some ErrInstanceCreate)
                        else (Some (next_ref s), None)),
                   {| heap := <[next_ref s := r.1.1]> (heap s);
                      next_ref := S (next_ref s);
                      attempts := r.1.2;
                      pluginMap := pluginMap s |},
                   [Ev_NewWasmPlugin c; Ev_NewModule e;
                    Ev_SetCpuLimit (next_ref s) (Cpu v);
                    Ev_SetMemLimit (next_ref s) (Mem v);
                    Ev_EnsureInstanceNum (next_ref s) (wanted env c)])
              end
        end
    end.
Proof.
  unfold NewWasmPlugin, source_bytes, blank_plugin, wanted. run_go.
  destruct (VmConfig c) as [v|]; run_go; [| done].
  destruct (GetWasmEngine env (Engine v)) as [e|]; run_go; [| done].
  case_decide; run_go; [done |].
  destruct (NewModule env e _) as [m|]; run_go; [| done].
  destruct s as [h nr k pm]; run_go.
  rewrite lookup_insert_eq.
  destruct (EnsureInstanceNum _ _ _ _) as [[w' k'] a]. run_go.
  rewrite insert_insert_eq.
  by destruct (a =? 0).
Qed.

Lemma blank_plugin_inv env c v e m : pool_inv (blank_plugin env c v e m).
Proof.
  split; [reflexivity |].
  unfold GoInt.is_int, GoInt.MinInt, GoInt.MaxInt. simpl. lia.
Qed.

Lemma wanted_is_int env c :
  GoInt.is_int (InstanceNum c) -> GoInt.is_int (NumCPU env) ->
  GoInt.is_int (wanted env c).
Proof. intros ??. unfold wanted. by destruct (_ <=? _). Qed.

(** X6.  The plugin [NewWasmPlugin] returns with a nil error is a new
    object that carries the name and the [VmConfig] of the configuration
    (so that [GetVmConfig] does not panic on it) and, as instance count of
    its own configuration, the requested count or, when that is not
    positive, the number of CPUs.  That count is positive, the plugin holds
    between one and that many instances, namely the instances of the
    attempts that succeeded, and its cursor and occupancy are zero. *)
Theorem X6_NewWasmPlugin_plugin env c s p s' t :
  GoInt.is_int (InstanceNum c) -> GoInt.is_int (NumCPU env) ->
  NewWasmPlugin env c s = (Ret (p, None), s', t) ->
  exists impl v,
    p = Some (next_ref s) /\
    heap s' !! next_ref s = Some impl /\
    VmConfig c = Some v /\
    PluginName_of impl = PluginName c /\
    GetVmConfig impl = Ret v /\
    InstanceNum (GetPluginConfig impl) = wanted env c /\
    1 <= instanceNum impl <= wanted env c /\
    instanceWrappers impl =
      created env (module impl) (attempts s) (Z.to_nat (wanted env c)) /\
    instanceWrappersIdx impl = 0 /\ occupy impl = 0.
Proof.
  intros Hc Hn. rewrite NewWasmPlugin_run.
  destruct (VmConfig c) as [v|] eqn:Hv; [| done].
  destruct (GetWasmEngine env (Engine v)) as [e|]; [| done].
  case_decide; [done |].
  destruct (NewModule env e _) as [m|]; [| done].
  cbv zeta.
  pose proof (wanted_is_int env c Hc Hn) as Hw.
  pose proof (EnsureInstanceNum_resize env (blank_plugin env c v e m) (attempts s)
                (wanted env c) (blank_plugin_inv env c v e m) Hw)
    as (_ & _ & _ & Hmax).
  pose proof (EnsureInstanceNum_inv env (blank_plugin env c v e m) (attempts s)
                (wanted env c) (blank_plugin_inv env c v e m) Hw) as [Hlen _].
  pose proof (EnsureInstanceNum_returns env (blank_plugin env c v e m) (attempts s)
                (wanted env c)) as Hret.
  pose proof (EnsureInstanceNum_frame env (blank_plugin env c v e m) (attempts s)
                (wanted env c)) as (Hcfg & Hidx & Hocc & _ & Hmod).
  cbv zeta in Hmax.
  destruct (Z.eqb_spec (EnsureInstanceNum env (blank_plugin env c v e m) (attempts s)
                          (wanted env c)).2 0) as [E|E]; [done |].
  intros [= <- <- <-].
  eexists _, v. split; [done |]. cbn [heap]. rewrite lookup_insert_eq.
  split; [done |]. split; [done |].
  unfold PluginName_of, GetVmConfig, GetPluginConfig. rewrite Hcfg, Hidx, Hocc, Hmod.
  cbn [blank_plugin config PluginName VmConfig InstanceNum with_InstanceNum
       instanceWrappersIdx occupy module].
  rewrite Hv.
  split; [done |]. split; [done |]. split; [done |].
  rewrite Hret in *. cbn [blank_plugin instanceNum] in Hmax.
  assert (1 <= wanted env c) as Hpos by lia.
  split; [lia |]. split; [| done].
  unfold EnsureInstanceNum. cbn [blank_plugin instanceNum instanceWrappers module].
  destruct (Z.leb_spec (wanted env c) 0) as [?|_]; [lia |].
  destruct (Z.eqb_spec (wanted env c) 0) as [?|_]; [lia |].
  destruct (Z.ltb_spec (wanted env c) 0) as [?|_]; [lia |].
  cbn [orb]. rewrite Z.sub_0_r.
  rewrite int_id by done.
  rewrite createInstances_created. done.
Qed.

(** X6, an instance: no count requested, four CPUs. *)
Lemma X6_witness :
  exists impl,
    heap (NewWasmPlugin env_ok (cfg "p" 0 (Some (vm_cfg "wasmer" "/a.wasm"))) world0).1.2
      !! 0%nat = Some impl /\
    InstanceNum (GetPluginConfig impl) = 4 /\
    1 <= instanceNum impl <= 4.
Proof.
  destruct (NewWasmPlugin env_ok (cfg "p" 0 (Some (vm_cfg "wasmer" "/a.wasm"))) world0)
    as [[o s'] t] eqn:E.
  assert (o = Ret (Some 0%nat, None)) as ->.
  { apply (f_equal (fun x => x.1.1)) in E. simpl in E. rewrite <- E.
    vm_compute. reflexivity. }
  destruct (X6_NewWasmPlugin_plugin env_ok
              (cfg "p" 0 (Some (vm_cfg "wasmer" "/a.wasm"))) world0 _ _ _
              ltac:(unfold GoInt.is_int, GoInt.MinInt, GoInt.MaxInt; simpl; lia)
              ltac:(unfold GoInt.is_int, GoInt.MinInt, GoInt.MaxInt; simpl; lia)
              E) as (impl & v & _ & Hh & _ & _ & _ & Hi & Hn & _).
  exists impl. split; [exact Hh |]. split; [exact Hi | exact Hn].
Defined.

Lemma createInstances_env env env' m n :
  NewInstance_ok env' = NewInstance_ok env ->
  forall k acc, createInstances env' m n k acc = createInstances env m n k acc.
Proof.
  intros H. induction n as [|n IH]; intros k acc; simpl; [done |].
  rewrite H. by rewrite !IH.
Qed.

Lemma EnsureInstanceNum_env env env' w k num :
  NewInstance_ok env' = NewInstance_ok env ->
  EnsureInstanceNum env' w k num = EnsureInstanceNum env w k num.
Proof.
  intros H. unfold EnsureInstanceNum. by rewrite (createInstances_env env env' _ _ H).
Qed.

(** X7.  The path has precedence over the url and there is no fall-back:
    for a configuration with a non-empty path [NewWasmPlugin] never
    consults the url loader (it runs the same with any other), so that an
    unreadable path is a bytes-load error whatever the url; with an empty
    path it never consults the path loader. *)
Theorem X7_path_before_url env c v s f :
  VmConfig c = Some v ->
  (Path v <> "" ->
   NewWasmPlugin (with_url_loader env f) c s = NewWasmPlugin env c s /\
   (forall e, GetWasmEngine env (Engine v) = Some e ->
      loadWasmBytesFromPath env (Path v) = [] ->
      (NewWasmPlugin env c s).1.1 = Ret (None, Some ErrWasmBytesLoad))) /\
  (Path v = "" ->
   NewWasmPlugin (with_path_loader env f) c s = NewWasmPlugin env c s).
Proof.
  intros Hv. split.
  - intros Hp.
    assert (source_bytes (with_url_loader env f) v = source_bytes env v) as Hs.
    { unfold source_bytes. by rewrite !decide_True. }
    split.
    + rewrite !NewWasmPlugin_run, Hv. unfold blank_plugin, wanted.
      rewrite Hs. cbn [with_url_loader GetWasmEngine NewModule NumCPU].
      destruct (GetWasmEngine env (Engine v)); [| done].
      case_decide; [done |].
      destruct (NewModule env _ _); [| done].
      cbv zeta. by rewrite (EnsureInstanceNum_env env (with_url_loader env f)).
    + intros e He Hb. rewrite NewWasmPlugin_run, Hv, He.
      assert (source_bytes env v = []) as ->.
      { unfold source_bytes. by rewrite decide_True. }
      by rewrite decide_True.
  - intros Hp.
    assert (source_bytes (with_path_loader env f) v = source_bytes env v) as Hs.
    { unfold source_bytes. rewrite !decide_False; [done | | ]; by intros []. }
    rewrite !NewWasmPlugin_run, Hv. unfold blank_plugin, wanted.
    rewrite Hs. cbn [with_path_loader GetWasmEngine NewModule NumCPU].
    destruct (GetWasmEngine env (Engine v)); [| done].
    case_decide; [done |].
    destruct (NewModule env _ _); [| done].
    cbv zeta. by rewrite (EnsureInstanceNum_env env (with_path_loader env f)).
Qed.

(** X7, an instance: a path that loads nothing, beside a url that would. *)
Lemma X7_witness :
  (NewWasmPlugin (with_path_loader env_ok (fun _ => []))
     (cfg "p" 2 (Some {| Engine := "wasmer"; Path := "/a.wasm"; Url := "http://x";
                         Cpu := 0; Mem := 0 |})) world0).1.1
  = Ret (None, Some ErrWasmBytesLoad).
Proof.
  apply (proj2 (proj1 (X7_path_before_url (with_path_loader env_ok (fun _ => []))
           (cfg "p" 2 (Some {| Engine := "wasmer"; Path := "/a.wasm"; Url := "http://x";
                               Cpu := 0; Mem := 0 |}))
           {| Engine := "wasmer"; Path := "/a.wasm"; Url := "http://x";
              Cpu := 0; Mem := 0 |} world0 (fun _ => [])
           ltac:(reflexivity)) ltac:(discriminate)) 0%nat);
    reflexivity.
Defined.

(** ** The plugin wrapper, continued *)

Lemma RegisterAll_run hs : forall w,
  RegisterAll hs w =
    (Ret tt, with_handlers w (pluginHandlers w ++ hs), flat_map (greeting w) hs).
Proof.
  unfold RegisterAll.
  induction hs as [|h hs IH]; intros w; cbn [for_range flat_map].
  - unfold with_handlers. rewrite app_nil_r. by destruct w.
  - run_m.
    assert (RegisterPluginHandler (Some h) w =
            (Ret tt, with_handlers w (pluginHandlers w ++ [h]), greeting w h))
      as -> by reflexivity.
    rewrite IH. unfold with_handlers. cbn [pw_plugin pw_config pluginHandlers].
    by rewrite <- app_assoc.
Qed.

(** X8.  Registering a nil observer does nothing.  Registering observers
    appends them to the list in the order of registration, without removing
    duplicates, leaves configuration and plugin alone, and tells each new
    observer, and nobody else, the current configuration and then the
    current plugin.  An update that is accepted afterwards notifies all of
    them, old and new, in that order. *)
Theorem X8_registration_order w hs :
  RegisterPluginHandler None w = (Ret tt, w, []) /\
  RegisterAll hs w =
    (Ret tt, with_handlers w (pluginHandlers w ++ hs), flat_map (greeting w) hs) /\
  (forall config plugin,
     PluginName config <> "" ->
     PluginName config = PluginName (pw_config w) ->
     exists t,
       (Update config plugin (RegisterAll hs w).1.2).2 =
         map (fun h => Ev_OnConfigUpdate h config) (pluginHandlers w ++ hs) ++ t).
Proof.
  split; [done |]. split; [apply RegisterAll_run |].
  intros config plugin Hne Heq. rewrite RegisterAll_run. cbn [fst snd].
  destruct (decide (plugin = None \/ plugin = pw_plugin w)) as [Hp|Hp].
  - rewrite Update_config_only by done. cbn [snd with_handlers pluginHandlers]. eauto.
  - rewrite Update_swap; [| done | done | tauto | cbn; tauto].
    cbn [snd with_handlers pluginHandlers]. rewrite <- app_assoc. eauto.
Qed.

(** X8, an instance: a second observer, then an update. *)
Lemma X8_witness :
  exists t,
    (Update (cfg "p" 3 (Some (vm_cfg "wasmer" "/a.wasm"))) None
       (RegisterAll [11%nat] (wrapper "p" (Some 0%nat) [10%nat])).1.2).2
    = map (fun h => Ev_OnConfigUpdate h (cfg "p" 3 (Some (vm_cfg "wasmer" "/a.wasm"))))
        [10%nat; 11%nat] ++ t.
Proof.
  apply (proj2 (proj2 (X8_registration_order (wrapper "p" (Some 0%nat) [10%nat])
                         [11%nat]))
           (cfg "p" 3 (Some (vm_cfg "wasmer" "/a.wasm"))) None).
  - discriminate.
  - reflexivity.
Defined.

(** X9.  An accepted update whose plugin is nil, or is the plugin the
    wrapper holds, replaces the configuration and nothing else: it returns,
    every observer is told the new configuration once per registration, in
    order, before the configuration is stored, and no start, destroy, store
    of a plugin or [Clear] happens. *)
Theorem X9_update_without_swap w config plugin :
  PluginName config <> "" ->
  PluginName config = PluginName (pw_config w) ->
  plugin = None \/ plugin = pw_plugin w ->
  Update config plugin w =
    (Ret tt, with_config w config,
     map (fun h => Ev_OnConfigUpdate h config) (pluginHandlers w)
       ++ [Ev_StoreConfig config]) /\
  Forall (fun e => ~ is_swap_event e) (Update config plugin w).2.
Proof.
  intros Hne Heq Hp. rewrite Update_config_only by done. split; [done |].
  cbn [snd]. apply Forall_app_2.
  - apply Forall_map_intro. intros h [(? & ? & ?)|[(? & ? & ?)|[(? & ?)|(? & ?)]]];
      discriminate.
  - apply Forall_cons_2; [| apply Forall_nil_2].
    intros [(? & ? & ?)|[(? & ? & ?)|[(? & ?)|(? & ?)]]]; discriminate.
Qed.

(** X9, an instance: the plugin of the wrapper handed back with another
    instance count. *)
Lemma X9_witness :
  Update (cfg "p" 3 (Some (vm_cfg "wasmer" "/a.wasm"))) (Some 0%nat)
    (wrapper "p" (Some 0%nat) [10%nat])
  = (Ret tt,
     with_config (wrapper "p" (Some 0%nat) [10%nat])
       (cfg "p" 3 (Some (vm_cfg "wasmer" "/a.wasm"))),
     [Ev_OnConfigUpdate 10%nat (cfg "p" 3 (Some (vm_cfg "wasmer" "/a.wasm")));
      Ev_StoreConfig (cfg "p" 3 (Some (vm_cfg "wasmer" "/a.wasm")))]).
Proof.
  apply (proj1 (X9_update_without_swap (wrapper "p" (Some 0%nat) [10%nat])
                  (cfg "p" 3 (Some (vm_cfg "wasmer" "/a.wasm"))) (Some 0%nat)
                  ltac:(discriminate) ltac:(reflexivity)
                  ltac:(right; reflexivity))).
Defined.

(** X10.  [Update] never changes the list of observers.  After an accepted
    update [GetConfig] returns the configuration given, and [GetPlugin]
    returns the plugin given, or the former plugin when nil was given.
    [Update] panics in one case only: a swap away from a nil plugin, at the
    final [Clear], when the new plugin is already current. *)
Theorem X10_update_then_get w config plugin :
  pluginHandlers (Update config plugin w).1.2 = pluginHandlers w /\
  (PluginName config <> "" ->
   PluginName config = PluginName (pw_config w) ->
   (GetConfig (Update config plugin w).1.2).1.1 = Ret config /\
   (GetPlugin (Update config plugin w).1.2).1.1
     = Ret (match plugin with Some _ => plugin | None => pw_plugin w end)) /\
  ((exists msg, (Update config plugin w).1.1 = Panic msg) <->
   PluginName config <> "" /\ PluginName config = PluginName (pw_config w) /\
   plugin <> None /\ pw_plugin w = None).
Proof.
  destruct (decide (PluginName config = "" \/
                    PluginName config <> PluginName (pw_config w))) as [Hr|Hr].
  { rewrite Update_rejected by done. cbn [fst snd].
    split; [done |]. split; [intros; tauto |].
    split; [intros [? ?]; done | intros (? & ? & _); tauto]. }
  assert (PluginName config <> "") as Hne by tauto.
  assert (PluginName config = PluginName (pw_config w)) as Heq.
  { destruct (decide (PluginName config = PluginName (pw_config w))); tauto. }
  destruct (decide (plugin = None \/ plugin = pw_plugin w)) as [Hp|Hp].
  - rewrite Update_config_only by done. cbn [fst snd].
    split; [done |]. split.
    + intros _ _. split; [done |]. cbn.
      destruct Hp as [->| ->]; [done | by destruct (pw_plugin w)].
    + split; [intros [? ?]; done |]. intros (_ & _ & Hn & Hnil).
      destruct Hp as [?|Hp]; [done |]. congruence.
  - rewrite Update_swap by tauto. cbn [fst snd].
    split; [done |]. split.
    + intros _ _. split; [done |]. cbn. destruct plugin; [done | tauto].
    + destruct (pw_plugin w) eqn:E.
      * split; [intros [? ?]; done | intros (_ & _ & _ & ?); done].
      * split; [intros _; tauto | eauto].
Qed.

(** X10, an instance: an accepted swap read back. *)
Lemma X10_witness :
  (GetConfig (Update (cfg "p" 3 (Some (vm_cfg "wasmer" "/a.wasm"))) (Some 1%nat)
                (wrapper "p" (Some 0%nat) [10%nat])).1.2).1.1
    = Ret (cfg "p" 3 (Some (vm_cfg "wasmer" "/a.wasm"))) /\
  (GetPlugin (Update (cfg "p" 3 (Some (vm_cfg "wasmer" "/a.wasm"))) (Some 1%nat)
                (wrapper "p" (Some 0%nat) [10%nat])).1.2).1.1
    = Ret (Some 1%nat).
Proof.
  apply (proj1 (proj2 (X10_update_then_get (wrapper "p" (Some 0%nat) [10%nat])
                         (cfg "p" 3 (Some (vm_cfg "wasmer" "/a.wasm"))) (Some 1%nat)))).
  - discriminate.
  - reflexivity.
Defined.

(** ** The plugin manager, continued *)

Section RegistryFacts.
Context (env : Env).

Lemma publish_frame key newConfig p s pw key' :
  pluginMap s !! key = Some (E_pluginWrapper pw) ->
  key' <> key ->
  pluginMap (publish key newConfig p s).1.2 !! key' = pluginMap s !! key'.
Proof.
  intros H Hk. unfold publish.
  destruct (VmConfig newConfig) as [v|]; run_m; [| done].
  destruct p as [r|]; run_go; [| done].
  rewrite (on_wrapper_run _ _ _ _ H). cbn [fst snd].
  unfold set_pluginMap. cbn [pluginMap]. by rewrite lookup_insert_ne.
Qed.

Lemma plugin_EnsureInstanceNum_frame p num s :
  pluginMap (plugin_EnsureInstanceNum env p num s).1.2 = pluginMap s.
Proof.
  destruct p as [r|]; [| done]. apply plugin_EnsureInstanceNum_run.
Qed.

Lemma updateWasm_frame key c s pw key' :
  pluginMap s !! key = Some (E_pluginWrapper pw) ->
  key' <> key ->
  pluginMap (updateWasm env key c s).1.2 !! key' = pluginMap s !! key'.
Proof.
  intros H Hk.
  destruct (decide (c = pw_config pw)) as [Hc|Hc].
  { by rewrite (updateWasm_same env _ _ _ _ H). }
  destruct (shouldCreateNewPlugin c (pw_config pw)) eqn:Hs.
  - rewrite (updateWasm_rebuild env _ _ _ _ H Hc Hs).
    destruct (NewWasmPlugin env c s) as [[o s1] t1] eqn:EN.
    pose proof (NewWasmPlugin_inv env _ _ _ _ _ EN) as (Hm & _).
    destruct o as [[p [e|]]|msg]; cbn [fst snd]; [by rewrite Hm | | by rewrite Hm].
    assert (pluginMap s1 !! key = Some (E_pluginWrapper pw)) as H1 by (by rewrite Hm).
    pose proof (publish_frame key c p s1 pw key' H1 Hk) as Hp.
    destruct (publish key c p s1) as [[o2 s2] t2]. cbn [fst snd] in *.
    by rewrite Hp, Hm.
  - rewrite (updateWasm_reuse env _ _ _ _ H Hc Hs).
    pose proof (plugin_EnsureInstanceNum_frame (pw_plugin pw) (InstanceNum c) s) as Hm.
    destruct (plugin_EnsureInstanceNum env (pw_plugin pw) (InstanceNum c) s)
      as [[[a|msg] s1] t1]; cbn [fst snd] in *; [| by rewrite Hm].
    destruct (a =? 0); cbn [fst snd]; [by rewrite Hm |].
    assert (pluginMap s1 !! key = Some (E_pluginWrapper pw)) as H1 by (by rewrite Hm).
    pose proof (publish_frame key c (pw_plugin pw) s1 pw key' H1 Hk) as Hp.
    destruct (publish key c (pw_plugin pw) s1) as [[o2 s2] t2]. cbn [fst snd] in *.
    by rewrite Hp, Hm.
Qed.

Lemma AddOrUpdateWasm_frame c s key' :
  key' <> PluginName c ->
  pluginMap (AddOrUpdateWasm env c s).1.2 !! key' = pluginMap s !! key'.
Proof.
  intros Hk.
  destruct (decide (PluginName c = "")) as [He|He].
  { unfold AddOrUpdateWasm. by rewrite decide_True. }
  destruct (pluginMap s !! PluginName c) as [[pw|tag]|] eqn:E.
  - destruct (AddOrUpdateWasm_registered_run env _ _ _ He E) as [_ ->].
    by apply (updateWasm_frame _ _ _ pw).
  - unfold AddOrUpdateWasm. rewrite decide_False by done. run_m. by rewrite E.
  - unfold AddOrUpdateWasm. rewrite decide_False by done. run_m. rewrite E. run_m.
    destruct (NewWasmPlugin env c s) as [[o s1] t1] eqn:EN.
    pose proof (NewWasmPlugin_inv env _ _ _ _ _ EN) as (Hm & _).
    destruct o as [[p [e|]]|msg]; run_m; [by rewrite Hm | | by rewrite Hm].
    run_go. rewrite Hm, E. run_go. by rewrite lookup_insert_ne.
Qed.

Lemma AddOrUpdateWasm_keeps_entry c s :
  is_Some (pluginMap s !! PluginName c) ->
  is_Some (pluginMap (AddOrUpdateWasm env c s).1.2 !! PluginName c).
Proof.
  intros [e E].
  destruct (decide (PluginName c = "")) as [He|He].
  { unfold AddOrUpdateWasm. rewrite decide_True by done. cbn. eauto. }
  destruct e as [pw|tag].
  - destruct (AddOrUpdateWasm_registered_run env _ _ _ He E) as [_ ->].
    destruct (decide (c = pw_config pw)) as [Hc|Hc].
    { rewrite (updateWasm_same env _ _ _ _ E) by done. cbn. eauto. }
    destruct (shouldCreateNewPlugin c (pw_config pw)) eqn:Hs.
    + rewrite (updateWasm_rebuild env _ _ _ _ E Hc Hs).
      destruct (NewWasmPlugin env c s) as [[o s1] t1] eqn:EN.
      pose proof (NewWasmPlugin_inv env _ _ _ _ _ EN) as (Hm & _).
      destruct o as [[p [e|]]|msg]; cbn [fst snd]; [rewrite Hm; eauto | | rewrite Hm; eauto].
      assert (pluginMap s1 !! PluginName c = Some (E_pluginWrapper pw)) as H1
        by (by rewrite Hm).
      pose proof (publish_facts (PluginName c) c p s1 pw H1) as (_ & pw' & Hl & _).
      destruct (publish (PluginName c) c p s1) as [[o2 s2] t2]. cbn [fst snd] in *.
      eauto.
    + rewrite (updateWasm_reuse env _ _ _ _ E Hc Hs).
      pose proof (plugin_EnsureInstanceNum_frame (pw_plugin pw) (InstanceNum c) s) as Hm.
      destruct (plugin_EnsureInstanceNum env (pw_plugin pw) (InstanceNum c) s)
        as [[[a|msg] s1] t1]; cbn [fst snd] in *; [| rewrite Hm; eauto].
      destruct (a =? 0); cbn [fst snd]; [rewrite Hm; eauto |].
      assert (pluginMap s1 !! PluginName c = Some (E_pluginWrapper pw)) as H1
        by (by rewrite Hm).
      pose proof (publish_facts (PluginName c) c (pw_plugin pw) s1 pw H1)
        as (_ & pw' & Hl & _).
      destruct (publish (PluginName c) c (pw_plugin pw) s1) as [[o2 s2] t2].
      cbn [fst snd] in *. eauto.
  - unfold AddOrUpdateWasm. rewrite decide_False by done. run_m. rewrite E. cbn. eauto.
Qed.

End RegistryFacts.

(** X11.  [AddOrUpdateWasm] works on one name only: whatever the
    configuration and however the call ends (nil, an error, a panic), the
    registry entries under every other name are as before, and an entry
    that exists under the name of the configuration is never removed. *)
Theorem X11_AddOrUpdateWasm_one_name env c s :
  (forall key, key <> PluginName c ->
     pluginMap (AddOrUpdateWasm env c s).1.2 !! key = pluginMap s !! key) /\
  (is_Some (pluginMap s !! PluginName c) ->
   is_Some (pluginMap (AddOrUpdateWasm env c s).1.2 !! PluginName c)).
Proof.
  split; [intros key; apply AddOrUpdateWasm_frame | apply AddOrUpdateWasm_keeps_entry].
Qed.

(** X11, an instance: "p" survives its own failed rebuild. *)
Lemma X11_witness :
  is_Some (pluginMap (AddOrUpdateWasm env_barren
                        (cfg "p" 2 (Some (vm_cfg "wasmer" "/b.wasm"))) world_p).1.2
             !! "p").
Proof.
  apply (proj2 (X11_AddOrUpdateWasm_one_name env_barren
                  (cfg "p" 2 (Some (vm_cfg "wasmer" "/b.wasm"))) world_p)).
  eexists. vm_compute. reflexivity.
Defined.

(** X12.  Registration and lookup: when [AddOrUpdateWasm] is given a
    non-empty name that has no entry and the construction succeeds, it
    returns nil, tells no observer, and the registry gains a wrapper under
    that name which has no observer, holds the new plugin and holds the
    configuration exactly as it was given (the instance count it carries is
    the requested one, not the one the plugin settled on).  A lookup of the
    name then returns that wrapper and changes nothing. *)
Theorem X12_add_then_lookup env c s p s1 t1 :
  PluginName c <> "" ->
  pluginMap s !! PluginName c = None ->
  NewWasmPlugin env c s = (Ret (p, None), s1, t1) ->
  let pw := {| pw_plugin := p; pw_config := c; pluginHandlers := [] |} in
  let s2 := set_pluginMap s1 (<[PluginName c := E_pluginWrapper pw]> (pluginMap s1)) in
  AddOrUpdateWasm env c s = (Ret None, s2, t1) /\
  p = Some (next_ref s) /\
  GetWasmPluginWrapperByName (PluginName c) s2 = (Ret (Some pw), s2, []).
Proof.
  intros Hne Hnone HN. cbv zeta.
  pose proof (NewWasmPlugin_inv env _ _ _ _ _ HN) as (Hm & _ & _ & Hp & _).
  split; [| split; [done |]].
  - unfold AddOrUpdateWasm. rewrite decide_False by done. run_m.
    rewrite Hnone. run_m. rewrite HN. run_go. rewrite Hm, Hnone. run_go.
    by rewrite !app_nil_r.
  - unfold GetWasmPluginWrapperByName. rewrite decide_False by done. run_m.
    unfold set_pluginMap. cbn [pluginMap]. by rewrite lookup_insert_eq.
Qed.

(** X12, an instance: "q" registered with a count of zero besides "p". *)
Lemma X12_witness :
  (AddOrUpdateWasm env_ok (cfg "q" 0 (Some (vm_cfg "wasmer" "/a.wasm"))) world_p).1.1
    = Ret None /\
  (GetWasmPluginWrapperByName "q"
     (AddOrUpdateWasm env_ok (cfg "q" 0 (Some (vm_cfg "wasmer" "/a.wasm"))) world_p).1.2).1.1
    = Ret (Some {| pw_plugin := Some 1%nat;
                   pw_config := cfg "q" 0 (Some (vm_cfg "wasmer" "/a.wasm"));
                   pluginHandlers := [] |}).
Proof.
  destruct (NewWasmPlugin env_ok (cfg "q" 0 (Some (vm_cfg "wasmer" "/a.wasm"))) world_p)
    as [[o s1] t1] eqn:E.
  assert (o = Ret (Some 1%nat, None)) as ->.
  { apply (f_equal (fun x => x.1.1)) in E. simpl in E. rewrite <- E.
    vm_compute. reflexivity. }
  destruct (X12_add_then_lookup env_ok (cfg "q" 0 (Some (vm_cfg "wasmer" "/a.wasm")))
              world_p (Some 1%nat) s1 t1 ltac:(discriminate)
              ltac:(vm_compute; reflexivity) E) as (-> & _ & Hg).
  cbn [fst snd PluginName cfg] in *. split; [reflexivity |]. by rewrite Hg.
Defined.

(** X13.  [UninstallWasmPluginByName] of a name without entry returns the
    not-found error and changes nothing.  For a registered wrapper with a
    plugin it returns nil, removes that entry and no other, calls [Clear]
    on the plugin and leaves the plugin itself, with its instances, as it
    is; afterwards a lookup of the name finds nothing and a second
    uninstall returns the not-found error. *)
Theorem X13_uninstall name s :
  (pluginMap s !! name = None ->
   UninstallWasmPluginByName name s = (Ret (Some ErrPluginNotFound), s, [])) /\
  (forall pw r,
     pluginMap s !! name = Some (E_pluginWrapper pw) ->
     pw_plugin pw = Some r ->
     let s' := set_pluginMap s (delete name (pluginMap s)) in
     UninstallWasmPluginByName name s = (Ret None, s', [Ev_Clear r]) /\
     heap s' = heap s /\
     (forall key, key <> name -> pluginMap s' !! key = pluginMap s !! key) /\
     GetWasmPluginWrapperByName name s' = (Ret None, s', []) /\
     UninstallWasmPluginByName name s' = (Ret (Some ErrPluginNotFound), s', [])).
Proof.
  split.
  - intros H. unfold UninstallWasmPluginByName. run_m. by rewrite H.
  - intros pw r H Hp. cbv zeta.
    assert (pluginMap (set_pluginMap s (delete name (pluginMap s))) !! name = None)
      as Hdel by (cbn; apply lookup_delete_eq).
    split; [| split; [done |]; split; [| split]].
    + unfold UninstallWasmPluginByName. run_m. rewrite H. run_go. rewrite Hp. by run_go.
    + intros key Hk. cbn. by rewrite lookup_delete_ne.
    + unfold GetWasmPluginWrapperByName. case_decide; [done |]. run_m. by rewrite Hdel.
    + unfold UninstallWasmPluginByName. run_m. by rewrite Hdel.
Qed.

(** X13, an instance: "p" uninstalled. *)
Lemma X13_witness :
  UninstallWasmPluginByName "p" world_p =
    (Ret None, set_pluginMap world_p (delete "p" (pluginMap world_p)), [Ev_Clear 0%nat]) /\
  UninstallWasmPluginByName "q" world_p = (Ret (Some ErrPluginNotFound), world_p, []).
Proof.
  split.
  - apply (proj2 (X13_uninstall "p" world_p)
             {| pw_plugin := Some 0%nat; pw_config := cfg_p; pluginHandlers := [] |}
             0%nat).
    + vm_compute. reflexivity.
    + reflexivity.
  - apply (proj1 (X13_uninstall "q" world_p)). vm_compute. reflexivity.
Defined.

(** X14.  An entry of another type under a name: [AddOrUpdateWasm] returns
    the unexpected-type error and changes nothing, a lookup returns nil and
    changes nothing, and [UninstallWasmPluginByName] removes the entry
    before its unchecked type assertion panics. *)
Theorem X14_entry_of_another_type env c s tag :
  PluginName c <> "" ->
  pluginMap s !! PluginName c = Some (E_other tag) ->
  AddOrUpdateWasm env c s = (Ret (Some ErrUnexpectedType), s, []) /\
  GetWasmPluginWrapperByName (PluginName c) s = (Ret None, s, []) /\
  UninstallWasmPluginByName (PluginName c) s =
    (Panic "interface conversion",
     set_pluginMap s (delete (PluginName c) (pluginMap s)), []).
Proof.
  intros Hne H. split; [| split].
  - unfold AddOrUpdateWasm. rewrite decide_False by done. run_m. by rewrite H.
  - unfold GetWasmPluginWrapperByName. rewrite decide_False by done. run_m. by rewrite H.
  - unfold UninstallWasmPluginByName. run_m. rewrite H. by run_m.
Qed.

(** X14, an instance. *)
Lemma X14_witness :
  AddOrUpdateWasm env_ok cfg_p
    (set_pluginMap world0 (<["p" := E_other 0%nat]> ∅))
  = (Ret (Some ErrUnexpectedType),
     set_pluginMap world0 (<["p" := E_other 0%nat]> ∅), []).
Proof.
  apply (proj1 (X14_entry_of_another_type env_ok cfg_p
                  (set_pluginMap world0 (<["p" := E_other 0%nat]> ∅)) 0%nat
                  ltac:(discriminate) ltac:(vm_compute; reflexivity))).
Defined.

(** X15.  [GetWasmPluginWrapperByName] is a pure lookup: it never panics,
    causes no event and changes nothing; it returns a wrapper exactly when
    the name is not empty and the registry holds a wrapper under it, and
    then that wrapper. *)
Theorem X15_lookup_is_pure name s :
  exists res,
    GetWasmPluginWrapperByName name s = (Ret res, s, []) /\
    forall pw,
      res = Some pw <->
      name <> "" /\ pluginMap s !! name = Some (E_pluginWrapper pw).
Proof.
  unfold GetWasmPluginWrapperByName.
  case_decide; run_m.
  { exists None. split; [done |]. intros pw. split; [done | tauto]. }
  destruct (pluginMap s !! name) as [[pw0|tag]|] eqn:E; run_m.
  - exists (Some pw0). split; [done |]. intros pw.
    split; [by intros [= ->] | by intros [_ [= ->]]].
  - exists None. split; [done |]. intros pw. split; [done | by intros [_ ?]].
  - exists None. split; [done |]. intros pw. split; [done | by intros [_ ?]].
Qed.

(** ** Well-formed process states *)

Lemma wrapper_ok_heap s s' key pw :
  (forall r impl, heap s !! r = Some impl ->
     exists impl', heap s' !! r = Some impl' /\
                   (1 <= instanceNum impl -> 1 <= instanceNum impl')) ->
  wrapper_ok s key pw -> wrapper_ok s' key pw.
Proof.
  intros Hh (Hn & Hk & Hv & r & impl & Hp & Hr & H1).
  destruct (Hh _ _ Hr) as (impl' & Hr' & H1').
  split; [done |]. split; [done |]. split; [done |]. eauto 10.
Qed.

Lemma world_inv_heap_update s r impl impl' k :
  world_inv s -> heap s !! r = Some impl -> pool_inv impl' ->
  (1 <= instanceNum impl -> 1 <= instanceNum impl') ->
  world_inv {| heap := <[r := impl']> (heap s); next_ref := next_ref s;
               attempts := k; pluginMap := pluginMap s |}.
Proof.
  intros [He Hh] Hr Hinv H1. split.
  - intros key e Hl. cbn [pluginMap] in Hl.
    destruct (He _ _ Hl) as (pw & -> & Hok). exists pw. split; [done |].
    eapply wrapper_ok_heap; [| exact Hok].
    intros r0 impl0 Hr0. cbn [heap].
    destruct (decide (r0 = r)) as [->|Hne].
    + rewrite lookup_insert_eq. exists impl'. split; [done |].
      rewrite Hr in Hr0. by injection Hr0 as <-.
    + rewrite lookup_insert_ne by done. eauto.
  - intros r0 impl0. cbn [heap next_ref].
    destruct (decide (r0 = r)) as [->|Hne].
    + rewrite lookup_insert_eq. intros [= <-]. split; [done |].
      by destruct (Hh _ _ Hr).
    + rewrite lookup_insert_ne by done. apply Hh.
Qed.

Lemma world_inv_alloc s impl k :
  world_inv s -> pool_inv impl ->
  world_inv {| heap := <[next_ref s := impl]> (heap s); next_ref := S (next_ref s);
               attempts := k; pluginMap := pluginMap s |}.
Proof.
  intros [He Hh] Hinv. split.
  - intros key e Hl. cbn [pluginMap] in Hl.
    destruct (He _ _ Hl) as (pw & -> & Hok). exists pw. split; [done |].
    eapply wrapper_ok_heap; [| exact Hok].
    intros r0 impl0 Hr0. cbn [heap].
    destruct (Hh _ _ Hr0) as [_ Hlt].
    rewrite lookup_insert_ne by lia. eauto.
  - intros r0 impl0. cbn [heap next_ref].
    destruct (decide (r0 = next_ref s)) as [->|Hne].
    + rewrite lookup_insert_eq. intros [= <-]. split; [done | lia].
    + rewrite lookup_insert_ne by done. intros Hr0.
      destruct (Hh _ _ Hr0). split; [done | lia].
Qed.

Lemma world_inv_attempts s k :
  world_inv s ->
  world_inv {| heap := heap s; next_ref := next_ref s; attempts := k;
               pluginMap := pluginMap s |}.
Proof.
  intros [He Hh]. split; [| exact Hh].
  intros key e Hl. destruct (He _ _ Hl) as (pw & -> & Hok). exists pw.
  split; [done |]. eapply wrapper_ok_heap; [| exact Hok]. eauto.
Qed.

Lemma world_inv_set_wrapper s key pw :
  world_inv s -> wrapper_ok s key pw ->
  world_inv (set_pluginMap s (<[key := E_pluginWrapper pw]> (pluginMap s))).
Proof.
  intros [He Hh] Hok. split; [| exact Hh].
  intros key0 e. unfold set_pluginMap. cbn [pluginMap].
  destruct (decide (key0 = key)) as [->|Hne].
  - rewrite lookup_insert_eq. intros [= <-]. exists pw. split; [done |].
    eapply wrapper_ok_heap; [| exact Hok]. eauto.
  - rewrite lookup_insert_ne by done. intros Hl.
    destruct (He _ _ Hl) as (pw0 & -> & Hok0). exists pw0. split; [done |].
    eapply wrapper_ok_heap; [| exact Hok0]. eauto.
Qed.

Lemma world_inv_delete s key :
  world_inv s -> world_inv (set_pluginMap s (delete key (pluginMap s))).
Proof.
  intros [He Hh]. split; [| exact Hh].
  intros key0 e. unfold set_pluginMap. cbn [pluginMap].
  intros Hl. apply lookup_delete_Some in Hl as [_ Hl].
  destruct (He _ _ Hl) as (pw0 & -> & Hok0). exists pw0. split; [done |].
  eapply wrapper_ok_heap; [| exact Hok0]. eauto.
Qed.

Section InvariantFacts.
Context (env : Env).
Hypothesis NumCPU_int : GoInt.is_int (NumCPU env).

(** [NewWasmPlugin] keeps the state well-formed; the plugin it returns is
    allocated, has an instance and an address no wrapper holds. *)
Lemma NewWasmPlugin_world_inv c s :
  world_inv s -> GoInt.is_int (InstanceNum c) ->
  world_inv (NewWasmPlugin env c s).1.2 /\
  pluginMap (NewWasmPlugin env c s).1.2 = pluginMap s /\
  forall p, (NewWasmPlugin env c s).1.1 = Ret (p, None) ->
    p = Some (next_ref s) /\ VmConfig c <> None /\
    exists impl, heap (NewWasmPlugin env c s).1.2 !! next_ref s = Some impl /\
                 1 <= instanceNum impl.
Proof.
  intros Hinv Hc. rewrite NewWasmPlugin_run.
  destruct (VmConfig c) as [v|]; [| done].
  destruct (GetWasmEngine env (Engine v)) as [e|]; [| done].
  case_decide; [done |].
  destruct (NewModule env e _) as [m|]; [| done].
  cbv zeta. cbn [fst snd].
  pose proof (wanted_is_int env c Hc NumCPU_int) as Hw.
  pose proof (EnsureInstanceNum_inv env (blank_plugin env c v e m) (attempts s)
                (wanted env c) (blank_plugin_inv env c v e m) Hw) as Hpi.
  pose proof (EnsureInstanceNum_returns env (blank_plugin env c v e m) (attempts s)
                (wanted env c)) as Hret.
  split; [by apply world_inv_alloc |]. split; [done |].
  intros p. destruct (Z.eqb_spec (EnsureInstanceNum env (blank_plugin env c v e m)
                                    (attempts s) (wanted env c)).2 0) as [E|E]; [done |].
  intros [= <-]. split; [done |]. split; [done |].
  eexists. cbn [heap]. rewrite lookup_insert_eq. split; [done |].
  destruct Hpi as [Hlen _]. rewrite Hret in E. lia.
Qed.

(** A resize through the interface value keeps the state well-formed and,
    on a plugin that has an instance, returns a positive count. *)
Lemma plugin_EnsureInstanceNum_world_inv p num s :
  world_inv s -> GoInt.is_int num ->
  world_inv (plugin_EnsureInstanceNum env p num s).1.2 /\
  forall r impl, p = Some r -> heap s !! r = Some impl -> 1 <= instanceNum impl ->
    exists a impl',
      (plugin_EnsureInstanceNum env p num s).1.1 = Ret a /\ 1 <= a /\
      heap (plugin_EnsureInstanceNum env p num s).1.2 !! r = Some impl' /\
      1 <= instanceNum impl'.
Proof.
  intros Hinv Hnum. destruct p as [r|]; [| done]. run_go.
  destruct (heap s !! r) as [impl|] eqn:Hr; run_go;
    [| split; [done | intros r0 impl0 [= <-] Hr0; congruence]].
  destruct (proj2 Hinv _ _ Hr) as [Hpi _].
  pose proof (EnsureInstanceNum_inv env impl (attempts s) num Hpi Hnum) as Hpi'.
  pose proof (EnsureInstanceNum_returns env impl (attempts s) num) as Hret.
  pose proof (EnsureInstanceNum_resize env impl (attempts s) num Hpi Hnum)
    as (_ & _ & H1 & _).
  cbv zeta in H1.
  destruct (EnsureInstanceNum env impl (attempts s) num) as [[impl' k'] a].
  cbn [fst snd] in *. run_go. subst a. split.
  - eapply world_inv_heap_update; eauto.
  - intros r0 impl0 [= <-] Hr0 Hge. rewrite Hr in Hr0. injection Hr0 as <-.
    exists (instanceNum impl'), impl'.
    cbn [heap]. rewrite lookup_insert_eq. auto.
Qed.

(** The tail of [updateWasm] keeps the state well-formed. *)
Lemma publish_world_inv key c p s pw :
  world_inv s ->
  pluginMap s !! key = Some (E_pluginWrapper pw) ->
  PluginName c = key ->
  (exists r impl, p = Some r /\ heap s !! r = Some impl /\ 1 <= instanceNum impl) ->
  world_inv (publish key c p s).1.2.
Proof.
  intros Hinv H Hname (r & impl & -> & Hr & H1).
  destruct (proj1 Hinv _ _ H) as (pw0 & [= <-] & Hok).
  pose proof Hok as (Hn & Hk & Hv & r0 & impl0 & Hp0 & Hr0 & H10).
  unfold publish.
  destruct (VmConfig c) as [v|] eqn:Ev; run_go; [| done].
  rewrite (on_wrapper_run _ _ _ _ H). cbn [fst snd].
  apply world_inv_set_wrapper; [done |].
  assert (PluginName c <> "") as Hne by congruence.
  assert (PluginName c = PluginName (pw_config pw)) as Heq by congruence.
  destruct (decide (Some r = pw_plugin pw)) as [Hsame|Hdiff].
  - rewrite Update_config_only by auto. cbn [fst snd].
    split; [done |]. split; [done |]. split; [cbn; congruence |]. cbn. eauto 10.
  - rewrite Update_swap by done. cbn [fst snd].
    split; [done |]. split; [done |]. split; [cbn; congruence |]. cbn. eauto 10.
Qed.

Lemma updateWasm_world_inv c s pw :
  world_inv s -> GoInt.is_int (InstanceNum c) ->
  pluginMap s !! PluginName c = Some (E_pluginWrapper pw) ->
  world_inv (updateWasm env (PluginName c) c s).1.2.
Proof.
  intros Hinv Hc H.
  destruct (proj1 Hinv _ _ H) as (pw0 & [= <-] & Hok).
  pose proof Hok as (Hn & Hk & Hv & r0 & impl0 & Hp0 & Hr0 & H10).
  destruct (decide (c = pw_config pw)) as [Hcfg|Hcfg].
  { by rewrite (updateWasm_same env _ _ _ _ H). }
  destruct (shouldCreateNewPlugin c (pw_config pw)) eqn:Hs.
  - rewrite (updateWasm_rebuild env _ _ _ _ H Hcfg Hs).
    destruct (NewWasmPlugin_world_inv c s Hinv Hc) as (Hinv1 & Hm & Hsucc).
    destruct (NewWasmPlugin env c s) as [[o s1] t1]. cbn [fst snd] in *.
    destruct o as [[p [e|]]|msg]; cbn [fst snd]; [done | | done].
    destruct (Hsucc p eq_refl) as (-> & _ & impl & Hcell & H1).
    assert (pluginMap s1 !! PluginName c = Some (E_pluginWrapper pw)) as H1'
      by (by rewrite Hm).
    pose proof (publish_world_inv (PluginName c) c (Some (next_ref s)) s1 pw
                  Hinv1 H1' eq_refl) as Hpub.
    destruct (publish (PluginName c) c (Some (next_ref s)) s1) as [[o2 s2] t2].
    cbn [fst snd] in *. apply Hpub. eauto.
  - rewrite (updateWasm_reuse env _ _ _ _ H Hcfg Hs). rewrite Hp0.
    destruct (plugin_EnsureInstanceNum_world_inv (Some r0) (InstanceNum c) s Hinv Hc)
      as (Hinv1 & Hsucc).
    destruct (Hsucc _ _ eq_refl Hr0 H10) as (a & impl' & Ha & Hge & Hcell & H1).
    pose proof (plugin_EnsureInstanceNum_frame env (Some r0) (InstanceNum c) s) as Hm.
    destruct (plugin_EnsureInstanceNum env (Some r0) (InstanceNum c) s)
      as [[o s1] t1]. cbn [fst snd] in *. subst o.
    destruct (Z.eqb_spec a 0) as [?|_]; [lia |].
    assert (pluginMap s1 !! PluginName c = Some (E_pluginWrapper pw)) as H1'
      by (by rewrite Hm).
    pose proof (publish_world_inv (PluginName c) c (Some r0) s1 pw
                  Hinv1 H1' eq_refl) as Hpub.
    destruct (publish (PluginName c) c (Some r0) s1) as [[o2 s2] t2].
    cbn [fst snd] in *. apply Hpub. eauto.
Qed.

Lemma AddOrUpdateWasm_world_inv c s :
  world_inv s -> GoInt.is_int (InstanceNum c) ->
  world_inv (AddOrUpdateWasm env c s).1.2.
Proof.
  intros Hinv Hc.
  destruct (decide (PluginName c = "")) as [He|He].
  { unfold AddOrUpdateWasm. by rewrite decide_True. }
  destruct (pluginMap s !! PluginName c) as [e|] eqn:E.
  - destruct (proj1 Hinv _ _ E) as (pw & -> & Hok).
    destruct (AddOrUpdateWasm_registered_run env _ _ _ He E) as [_ ->].
    by apply (updateWasm_world_inv c s pw).
  - unfold AddOrUpdateWasm. rewrite decide_False by done. run_m. rewrite E. run_m.
    destruct (NewWasmPlugin_world_inv c s Hinv Hc) as (Hinv1 & Hm & Hsucc).
    destruct (NewWasmPlugin env c s) as [[o s1] t1]. cbn [fst snd] in *.
    destruct o as [[p [e|]]|msg]; run_m; [done | | done].
    destruct (Hsucc p eq_refl) as (-> & Hv & impl & Hcell & H1).
    run_go. rewrite Hm, E. run_go. rewrite <- Hm.
    apply world_inv_set_wrapper; [done |].
    split; [done |]. split; [done |]. split; [done |]. cbn. eauto 10.
Qed.

End InvariantFacts.

Lemma Uninstall_world_inv name s :
  world_inv s -> world_inv (UninstallWasmPluginByName name s).1.2.
Proof.
  intros Hinv. unfold UninstallWasmPluginByName. run_m.
  destruct (pluginMap s !! name) as [[pw|tag]|]; run_m; [| | done].
  - destruct (pw_plugin pw); run_go; by apply world_inv_delete.
  - by apply world_inv_delete.
Qed.

Lemma Lookup_state name s : (GetWasmPluginWrapperByName name s).1.2 = s.
Proof.
  unfold GetWasmPluginWrapperByName. case_decide; run_m; [done |].
  by destruct (pluginMap s !! name) as [[pw|tag]|].
Qed.

Lemma Register_world_inv name h s :
  world_inv s -> world_inv (on_wrapper name (RegisterPluginHandler h) s).1.2.
Proof.
  intros Hinv. unfold on_wrapper.
  destruct (pluginMap s !! name) as [[pw|tag]|] eqn:E; [| done | done].
  destruct (proj1 Hinv _ _ E) as (pw0 & [= <-] & Hok).
  destruct h as [h|].
  - assert (RegisterPluginHandler (Some h) pw =
            (Ret tt, with_handlers pw (pluginHandlers pw ++ [h]), greeting pw h))
      as -> by reflexivity.
    cbn [fst snd]. by apply world_inv_set_wrapper.
  - cbn [RegisterPluginHandler]. run_m. cbn [fst snd].
    by apply world_inv_set_wrapper.
Qed.

Lemma acquire_world_inv name s :
  world_inv s -> world_inv (acquire name s).1.2.
Proof.
  intros Hinv. unfold acquire. run_m.
  pose proof (Lookup_state name s) as Hs.
  destruct (GetWasmPluginWrapperByName name s) as [[[[pw|]|msg] s1] t1];
    cbn [fst snd] in Hs; subst s1; run_m; [| done | done].
  destruct (pw_plugin pw) as [r|]; [| done]. cbn [plugin_GetInstance]. run_m.
  destruct (heap s !! r) as [impl|] eqn:Hr; run_m; [| done].
  pose proof (GetInstance_keeps_pool impl) as Hk.
  destruct (GetInstance impl) as [[x impl']|msg]; run_m; [| done].
  destruct Hk as [Hn Hl]. destruct (proj2 Hinv _ _ Hr) as [[Hlen Hint] _].
  eapply world_inv_heap_update; eauto.
  - split; [by rewrite Hn, Hl | by rewrite Hn].
  - by rewrite Hn.
Qed.

Lemma release_world_inv name x s :
  world_inv s -> world_inv (release name x s).1.2.
Proof.
  intros Hinv. unfold release. run_m.
  pose proof (Lookup_state name s) as Hs.
  destruct (GetWasmPluginWrapperByName name s) as [[[[pw|]|msg] s1] t1];
    cbn [fst snd] in Hs; subst s1; run_m; [| done | done].
  destruct (pw_plugin pw) as [r|]; [| done]. cbn [plugin_ReleaseInstance]. run_m.
  destruct (heap s !! r) as [impl|] eqn:Hr; run_m; [| done].
  destruct (proj2 Hinv _ _ Hr) as [Hpi _].
  eapply world_inv_heap_update; eauto.
Qed.

Lemma world0_inv : world_inv world0.
Proof.
  split.
  - intros key e H. cbn in H. by rewrite lookup_empty in H.
  - intros r impl H. cbn in H. by rewrite lookup_empty in H.
Qed.

(** X16.  The process state stays well-formed.  It is at the start, and
    every call of a client (add or update, uninstall, lookup, registration
    of an observer, acquisition and release of an instance), however it
    ends, leaves it so: every registry entry is a wrapper registered under
    the non-empty name of its own configuration, whose configuration has a
    [VmConfig] and whose plugin is allocated and holds at least one
    instance, and every allocated plugin obeys the plugin invariant. *)
Theorem X16_world_invariant env :
  GoInt.is_int (NumCPU env) ->
  world_inv world0 /\
  forall ops s,
    world_inv s -> Forall manager_op_typed ops ->
    world_inv (run_manager_ops env ops s).
Proof.
  intros Hn. split; [apply world0_inv |].
  intros ops. unfold run_manager_ops.
  induction ops as [|op ops IH]; intros s Hinv Hops; simpl; [done |].
  apply Forall_cons in Hops as [Hop Hops]. apply IH; [| done].
  destruct op as [c|name|name|name h|name|name x]; simpl.
  - by apply AddOrUpdateWasm_world_inv.
  - by apply Uninstall_world_inv.
  - by rewrite Lookup_state.
  - by apply Register_world_inv.
  - by apply acquire_world_inv.
  - by apply release_world_inv.
Qed.

(** X16, an instance: a short history of the process. *)
Lemma X16_witness :
  world_inv
    (run_manager_ops env_flaky
       [MOp_AddOrUpdateWasm cfg_p; MOp_Register "p" (Some 10%nat);
        MOp_Acquire "p"; MOp_AddOrUpdateWasm cfg_p_nil;
        MOp_AddOrUpdateWasm (cfg "p" 1 (Some (vm_cfg "wasmer" "/b.wasm")));
        MOp_Release "p" (iw 1); MOp_Uninstall "q"]
       world0).
Proof.
  assert (GoInt.is_int 4) as H4
    by (unfold GoInt.is_int, GoInt.MinInt, GoInt.MaxInt; lia).
  apply (proj2 (X16_world_invariant env_flaky H4)).
  - apply (proj1 (X16_world_invariant env_flaky H4)).
  - repeat (apply Forall_cons_2;
            [first [exact I
                   | unfold manager_op_typed, GoInt.is_int, GoInt.MinInt, GoInt.MaxInt;
                     simpl; lia] |]).
    apply Forall_nil_2.
Defined.

(** X17.  In a well-formed state, an update of a registered name that
    leaves engine, path and url alone and carries a [VmConfig] is never
    given up and never swaps the plugin: the call returns nil, the plugin of
    the wrapper is resized in place (and still has an instance), the limits
    are set on it, every observer is told the new configuration, and the
    wrapper then holds the new configuration, the same plugin and the same
    observers.  Nothing else in the state changes. *)
Theorem X17_update_in_place env c s pw r impl v :
  world_inv s -> GoInt.is_int (InstanceNum c) ->
  pluginMap s !! PluginName c = Some (E_pluginWrapper pw) ->
  c <> pw_config pw ->
  ~ vm_source_changed c (pw_config pw) ->
  VmConfig c = Some v ->
  pw_plugin pw = Some r ->
  heap s !! r = Some impl ->
  let e := EnsureInstanceNum env impl (attempts s) (InstanceNum c) in
  AddOrUpdateWasm env c s =
    (Ret None,
     {| heap := <[r := e.1.1]> (heap s);
        next_ref := next_ref s;
        attempts := e.1.2;
        pluginMap := <[PluginName c := E_pluginWrapper (with_config pw c)]>
                       (pluginMap s) |},
     [Ev_EnsureInstanceNum r (InstanceNum c);
      Ev_SetCpuLimit r (Cpu v); Ev_SetMemLimit r (Mem v)]
     ++ map (fun h => Ev_OnConfigUpdate h c) (pluginHandlers pw)
     ++ [Ev_StoreConfig c]) /\
  1 <= e.2.
Proof.
  intros Hinv Hc H Hd Hnc Hv Hp Hr. cbv zeta.
  destruct (proj1 Hinv _ _ H) as (pw0 & [= <-] & Hok).
  destruct Hok as (Hn & Hk & _ & r0 & impl0 & Hp0 & Hr0 & H10).
  rewrite Hp in Hp0. injection Hp0 as <-. rewrite Hr in Hr0. injection Hr0 as <-.
  destruct (proj2 Hinv _ _ Hr) as [Hpi _].
  pose proof (EnsureInstanceNum_resize env impl (attempts s) (InstanceNum c) Hpi Hc)
    as (_ & _ & H1 & _).
  cbv zeta in H1. specialize (H1 H10). split; [| done].
  assert (shouldCreateNewPlugin c (pw_config pw) = false) as Hs.
  { destruct (shouldCreateNewPlugin c (pw_config pw)) eqn:E; [| done].
    by apply shouldCreateNewPlugin_spec in E. }
  rewrite (AddOrUpdateWasm_registered env _ _ _ Hk H).
  rewrite (updateWasm_reuse env _ _ _ _ H Hd Hs), Hp.
  run_go. rewrite Hr.
  destruct (EnsureInstanceNum env impl (attempts s) (InstanceNum c))
    as [[impl' k'] a]. cbn [fst snd] in *. run_go.
  destruct (Z.eqb_spec a 0) as [?|_]; [lia |].
  unfold publish. rewrite Hv. run_go.
  erewrite on_wrapper_run by (cbn [pluginMap]; exact H).
  rewrite Update_config_only; [| done | congruence | by right].
  cbn [fst snd set_pluginMap heap next_ref attempts pluginMap].
  by rewrite !app_nil_r.
Qed.

(** X17, an instance: "p" goes from two instances to five. *)
Lemma X17_witness :
  (AddOrUpdateWasm env_ok (cfg "p" 5 (Some (vm_cfg "wasmer" "/a.wasm"))) world_p).1.1
    = Ret None /\
  instanceNum <$>
    heap (AddOrUpdateWasm env_ok (cfg "p" 5 (Some (vm_cfg "wasmer" "/a.wasm"))) world_p).1.2
      !! 0%nat = Some 5.
Proof.
  assert (world_inv world_p) as Hinv.
  { apply (AddOrUpdateWasm_world_inv env_ok
             ltac:(unfold GoInt.is_int, GoInt.MinInt, GoInt.MaxInt; simpl; lia)
             cfg_p world0 world0_inv).
    unfold GoInt.is_int, GoInt.MinInt, GoInt.MaxInt; simpl; lia. }
  assert (heap world_p !! 0%nat
          = Some ltac:(let t := eval vm_compute in (heap world_p !! 0%nat) in
                       lazymatch t with Some ?x => exact x end)) as Hr
    by (vm_compute; reflexivity).
  destruct (X17_update_in_place env_ok (cfg "p" 5 (Some (vm_cfg "wasmer" "/a.wasm")))
              world_p
              {| pw_plugin := Some 0%nat; pw_config := cfg_p; pluginHandlers := [] |}
              0%nat _ (vm_cfg "wasmer" "/a.wasm") Hinv
              ltac:(unfold GoInt.is_int, GoInt.MinInt, GoInt.MaxInt; simpl; lia)
              ltac:(vm_compute; reflexivity) ltac:(discriminate)
              ltac:(intros (n & o & [= <-] & [= <-] & [Hx|[Hx|Hx]]); by apply Hx)
              ltac:(reflexivity) ltac:(reflexivity) Hr) as [-> _].
  split; [reflexivity |].
  cbn [fst snd heap]. rewrite lookup_insert_eq. vm_compute. reflexivity.
Defined.

(** X18.  In a well-formed state, an update of a registered name that
    changes engine, path or url and whose replacement plugin can be built
    swaps the plugins: the call returns nil, the wrapper then holds the new
    configuration and the plugin just built (a fresh address, different from
    the old plugin's), and the observers hear, in this order, the new
    configuration, the start of the new plugin and the destruction of the
    old one, after which the old plugin is cleared.  The old plugin itself
    is left as it was: clearing releases none of its instances. *)
Theorem X18_rebuild_swaps env c s pw p s1 t1 :
  GoInt.is_int (NumCPU env) -> world_inv s -> GoInt.is_int (InstanceNum c) ->
  pluginMap s !! PluginName c = Some (E_pluginWrapper pw) ->
  vm_source_changed c (pw_config pw) ->
  NewWasmPlugin env c s = (Ret (p, None), s1, t1) ->
  exists v r,
    VmConfig c = Some v /\ pw_plugin pw = Some r /\
    p = Some (next_ref s) /\ r <> next_ref s /\
    AddOrUpdateWasm env c s =
      (Ret None,
       set_pluginMap s1
         (<[PluginName c := E_pluginWrapper (with_plugin (with_config pw c) p)]>
            (pluginMap s1)),
       t1 ++ [Ev_SetCpuLimit (next_ref s) (Cpu v); Ev_SetMemLimit (next_ref s) (Mem v)]
          ++ map (fun h => Ev_OnConfigUpdate h c) (pluginHandlers pw)
          ++ [Ev_StoreConfig c]
          ++ map (fun h => Ev_OnPluginStart h p) (pluginHandlers pw)
          ++ [Ev_StorePlugin p]
          ++ map (fun h => Ev_OnPluginDestroy h (Some r)) (pluginHandlers pw)
          ++ [Ev_Clear r]) /\
    heap s1 !! r = heap s !! r.
Proof.
  intros Hcpu Hinv Hc H Hch HN.
  destruct (proj1 Hinv _ _ H) as (pw0 & [= <-] & Hok).
  destruct Hok as (Hn & Hk & _ & r & impl & Hp & Hr & _).
  destruct (proj2 Hinv _ _ Hr) as [_ Hlt].
  destruct (NewWasmPlugin_world_inv env Hcpu c s Hinv Hc) as (_ & Hpm & Hres).
  rewrite HN in Hpm, Hres. cbn [fst snd] in Hpm, Hres.
  destruct (Hres p eq_refl) as (-> & Hv & _).
  destruct (VmConfig c) as [v|] eqn:Ev; [| done].
  assert (c <> pw_config pw) as Hd.
  { intros E. destruct Hch as (n & o & Hn1 & Ho & Hx). rewrite <- E in Ho.
    rewrite Hn1 in Ho. injection Ho as <-. by destruct Hx as [Hx|[Hx|Hx]]. }
  exists v, r. split; [done |]. split; [done |]. split; [done |].
  split; [lia |]. split.
  - pose proof Hch as Hs. apply shouldCreateNewPlugin_spec in Hs.
    rewrite (AddOrUpdateWasm_registered env _ _ _ Hk H).
    rewrite (updateWasm_rebuild env _ _ _ _ H Hd Hs), HN.
    unfold publish. rewrite Ev. run_go.
    erewrite on_wrapper_run by (rewrite Hpm; exact H).
    rewrite Update_swap; [| done | congruence | done | rewrite Hp; intros [= E]; lia].
    rewrite Hp. cbn [fst snd]. rewrite !app_nil_r.
    f_equal. by rewrite <- !app_assoc.
  - revert HN. rewrite NewWasmPlugin_run, Ev.
    destruct (GetWasmEngine env (Engine v)) as [e|]; [| by intros [= <- <-]].
    case_decide; [by intros [= <- <-] |].
    destruct (NewModule env e _) as [m|]; [| by intros [= <- <-]].
    cbv zeta. intros [= _ <- _]. cbn [heap].
    apply lookup_insert_ne. lia.
Qed.

(** X18, an instance: "p" moves from /a.wasm to /b.wasm. *)
Lemma X18_witness :
  (AddOrUpdateWasm env_ok (cfg "p" 2 (Some (vm_cfg "wasmer" "/b.wasm"))) world_p).1.1
    = Ret None /\
  pluginMap
    (AddOrUpdateWasm env_ok (cfg "p" 2 (Some (vm_cfg "wasmer" "/b.wasm"))) world_p).1.2
    !! "p"
    = Some (E_pluginWrapper
              {| pw_plugin := Some 1%nat;
                 pw_config := cfg "p" 2 (Some (vm_cfg "wasmer" "/b.wasm"));
                 pluginHandlers := [] |}).
Proof.
  assert (GoInt.is_int (NumCPU env_ok)) as Hcpu
    by (unfold GoInt.is_int, GoInt.MinInt, GoInt.MaxInt; simpl; lia).
  assert (world_inv world_p) as Hinv.
  { apply (AddOrUpdateWasm_world_inv env_ok Hcpu cfg_p world0 world0_inv).
    unfold GoInt.is_int, GoInt.MinInt, GoInt.MaxInt; simpl; lia. }
  destruct (X18_rebuild_swaps env_ok (cfg "p" 2 (Some (vm_cfg "wasmer" "/b.wasm")))
              world_p
              {| pw_plugin := Some 0%nat; pw_config := cfg_p; pluginHandlers := [] |}
              (Some 1%nat)
              (NewWasmPlugin env_ok (cfg "p" 2 (Some (vm_cfg "wasmer" "/b.wasm")))
                 world_p).1.2
              (NewWasmPlugin env_ok (cfg "p" 2 (Some (vm_cfg "wasmer" "/b.wasm")))
                 world_p).2
              Hcpu Hinv
              ltac:(unfold GoInt.is_int, GoInt.MinInt, GoInt.MaxInt; simpl; lia)
              ltac:(vm_compute; reflexivity)
              ltac:(exists (vm_cfg "wasmer" "/b.wasm"), (vm_cfg "wasmer" "/a.wasm");
                    repeat split; try reflexivity; right; left; discriminate)
              ltac:(vm_compute; reflexivity)) as (v & r & _ & _ & _ & _ & -> & _).
  split; [reflexivity |]. cbn [fst snd set_pluginMap pluginMap].
  apply lookup_insert_eq.
Defined.

(** X19.  In a well-formed state the wrapper registered under a non-empty
    name always has a plugin with a non-empty pool, so the acquisition of an
    instance through it never meets a nil plugin or an empty pool: while the
    cursor of that plugin is not negative the call returns the instance at
    cursor modulo count and changes nothing but cursor and occupancy of that
    one plugin; in any case it returns an instance of the pool or panics on
    the index. *)
Theorem X19_acquire_registered s name pw :
  world_inv s -> name <> "" ->
  pluginMap s !! name = Some (E_pluginWrapper pw) ->
  exists r impl,
    pw_plugin pw = Some r /\ heap s !! r = Some impl /\
    instanceWrappers impl <> [] /\
    (0 <= instanceWrappersIdx impl ->
     exists x,
       instanceWrappers impl
         !! Z.to_nat (instanceWrappersIdx impl `mod` instanceNum impl) = Some x /\
       acquire name s =
         (Ret (Some x),
          {| heap := <[r := set_cursor impl
                              (GoInt.int32 (instanceWrappersIdx impl + 1))
                              (GoInt.int32 (occupy impl + 1))]> (heap s);
             next_ref := next_ref s; attempts := attempts s;
             pluginMap := pluginMap s |},
          [])) /\
    ((exists x, (acquire name s).1.1 = Ret (Some x) /\ x ∈ instanceWrappers impl) \/
     (acquire name s = (Panic "index out of range", s, []) /\
      instanceWrappersIdx impl < 0)).
Proof.
  intros Hinv Hne H.
  destruct (proj1 Hinv _ _ H) as (pw0 & [= <-] & Hok).
  destruct Hok as (_ & _ & _ & r & impl & Hp & Hr & H1).
  destruct (proj2 Hinv _ _ Hr) as [[Hlen _] _].
  assert (instanceWrappers impl <> []) as Hpool.
  { intros E. rewrite E in Hlen. simpl in Hlen. lia. }
  exists r, impl. split; [done |]. split; [done |]. split; [done |].
  assert (acquire name s =
            match GetInstance impl with
            | Panic msg => (Panic msg, s, [])
            | Ret (x, impl') =>
                (Ret (Some x),
                 {| heap := <[r := impl']> (heap s); next_ref := next_ref s;
                    attempts := attempts s; pluginMap := pluginMap s |}, [])
            end) as Hacq.
  { unfold acquire, GetWasmPluginWrapperByName.
    rewrite decide_False by done. run_m. rewrite H. run_m.
    rewrite Hp. cbn [plugin_GetInstance]. run_m. rewrite Hr.
    by destruct (GetInstance impl) as [[x impl']|msg]. }
  split.
  - intros Hidx. destruct (GetInstance_ok impl Hpool Hidx) as (x & Hx & HG).
    exists x. rewrite Hlen. split; [done |]. by rewrite Hacq, HG.
  - rewrite Hacq. destruct (GetInstance impl) as [[x impl']|msg] eqn:HG.
    + left. exists x. split; [done |]. by apply (GetInstance_effect _ _ _ HG).
    + right. revert HG. unfold GetInstance.
      assert (0 < Z.of_nat (length (instanceWrappers impl))) as Hpos.
      { destruct (instanceWrappers impl); [done | simpl; lia]. }
      destruct (Z.eqb_spec (Z.of_nat (length (instanceWrappers impl))) 0) as [E|_];
        [lia |].
      cbv zeta.
      destruct (Z.ltb_spec (Z.rem (instanceWrappersIdx impl)
                              (Z.of_nat (length (instanceWrappers impl)))) 0) as [Hneg|Hge].
      * intros [= <-]. split; [done |].
        destruct (Z.lt_ge_cases (instanceWrappersIdx impl) 0) as [?|Hge]; [done |].
        pose proof (Z.rem_nonneg (instanceWrappersIdx impl)
                      (Z.of_nat (length (instanceWrappers impl)))). lia.
      * pose proof (Z.rem_bound_abs (instanceWrappersIdx impl)
                      (Z.of_nat (length (instanceWrappers impl)))) as Hb.
        destruct (lookup_lt_is_Some_2 (instanceWrappers impl)
                    (Z.to_nat (Z.rem (instanceWrappersIdx impl)
                                 (Z.of_nat (length (instanceWrappers impl))))))
          as [x Hx]; [lia |].
        by rewrite Hx.
Qed.

(** X19, an instance: an acquisition from "p" right after its registration. *)
Lemma X19_witness :
  exists x, (acquire "p" world_p).1.1 = Ret (Some x) /\ (acquire "p" world_p).2 = [].
Proof.
  assert (world_inv world_p) as Hinv.
  { apply (AddOrUpdateWasm_world_inv env_ok
             ltac:(unfold GoInt.is_int, GoInt.MinInt, GoInt.MaxInt; simpl; lia)
             cfg_p world0 world0_inv).
    unfold GoInt.is_int, GoInt.MinInt, GoInt.MaxInt; simpl; lia. }
  destruct (X19_acquire_registered world_p "p"
              {| pw_plugin := Some 0%nat; pw_config := cfg_p; pluginHandlers := [] |}
              Hinv ltac:(discriminate) ltac:(vm_compute; reflexivity))
    as (r & impl & [= <-] & Hr & _ & Hret & _).
  assert (instanceWrappersIdx impl = 0) as Hidx.
  { assert (instanceWrappersIdx <$> Some impl = Some 0) as E
      by (rewrite <- Hr; vm_compute; reflexivity).
    by injection E. }
  destruct Hret as (x & _ & ->); [lia |].
  exists x. split; reflexivity.
Defined.

(** Every method of the dispatcher in one equation: it looks up the export
    of its own name and nothing else. *)
Lemma run_by_lookup {Value : Type} (ToI32 : Value -> Z)
    (wasm : @Proxywasm.wasmContext Value) (c : Proxywasm.AbiCall) :
  Proxywasm.run ToI32 wasm c =
    match Proxywasm.Exports (Proxywasm.instance wasm) !! Proxywasm.export_name c with
    | None =>
        (Proxywasm.result_of c 0
           (Some (errors_New ("func " ++ Proxywasm.export_name c ++ " not found"))), [])
    | Some ff =>
        match ff (Proxywasm.call_args c) with
        | (res, Some e) =>
            (Proxywasm.result_of c 0 (Some e),
             [(Proxywasm.export_name c, Proxywasm.call_args c)])
        | (res, None) =>
            (Proxywasm.result_of c (ToI32 res) None,
             [(Proxywasm.export_name c, Proxywasm.call_args c)])
        end
    end.
Proof.
  destruct (Proxywasm.Exports (Proxywasm.instance wasm) !! Proxywasm.export_name c)
    as [ff|] eqn:H.
  - destruct (ff (Proxywasm.call_args c)) as [res [e|]] eqn:Hf;
      destruct c; cbn [Proxywasm.export_name Proxywasm.call_args] in H, Hf; run_call;
      first [ rewrite (call_void_present _ _ _ _ _ _ H Hf)
            | rewrite (call_i32_fails ToI32 _ _ _ _ _ _ H Hf)
            | rewrite (call_i32_returns ToI32 _ _ _ _ _ H Hf) ];
      reflexivity.
  - destruct c; cbn [Proxywasm.export_name] in H; run_call;
      first [ rewrite (call_void_absent _ _ _ H)
            | rewrite (call_i32_absent ToI32 _ _ _ H) ];
      reflexivity.
Qed.

(** X20.  The methods of the dispatcher are independent of one another:
    what a call does depends on the export table at the name of the call
    only, so adding, replacing or removing any other export leaves it as it
    was; no two methods share an export name (a call is determined by its
    export name and its arguments); and a call invokes nothing but the
    export of its own name, at most once, and invokes it whenever it returns
    no error. *)
Theorem X20_methods_independent {Value : Type} (ToI32 : Value -> Z)
    (wasm : @Proxywasm.wasmContext Value) (c : Proxywasm.AbiCall) :
  (forall wasm' : @Proxywasm.wasmContext Value,
     Proxywasm.Exports (Proxywasm.instance wasm') !! Proxywasm.export_name c
       = Proxywasm.Exports (Proxywasm.instance wasm) !! Proxywasm.export_name c ->
     Proxywasm.run ToI32 wasm' c = Proxywasm.run ToI32 wasm c) /\
  (forall c',
     Proxywasm.export_name c' = Proxywasm.export_name c ->
     Proxywasm.call_args c' = Proxywasm.call_args c -> c' = c) /\
  ((Proxywasm.run ToI32 wasm c).2 = [] \/
   (Proxywasm.run ToI32 wasm c).2
     = [(Proxywasm.export_name c, Proxywasm.call_args c)]) /\
  ((exists code, (Proxywasm.run ToI32 wasm c).1 = Proxywasm.result_of c code None) ->
   (Proxywasm.run ToI32 wasm c).2
     = [(Proxywasm.export_name c, Proxywasm.call_args c)]).
Proof.
  split; [| split; [| split]].
  - intros wasm' H. rewrite !run_by_lookup.
    unfold Proxywasm.ExportFn in *. by rewrite H.
  - intros c' Hn Ha.
    destruct c; destruct c';
      cbn [Proxywasm.export_name] in Hn; try discriminate Hn;
      cbn [Proxywasm.call_args] in Ha; congruence.
  - rewrite run_by_lookup.
    destruct (Proxywasm.Exports (Proxywasm.instance wasm) !! Proxywasm.export_name c)
      as [ff|]; [| by left].
    right. by destruct (ff (Proxywasm.call_args c)) as [res [e|]].
  - rewrite run_by_lookup.
    destruct (Proxywasm.Exports (Proxywasm.instance wasm) !! Proxywasm.export_name c)
      as [ff|].
    + intros _. by destruct (ff (Proxywasm.call_args c)) as [res [e|]].
    + intros [code Hc]. cbn [fst] in Hc. exfalso.
      destruct c; cbn [Proxywasm.result_of Proxywasm.yields_code] in Hc; discriminate Hc.
Qed.

(** X20, an instance: an export added under another name does not change
    [proxy_on_done]. *)
Lemma X20_witness :
  Proxywasm.run GoInt.int32
    {| Proxywasm.contextId := 2;
       Proxywasm.instance :=
         {| Proxywasm.Exports :=
              <["proxy_on_log" := fun _ => (7, None)]> sample_exports |} |}
    (Proxywasm.Call_proxy_on_done 1)
  = Proxywasm.run GoInt.int32 sample_context (Proxywasm.Call_proxy_on_done 1).
Proof.
  apply (proj1 (X20_methods_independent GoInt.int32 sample_context
                  (Proxywasm.Call_proxy_on_done 1))).
  vm_compute. reflexivity.
Defined.
